(** * magnit_parser: a shallow embedding of src/magnit_parser.py

    The script asks a retail chain's mobile backend for the in-stock coffee
    products of one city and writes them to a semicolon-delimited file.

    Python values are embedded as follows.
    - [str] is a sequence of Unicode code points ([list N]); literals are
      written as UTF-8 source text and decoded by [u].
    - a decoded JSON document is a [value]; a [dict] keeps its items in
      insertion order.
    - [float] is IEEE 754 binary64, taken from the kernel's [SpecFloat].
    - a raised exception is the [Raise] branch of [result].
    - the network is a script of replies the session will receive, the file
      system a log of files written; both live in [world]. *)

From Stdlib Require Import ZArith NArith String Ascii List Bool Lia.
From Stdlib Require Import Strings.Byte.
From Stdlib Require Import Floats.SpecFloat.
From Stdlib Require Import DecimalPos.
Import ListNotations.

Set Implicit Arguments.
Local Open Scope Z_scope.

(** ** Text *)

(** A Python [str]: its code points, in order. *)
Definition str := list N.

Module Utf8.

(** Decoder for the literals of this file (well-formed UTF-8 only). *)
Fixpoint decode (need : nat) (acc : N) (bs : list N) : str :=
  match bs with
  | [] => []
  | b :: rest =>
      match need with
      | O =>
          if (b <? 128)%N then b :: decode 0 0%N rest
          else if (b <? 224)%N then decode 1 (N.land b 31) rest
          else if (b <? 240)%N then decode 2 (N.land b 15) rest
          else decode 3 (N.land b 7) rest
      | S n =>
          let acc' := (acc * 64 + N.land b 63)%N in
          match n with
          | O => acc' :: decode 0 0%N rest
          | S _ => decode n acc' rest
          end
      end
  end.

Definition byte_of (n : N) : byte :=
  match Byte.of_N n with Some b => b | None => x00 end.

(** A lone surrogate has no UTF-8 form; Python's strict encoder refuses it. *)
Definition is_surrogate (c : N) : bool := ((55296 <=? c) && (c <=? 57343))%N.

Definition encode_char (c : N) : list byte :=
  if (c <? 128)%N then [byte_of c]
  else if (c <? 2048)%N then
    [byte_of (192 + c / 64); byte_of (128 + c mod 64)]
  else if (c <? 65536)%N then
    [byte_of (224 + c / 4096); byte_of (128 + (c / 64) mod 64);
     byte_of (128 + c mod 64)]
  else
    [byte_of (240 + c / 262144); byte_of (128 + (c / 4096) mod 64);
     byte_of (128 + (c / 64) mod 64); byte_of (128 + c mod 64)].

(** [text.encode("utf-8")]: [None] stands for UnicodeEncodeError. *)
Definition encode (s : str) : option (list byte) :=
  if existsb is_surrogate s then None
  else Some (concat (map encode_char s)).

(** The byte-order mark the "utf-8-sig" codec puts first. *)
Definition BOM : list byte := [xef; xbb; xbf].

End Utf8.

(** [u "..."] is the Python literal with that text. *)
Definition u (s : string) : str :=
  Utf8.decode 0 0%N (map N_of_ascii (list_ascii_of_string s)).

Definition str_eqb (a b : str) : bool :=
  if list_eq_dec N.eq_dec a b then true else false.

(** Code points used by name. *)
Definition LF : N := 10.
Definition CR : N := 13.
Definition QUOTE : N := 34.
Definition SEMICOLON : N := 59.

(** ** Exceptions *)

Inductive exn :=
| TypeError
| AttributeError
| KeyError
| ValueError
| OverflowError
| UnicodeEncodeError
| ConnectionError               (* requests: the transport failed *)
| HTTPError (status : Z)        (* raise_for_status on a 4xx or 5xx reply *)
| JSONDecodeError               (* the reply's body is not JSON *)
| RuntimeError (msg : str).

Inductive result (A : Type) :=
| Ok (a : A)
| Raise (e : exn).
Arguments Raise {A} e.

Definition bind {A B} (r : result A) (k : A -> result B) : result B :=
  match r with
  | Ok a => k a
  | Raise e => Raise e
  end.

Declare Scope py_scope.
Delimit Scope py_scope with py.
Notation "x <- r ;; k" := (bind r (fun x => k))
  (at level 61, r at next level, right associativity) : py_scope.
Notation "' pat <- r ;; k" := (bind r (fun x => let pat := x in k))
  (at level 61, pat pattern, r at next level, right associativity) : py_scope.

(** ** Binary64 floats *)

Module Float64.

Definition prec : Z := 53.
Definition emax : Z := 1024.

(** [float(n)] for an int: the nearest double, ties to even; a value past
    the largest double is OverflowError in Python, infinity here. *)
Definition of_Z (z : Z) : spec_float := binary_normalize prec emax z 0 false.

Definition div : spec_float -> spec_float -> spec_float := SFdiv prec emax.

Definition hundred : spec_float := Eval vm_compute in of_Z 100.

(** The integer nearest to [100 * m * 2^e], ties to even: the digits that
    correctly rounded conversion to two decimals keeps (dtoa mode 3). *)
Definition hundredths (m : positive) (e : Z) : Z :=
  match e with
  | Zneg p =>
      let d := 2 ^ Zpos p in
      let q := (100 * Zpos m) / d in
      let r := (100 * Zpos m) mod d in
      match 2 * r ?= d with
      | Lt => q
      | Eq => if Z.even q then q else q + 1
      | Gt => q + 1
      end
  | _ => 100 * Zpos m * 2 ^ e
  end.

(** The double nearest to [n / 100], with sign [s] (strtod of the digits). *)
Definition of_hundredths (s : bool) (n : Z) : spec_float :=
  match n with
  | Zpos p => SFdiv prec emax (S754_finite s p 0) (S754_finite false 100 0)
  | _ => S754_zero s
  end.

(** [int(x)]: truncation toward zero. *)
Definition trunc (m : positive) (e : Z) : Z :=
  match e with
  | Zneg p => Zpos m / 2 ^ Zpos p
  | _ => Zpos m * 2 ^ e
  end.

Definition is_zero (x : spec_float) : bool :=
  match x with S754_zero _ => true | _ => false end.

Definition is_finite (x : spec_float) : bool :=
  match x with S754_zero _ | S754_finite _ _ _ => true | _ => false end.

End Float64.

(** [round(x, 2)] on a float: NaN and the infinities round to themselves;
    otherwise the value is rounded correctly to two decimals and read back
    as a double ("rounded value too large to represent" is OverflowError). *)
Definition round2 (x : spec_float) : result spec_float :=
  match x with
  | S754_finite s m e =>
      match Float64.of_hundredths s (Float64.hundredths m e) with
      | S754_infinity _ => Raise OverflowError
      | r => Ok r
      end
  | _ => Ok x
  end.

(** ** Decimal text *)

Fixpoint digits_of_uint (d : Decimal.uint) : str :=
  match d with
  | Decimal.Nil => []
  | Decimal.D0 d => 48%N :: digits_of_uint d
  | Decimal.D1 d => 49%N :: digits_of_uint d
  | Decimal.D2 d => 50%N :: digits_of_uint d
  | Decimal.D3 d => 51%N :: digits_of_uint d
  | Decimal.D4 d => 52%N :: digits_of_uint d
  | Decimal.D5 d => 53%N :: digits_of_uint d
  | Decimal.D6 d => 54%N :: digits_of_uint d
  | Decimal.D7 d => 55%N :: digits_of_uint d
  | Decimal.D8 d => 56%N :: digits_of_uint d
  | Decimal.D9 d => 57%N :: digits_of_uint d
  end.

Definition is_digit (c : N) : bool := ((48 <=? c) && (c <=? 57))%N.

(** [str(n)] for a non-negative int. *)
Definition dec_of_N (n : N) : str := digits_of_uint (N.to_uint n).

(** [str(z)] for an int. *)
Definition dec_of_Z (z : Z) : str :=
  match z with
  | Zneg p => 45%N :: dec_of_N (Npos p)
  | _ => dec_of_N (Z.to_N z)
  end.

Definition two_digits (n : N) : str :=
  [(48 + (n / 10) mod 10)%N; (48 + n mod 10)%N].

Definition sign_text (s : bool) : str := if s then [45%N] else [].

(** [f"{x:.2f}"]. *)
Definition format_2f (x : spec_float) : str :=
  match x with
  | S754_nan => u "nan"
  | S754_infinity s => sign_text s ++ u "inf"
  | S754_zero s => sign_text s ++ u "0.00"
  | S754_finite s m e =>
      let n := Z.to_N (Float64.hundredths m e) in
      sign_text s ++ dec_of_N (n / 100) ++ [46%N] ++ two_digits (n mod 100)
  end.

(** ** Decoded JSON *)

Unset Elimination Schemes.
Inductive value :=
| VNone
| VBool (b : bool)
| VInt (z : Z)
| VFloat (x : spec_float)
| VStr (s : str)
| VList (l : list value)
| VDict (d : list (str * value)).
Set Elimination Schemes.

(** A [dict] with [str] keys: its items in insertion order, keys distinct. *)
Definition dict := list (str * value).

Section ValueInduction.
Variable P : value -> Prop.
Hypothesis HNone : P VNone.
Hypothesis HBool : forall b, P (VBool b).
Hypothesis HInt : forall z, P (VInt z).
Hypothesis HFloat : forall x, P (VFloat x).
Hypothesis HStr : forall s, P (VStr s).
Hypothesis HList : forall l, Forall P l -> P (VList l).
Hypothesis HDict : forall d, Forall (fun kv => P (snd kv)) d -> P (VDict d).

End ValueInduction.

(** [d.get(k)] when the key is there. *)
Fixpoint dict_find (d : dict) (k : str) : option value :=
  match d with
  | [] => None
  | (k', v) :: d' => if str_eqb k' k then Some v else dict_find d' k
  end.

(** [d.get(k, default)]. *)
Definition dict_get_default (d : dict) (k : str) (default : value) : value :=
  match dict_find d k with
  | Some v => v
  | None => default
  end.

(** [d.get(k)]. *)
Definition dict_get (d : dict) (k : str) : value := dict_get_default d k VNone.

(** [d[k]]. *)
Definition dict_getitem (d : dict) (k : str) : result value :=
  match dict_find d k with
  | Some v => Ok v
  | None => Raise KeyError
  end.

(** [v.get(k)] on whatever [v] is: only a dict has the method. *)
Definition attr_get (v : value) (k : str) : result value :=
  match v with
  | VDict d => Ok (dict_get d k)
  | _ => Raise AttributeError
  end.

(** [bool(v)]. *)
Definition truthy (v : value) : bool :=
  match v with
  | VNone => false
  | VBool b => b
  | VInt z => negb (z =? 0)
  | VFloat x => negb (Float64.is_zero x)
  | VStr s => match s with [] => false | _ => true end
  | VList l => match l with [] => false | _ => true end
  | VDict d => match d with [] => false | _ => true end
  end.

(** [a or b]. *)
Definition py_or (a b : value) : value := if truthy a then a else b.

(** [isinstance(v, int)]: [bool] is a subclass of [int]. *)
Definition isinstance_int (v : value) : bool :=
  match v with
  | VInt _ | VBool _ => true
  | _ => false
  end.

(** The integer an [int] instance stands for ([True] is 1, [False] is 0). *)
Definition int_value (v : value) : option Z :=
  match v with
  | VInt z => Some z
  | VBool b => Some (if b then 1 else 0)
  | _ => None
  end.

(** [v == s] for a [str] s. *)
Definition eq_str (v : value) (s : str) : bool :=
  match v with
  | VStr t => str_eqb t s
  | _ => false
  end.

(** What the interpreter and its libraries decide and the repository does
    not: the Unicode tables beyond Basic Latin, Latin-1 and the Cyrillic
    block U+0400..U+045F, the text of floats and containers, the parsing of
    int literals, and what [time.sleep] makes of a duration. *)
Record runtime := {
  lower_ext : str -> str;           (* str.lower() on other text *)
  ignorecase_ext : N -> N -> bool;  (* re.I: literal against another code point *)
  repr_ext : value -> str;          (* str() of a float, list or dict *)
  int_of_str : str -> result Z;     (* int() of a str *)
  time_sleep : spec_float -> option exn  (* the exception sleep raises, if any *)
}.

(** ** [str] methods *)

Local Open Scope N_scope.

Definition in_range (lo hi c : N) : bool := (lo <=? c) && (c <=? hi).

(** [c.isspace()], which is also what [\s] matches in a [str] pattern. *)
Definition is_space (c : N) : bool :=
  in_range 9 13 c || in_range 28 32 c || (c =? 133) || (c =? 160)
  || (c =? 5760) || in_range 8192 8202 c || (c =? 8232) || (c =? 8233)
  || (c =? 8239) || (c =? 8287) || (c =? 12288).

Fixpoint lstrip_with (p : N -> bool) (s : str) : str :=
  match s with
  | [] => []
  | c :: r => if p c then lstrip_with p r else s
  end.

Definition rstrip_with (p : N -> bool) (s : str) : str :=
  rev (lstrip_with p (rev s)).

Definition strip_with (p : N -> bool) (s : str) : str :=
  rstrip_with p (lstrip_with p s).

(** [s.strip()]. *)
Definition py_strip : str -> str := strip_with is_space.

Definition mem_char (chars : str) (c : N) : bool := existsb (N.eqb c) chars.

(** [s.strip(chars)]. *)
Definition strip_chars (chars : str) : str -> str := strip_with (mem_char chars).

(** [s.replace(ch, empty)] for a single character [ch]. *)
Definition remove_char (ch : N) (s : str) : str :=
  filter (fun c => negb (c =? ch)) s.

Fixpoint starts_with (p s : str) : bool :=
  match p, s with
  | [], _ => true
  | _ :: _, [] => false
  | a :: p', b :: s' => (a =? b) && starts_with p' s'
  end.

(** [k in s]. *)
Fixpoint contains (k s : str) : bool :=
  starts_with k s || match s with [] => false | _ :: r => contains k r end.

(** Code points whose case mapping is fixed below. *)
Definition cased_range (c : N) : bool := (c <=? 255) || in_range 1024 1119 c.

(** Lowercase of one code point of [cased_range]: A-Z, the Latin-1 capitals
    (U+00D7 is the multiplication sign), U+0400..U+040F and U+0410..U+042F. *)
Definition lower_cp (c : N) : N :=
  if in_range 65 90 c then c + 32
  else if in_range 192 222 c && negb (c =? 215) then c + 32
  else if in_range 1024 1039 c then c + 80
  else if in_range 1040 1071 c then c + 32
  else c.

Local Close Scope N_scope.

Section Runtime.

Variable rt : runtime.

(** [s.lower()]. *)
Definition py_lower (s : str) : str :=
  if forallb cased_range s then map lower_cp s else lower_ext rt s.

(** re.IGNORECASE: does the lowercase pattern literal [lit] match [c]? *)
Definition ci_char (lit c : N) : bool :=
  if cased_range c then (lower_cp c =? lit)%N else ignorecase_ext rt lit c.

(** ** Regular expressions

    A pattern is a backtracking matcher in continuation-passing style: it
    consumes a prefix of the subject and hands the rest to its continuation,
    trying its alternatives in the order the [re] engine does. *)

Definition matcher := (str -> option str) -> str -> option str.

(** A literal, matched under re.IGNORECASE. *)
Fixpoint lit_ci (lit : str) : matcher :=
  fun k s =>
    match lit with
    | [] => k s
    | l :: lit' =>
        match s with
        | c :: s' => if ci_char l c then lit_ci lit' k s' else None
        | [] => None
        end
    end.

(** What is left after one, two, ... leading whitespace characters. *)
Fixpoint after_spaces (s : str) : list str :=
  match s with
  | c :: r => if is_space c then r :: after_spaces r else []
  | [] => []
  end.

Fixpoint first_success (k : str -> option str) (l : list str) : option str :=
  match l with
  | [] => None
  | s :: l' =>
      match k s with
      | Some r => Some r
      | None => first_success k l'
      end
  end.

(** [\s+], greedy: the longest run first. *)
Definition spaces1 : matcher :=
  fun k s => first_success k (rev (after_spaces s)).

Definition re_seq (p q : matcher) : matcher := fun k => p (q k).

Fixpoint alt (ps : list matcher) : matcher :=
  fun k s =>
    match ps with
    | [] => None
    | p :: ps' =>
        match p k s with
        | Some r => Some r
        | None => alt ps' k s
        end
    end.

(** [^(кофе|кофейный\s+напиток|кофейные\s+напитки)\s+] with re.I. *)
Definition coffee_prefix : matcher :=
  re_seq (alt [ lit_ci (u "кофе");
             re_seq (lit_ci (u "кофейный")) (re_seq spaces1 (lit_ci (u "напиток")));
             re_seq (lit_ci (u "кофейные")) (re_seq spaces1 (lit_ci (u "напитки"))) ])
      spaces1.

(** [re.sub] of the pattern by the empty string: the pattern is anchored, so
    at most the one match at the start is removed. *)
Definition sub_coffee_prefix (s : str) : str :=
  match coffee_prefix Some s with
  | Some rest => rest
  | None => s
  end.

Definition is_sep (c : N) : bool := is_space c || (c =? 44)%N.

(** [re.split(r"[\s,]+", s)]: the pieces between the runs of separators,
    empty pieces at either end included. *)
Fixpoint split_seps (in_sep : bool) (cur : str) (s : str) : list str :=
  match s with
  | [] => [rev cur]
  | c :: r =>
      if is_sep c then
        if in_sep then split_seps true [] r
        else rev cur :: split_seps true [] r
      else split_seps false (c :: cur) r
  end.

Definition re_split_seps (s : str) : list str := split_seps false [] s.

(** [$]: the end of the subject, or just before a final line feed. *)
Definition at_dollar (s : str) : bool :=
  match s with
  | [] => true
  | [c] => (c =? LF)%N
  | _ => false
  end.

(** [C*$] for a character class C. *)
Fixpoint star_dollar (cls : N -> bool) (s : str) : bool :=
  at_dollar s
  || match s with
     | c :: r => cls c && star_dollar cls r
     | [] => false
     end.

Definition is_AZ (c : N) : bool := in_range 65 90 c.
Definition is_az (c : N) : bool := in_range 97 122 c.
Definition is_dash (c : N) : bool := (c =? 45)%N.

(** [^[A-Z][A-Za-z0-9\-]+$] *)
Definition re_latin_word (s : str) : bool :=
  match s with
  | c1 :: c2 :: r =>
      let cls c := is_AZ c || is_az c || is_digit c || is_dash c in
      is_AZ c1 && cls c2 && star_dollar cls r
  | _ => false
  end.

(** [А-ЯЁ] *)
Definition is_cyr_upper (c : N) : bool := in_range 1040 1071 c || (c =? 1025)%N.

(** [А-Яа-яЁё0-9\-] *)
Definition is_cyr_word (c : N) : bool :=
  in_range 1040 1071 c || in_range 1072 1103 c || (c =? 1025)%N
  || (c =? 1105)%N || is_digit c || is_dash c.

(** [^[А-ЯЁ][А-Яа-яЁё0-9\-]+$] *)
Definition re_cyrillic_word (s : str) : bool :=
  match s with
  | c1 :: c2 :: r =>
      is_cyr_upper c1 && is_cyr_word c2 && star_dollar is_cyr_word r
  | _ => false
  end.

(** [^[A-Z0-9\-]{2,}$] *)
Definition re_upper_token (s : str) : bool :=
  match s with
  | c1 :: c2 :: r =>
      let cls c := is_AZ c || is_digit c || is_dash c in
      cls c1 && cls c2 && star_dollar cls r
  | _ => false
  end.

(** ** extract_brand_from_name *)

Definition skip : list str :=
  [ u "растворимый"; u "молотый"; u "зерновой"; u "натуральный"; u "жареный";
    u "сублимированный"; u "в"; u "капсулах"; u "дрип"; u "дрип-пакетах";
    u "смесь"; u "для"; u "кофемашин"; u "эспрессо"; u "арабика"; u "робуста";
    u "вес"; u "г"; u "кг"; u "мл" ].

Definition in_skip (tk : str) : bool := existsb (str_eqb (py_lower tk)) skip.

Definition is_empty {A} (l : list A) : bool :=
  match l with [] => true | _ => false end.

(** The token stripped of whitespace, then of brackets, braces, parentheses
    and both ASCII quote marks at its ends, then of every « and ». *)
Definition clean_token (t : str) : str :=
  remove_char 187 (remove_char 171
    (strip_chars (u "()[]{}" ++ [QUOTE; 39%N]) (py_strip t))).

(** The first loop: the first token that looks like a brand. *)
Fixpoint first_brand_like (tokens : list str) : option str :=
  match tokens with
  | [] => None
  | t :: rest =>
      let tk := clean_token t in
      if is_empty tk || in_skip tk then first_brand_like rest
      else if re_latin_word tk || re_cyrillic_word tk then Some tk
      else if re_upper_token tk then Some tk
      else first_brand_like rest
  end.

(** The second loop: the first token that is not stoplisted. *)
Fixpoint first_kept (tokens : list str) : option str :=
  match tokens with
  | [] => None
  | t :: rest =>
      let tk := clean_token t in
      if negb (is_empty tk) && negb (in_skip tk) then Some tk
      else first_kept rest
  end.

Definition extract_brand_from_name (name : str) : str :=
  let s := py_strip name in
  let s := sub_coffee_prefix s in
  let tokens := re_split_seps s in
  if is_empty tokens then []
  else
    match first_brand_like tokens with
    | Some tk => tk
    | None =>
        match first_kept tokens with
        | Some tk => tk
        | None => []
        end
    end.

(** ** Money *)

(** The float an operand of [/ 100.0] is converted to. *)
Definition to_float (v : value) : result spec_float :=
  match v with
  | VInt z =>
      match Float64.of_Z z with
      | S754_infinity _ => Raise OverflowError
      | x => Ok x
      end
  | VBool b => Ok (Float64.of_Z (if b then 1 else 0))
  | VFloat x => Ok x
  | _ => Raise TypeError
  end.

Definition money_from_int (value : value) : result (option spec_float) :=
  match value with
  | VNone => Ok None
  | _ =>
      (x <- to_float value ;;
       r <- round2 (Float64.div x Float64.hundred) ;;
       Ok (Some r))%py
  end.

(** ** Rows *)

Record ProductRow := {
  product_id : str;
  name : str;
  regular_price : option spec_float;
  promo_price : option spec_float;
  brand : str;
  city : str
}.

(** [str(v)]. *)
Definition py_str (v : value) : str :=
  match v with
  | VStr s => s
  | VInt z => dec_of_Z z
  | VBool true => u "True"
  | VBool false => u "False"
  | VNone => u "None"
  | _ => repr_ext rt v
  end.

(** [v.strip()] on whatever [v] is. *)
Definition attr_strip (v : value) : result str :=
  match v with
  | VStr s => Ok (py_strip s)
  | _ => Raise AttributeError
  end.

Definition to_row (it : dict) (city_name : str) : result ProductRow :=
  (let promo := py_or (dict_get it (u "promotion")) (VDict []) in
   flag <- attr_get promo (u "isPromotion") ;;
   let is_promo := truthy flag in
   let price := dict_get it (u "price") in
   old_price <- attr_get promo (u "oldPrice") ;;
   promo_price <- (if is_promo then money_from_int price else Ok None) ;;
   regular_price <- (if is_promo && isinstance_int old_price
                     then money_from_int old_price
                     else money_from_int price) ;;
   name <- attr_strip (py_or (dict_get it (u "name")) (VStr [])) ;;
   let product_id :=
     py_strip (py_str (py_or (py_or (dict_get it (u "productId"))
                                    (dict_get it (u "id"))) (VStr []))) in
   let brand := extract_brand_from_name name in
   Ok {| product_id := product_id; name := name;
         regular_price := regular_price; promo_price := promo_price;
         brand := brand; city := city_name |})%py.

(** ** The csv writer

    [csv.writer(f, delimiter=";")]: the excel dialect otherwise, so a field
    holding the delimiter, the quote character or a character of the line
    terminator is enclosed in quotes with its quotes doubled, and a record
    ends in CR LF. *)

Definition is_special (c : N) : bool :=
  ((c =? SEMICOLON) || (c =? QUOTE) || (c =? CR) || (c =? LF))%N.

Definition needs_quotes (f : str) : bool := existsb is_special f.

Definition double_quotes (f : str) : str :=
  flat_map (fun c => if (c =? QUOTE)%N then [QUOTE; QUOTE] else [c]) f.

Definition csv_field (f : str) : str :=
  if needs_quotes f then QUOTE :: double_quotes f ++ [QUOTE] else f.

Fixpoint join (sep : N) (fields : list str) : str :=
  match fields with
  | [] => []
  | [f] => f
  | f :: rest => f ++ sep :: join sep rest
  end.

(** [w.writerow(fields)]: the text handed to [f.write].  A record that is one
    empty field is written as a pair of quotes. *)
Definition csv_record (fields : list str) : str :=
  match fields with
  | [ [] ] => [QUOTE; QUOTE; CR; LF]
  | _ => join SEMICOLON (map csv_field fields) ++ [CR; LF]
  end.

Definition header : list str :=
  [u "id"; u "name"; u "regular_price"; u "promo_price"; u "brand"; u "city"].

Definition price_text (p : option spec_float) : str :=
  match p with
  | None => []
  | Some x => format_2f x
  end.

Definition row_fields (r : ProductRow) : list str :=
  [ product_id r; name r; price_text (regular_price r);
    price_text (promo_price r); brand r; city r ].

(** ** The world outside the script *)

Inductive http_method := GET | POST.

Record request := {
  rq_method : http_method;
  rq_url : str;
  rq_headers : list (str * str);
  rq_params : list (str * str);     (* the query string of a GET *)
  rq_json : option value            (* the JSON body of a POST *)
}.

(** What comes back for a request: nothing (the transport failed or timed
    out), or a status with a body that may or may not be JSON. *)
Inductive response :=
| NoReply
| Reply (status : Z) (body : option value).

Record world := {
  net : list response;             (* the replies still to come, in order;
                                      once they run out the host is down *)
  sent : list request;             (* the requests made so far, oldest first *)
  slept : list spec_float;         (* the pauses taken so far, oldest first *)
  files : list (str * list byte);  (* the files written, latest first *)
  stdout : list str;               (* lines printed, oldest first *)
  stderr : list str
}.

Definition set_net (n : list response) (w : world) : world :=
  {| net := n; sent := sent w; slept := slept w; files := files w;
     stdout := stdout w; stderr := stderr w |}.

Definition add_sent (rq : request) (w : world) : world :=
  {| net := net w; sent := sent w ++ [rq]; slept := slept w; files := files w;
     stdout := stdout w; stderr := stderr w |}.

Definition add_slept (x : spec_float) (w : world) : world :=
  {| net := net w; sent := sent w; slept := slept w ++ [x]; files := files w;
     stdout := stdout w; stderr := stderr w |}.

Definition add_file (path : str) (content : list byte) (w : world) : world :=
  {| net := net w; sent := sent w; slept := slept w;
     files := (path, content) :: files w;
     stdout := stdout w; stderr := stderr w |}.

Definition add_stdout (line : str) (w : world) : world :=
  {| net := net w; sent := sent w; slept := slept w; files := files w;
     stdout := stdout w ++ [line]; stderr := stderr w |}.

Definition add_stderr (line : str) (w : world) : world :=
  {| net := net w; sent := sent w; slept := slept w; files := files w;
     stdout := stdout w; stderr := stderr w ++ [line] |}.

(** A computation that may raise and that acts on the world. *)
Definition M (A : Type) := world -> result A * world.

Definition ret {A} (a : A) : M A := fun w => (Ok a, w).

Definition lift {A} (r : result A) : M A := fun w => (r, w).

Definition mbind {A B} (m : M A) (k : A -> M B) : M B :=
  fun w =>
    match m w with
    | (Ok a, w') => k a w'
    | (Raise e, w') => (Raise e, w')
    end.

Declare Scope io_scope.
Delimit Scope io_scope with io.
Notation "x <- m ;; k" := (mbind m (fun x => k))
  (at level 61, m at next level, right associativity) : io_scope.
Notation "' pat <- m ;; k" := (mbind m (fun x => let pat := x in k))
  (at level 61, pat pattern, m at next level, right associativity) : io_scope.

(** A [requests.Session]: the headers it attaches to every request. *)
Definition session := list (str * str).

(** [session.request(...)]: the request goes out and the next reply of the
    script, if any, comes back. *)
Definition exchange (rq : request) : M (Z * option value) :=
  fun w =>
    let w' := add_sent rq w in
    match net w with
    | [] => (Raise ConnectionError, w')
    | NoReply :: rest => (Raise ConnectionError, set_net rest w')
    | Reply status body :: rest => (Ok (status, body), set_net rest w')
    end.

Definition session_post (s : session) (url : str) (json : value)
  : M (Z * option value) :=
  exchange {| rq_method := POST; rq_url := url; rq_headers := s;
              rq_params := []; rq_json := Some json |}.

Definition session_get (s : session) (url : str) (params : list (str * str))
  : M (Z * option value) :=
  exchange {| rq_method := GET; rq_url := url; rq_headers := s;
              rq_params := params; rq_json := None |}.

(** [r.raise_for_status()] *)
Definition raise_for_status (r : Z * option value) : result unit :=
  if (400 <=? fst r) && (fst r <? 600) then Raise (HTTPError (fst r))
  else Ok tt.

(** [r.json()] *)
Definition json (r : Z * option value) : result value :=
  match snd r with
  | Some v => Ok v
  | None => Raise JSONDecodeError
  end.

(** [v.get(k, default)] on whatever [v] is. *)
Definition attr_get_default (v : value) (k : str) (default : value)
  : result value :=
  match v with
  | VDict d => Ok (dict_get_default d k default)
  | _ => Raise AttributeError
  end.

(** ** Constants *)

Definition BASE_URL : str := u "https://middle-api.magnit.ru".
Definition STORE_TYPE : str := u "market".
Definition CATALOG_TYPE : str := u "4".
Definition STORE_CODE : str := u "000".
Definition DEFAULT_LIMIT : Z := 20.

Definition FIAS_SPB : str := u "c2deb16a-0330-4f05-821f-1d09c93331e6".
Definition FIAS_MOSCOW : str := u "0c5b2444-70a0-4932-980c-b4dc0d3f02b5".

(** The table in the order it is written, which is the order [items()]
    walks it in. *)
Definition KNOWN_CITIES : list (str * str) :=
  [ (u "москва", FIAS_MOSCOW);
    (u "moscow", FIAS_MOSCOW);
    (u "msk", FIAS_MOSCOW);
    (u "санкт-петербург", FIAS_SPB);
    (u "санкт петербург", FIAS_SPB);
    (u "спб", FIAS_SPB);
    (u "питер", FIAS_SPB);
    (u "saint petersburg", FIAS_SPB);
    (u "st petersburg", FIAS_SPB);
    (u "spb", FIAS_SPB) ].

(** ** make_session *)

Definition make_session (token device_id app_version user_agent : str)
  : session :=
  [ (u "authorization", u "bearer " ++ token);
    (u "x-device-id", device_id);
    (u "x-app-version", app_version);
    (u "user-agent", user_agent);
    (u "content-type", u "application/json; charset=UTF-8");
    (u "accept", u "application/json") ].

(** ** resolve_city *)

(** [KNOWN_CITIES.get(key)] *)
Fixpoint cities_get (table : list (str * str)) (key : str) : option str :=
  match table with
  | [] => None
  | (k, v) :: rest => if str_eqb k key then Some v else cities_get rest key
  end.

(** The loop over [KNOWN_CITIES.items()]: the value of the first key that
    occurs in [key]. *)
Fixpoint cities_scan (table : list (str * str)) (key : str) : option str :=
  match table with
  | [] => None
  | (k, v) :: rest => if contains k key then Some v else cities_scan rest key
  end.

(** The local [fias] when the checks of lines 112-123 are done ([None] as
    in the source). *)
Definition resolve_city_fias (city fias_id : option str) : option str :=
  match fias_id with
  | Some (c :: f) => Some (py_strip (c :: f))
  | _ =>
      match city with
      | Some (c :: rest) =>
          let key := py_lower (py_strip (c :: rest)) in
          match cities_get KNOWN_CITIES key with
          | Some v => Some v
          | None => cities_scan KNOWN_CITIES key
          end
      | _ => None
      end
  end.

Definition no_fias_message : str :=
  u "Не могу определить fiasId." ++ [LF]
  ++ u "Варианты:" ++ [LF]
  ++ u "  1) Для Москвы/СПб используйте --city 'Москва' или --city 'Санкт-Петербург'"
  ++ [LF]
  ++ u "  2) Для любого другого города передайте --fias-id <UUID> (как делает приложение в HAR)"
  ++ [LF].

Definition no_city_id_message (fias : str) : str :=
  u "city/info не вернул cityId для fiasId=" ++ fias.

Definition city_or_empty (city : option str) : str :=
  match city with
  | Some c => c
  | None => []
  end.

Definition resolve_city (s : session) (city fias_id : option str)
  : M (str * str * str) :=
  match resolve_city_fias city fias_id with
  | None | Some [] => lift (Raise (RuntimeError no_fias_message))
  | Some fias =>
      (let url := BASE_URL ++ u "/market/v2/city/info" in
       r <- session_post s url (VDict [(u "fiasId", VStr fias)]) ;;
       _ <- lift (raise_for_status r) ;;
       data <- lift (json r) ;;
       id <- lift (attr_get_default data (u "cityId") (VStr [])) ;;
       let city_id := py_strip (py_str id) in
       nm <- lift (attr_get_default data (u "name") (VStr [])) ;;
       let city_name :=
         match py_strip (py_str nm) with
         | [] => city_or_empty city
         | n => n
         end in
       if is_empty city_id
       then lift (Raise (RuntimeError (no_city_id_message fias)))
       else ret (city_id, city_name, fias))%io
  end.

(** ** get_coffee_category_id *)

(** [int(v)]. *)
Definition py_int (v : value) : result Z :=
  match v with
  | VInt z => Ok z
  | VBool b => Ok (if b then 1 else 0)
  | VFloat (S754_zero _) => Ok 0
  | VFloat (S754_finite s m e) =>
      Ok (if s then - Float64.trunc m e else Float64.trunc m e)
  | VFloat S754_nan => Raise ValueError
  | VFloat (S754_infinity _) => Raise OverflowError
  | VStr s => int_of_str rt s
  | _ => Raise TypeError
  end.

(** [for n in l: found = walk(n); if found is not None: return found] *)
Fixpoint first_found (walk : value -> result (option Z)) (l : list value)
  : result (option Z) :=
  match l with
  | [] => Ok None
  | n :: rest =>
      match walk n with
      | Ok None => first_found walk rest
      | r => r
      end
  end.

(** The loop over [children or []].  A list is walked; the characters of a
    str and the keys of a dict are strs, on which [walk] finds nothing; any
    other true value cannot be iterated. *)
Definition over_children (walk : value -> result (option Z)) (children : value)
  : result (option Z) :=
  match children with
  | VList l => first_found walk l
  | VStr _ | VDict _ => Ok None
  | other => if truthy other then Raise TypeError else Ok None
  end.

(** [f] applied to [d.get(k)], or [default] when the key is not there. *)
Fixpoint lookup_with {A} (f : value -> A) (default : A) (k : str) (d : dict)
  : A :=
  match d with
  | [] => default
  | (k', v) :: d' => if str_eqb k' k then f v else lookup_with f default k d'
  end.

Definition node_id (d : dict) : result (option Z) :=
  (id <- dict_getitem d (u "id") ;;
   z <- py_int id ;;
   Ok (Some z))%py.

Definition is_coffee (d : dict) : bool := eq_str (dict_get d (u "name")) (u "Кофе").

Fixpoint walk (nodes : value) : result (option Z) :=
  match nodes with
  | VDict d =>
      if is_coffee d then node_id d
      else lookup_with (over_children walk) (Ok None) (u "children") d
  | VList l => first_found walk l
  | _ => Ok None
  end.

Definition not_found_message : str :=
  u "Не нашёл категорию 'Кофе' в дереве категорий.".

Definition get_coffee_category_id (s : session) : M Z :=
  (let url := BASE_URL ++ u "/v3/categories/store/" ++ STORE_CODE in
   let params := [(u "storetype", STORE_TYPE); (u "catalogtype", CATALOG_TYPE)] in
   r <- session_get s url params ;;
   _ <- lift (raise_for_status r) ;;
   data <- lift (json r) ;;
   items <- lift (attr_get_default data (u "items") (VList [])) ;;
   cid <- lift (walk items) ;;
   match cid with
   | None => lift (Raise (RuntimeError not_found_message))
   | Some c => ret c
   end)%io.

(** ** goods_search_page *)

Definition goods_search_payload (category_id : Z) (city_id : str)
  (offset limit : Z) (token : value) : value :=
  VDict
    [ (u "catalogType", VStr CATALOG_TYPE);
      (u "pagination",
        VDict [(u "limit", VInt limit); (u "offset", VInt offset)]);
      (u "sort",
        VDict [(u "order", VStr (u "desc")); (u "type", VStr (u "popularity"))]);
      (u "storeCode", VStr STORE_CODE);
      (u "storeType", VStr STORE_TYPE);
      (u "categories", VList [VInt category_id]);
      (u "cityId", VStr city_id);
      (u "filters", VList []);
      (u "token", py_or token (VStr [])) ].

Definition goods_search_page (s : session) (category_id : Z) (city_id : str)
  (offset limit : Z) (token : value) : M (value * value) :=
  (let url := BASE_URL ++ u "/v2/goods/search" in
   let payload := goods_search_payload category_id city_id offset limit token in
   r <- session_post s url payload ;;
   _ <- lift (raise_for_status r) ;;
   data <- lift (json r) ;;
   items <- lift (attr_get_default data (u "items") (VList [])) ;;
   tok <- lift (attr_get_default data (u "token") (VStr [])) ;;
   ret (py_or items (VList []), py_or tok (VStr [])))%io.

(** ** iter_coffee_products_in_stock *)

(** A generator as its consumer sees it: suspended at a [yield] with the
    world as it then is, returned, or stopped by an exception.  What follows
    a [yield] is what the generator does when it is resumed in that world;
    the one consumer, the loop of [main], leaves the world alone. *)
Inductive gen :=
| Yield (it : dict) (w : world) (rest : gen)
| Return (w : world)
| Raised (e : exn) (w : world).

(** [isinstance(qty, int) and qty > 0] for [qty = it.get("quantity")]. *)
Definition in_stock (it : dict) : bool :=
  let qty := dict_get it (u "quantity") in
  isinstance_int qty
  && match int_value qty with
     | Some z => 0 <? z
     | None => false
     end.

(** [for it in items: ...] on one page, then [next]. *)
Fixpoint scan_page (items : list value) (w : world) (next : gen) : gen :=
  match items with
  | [] => next
  | VDict it :: rest =>
      if in_stock it then Yield it w (scan_page rest w next)
      else scan_page rest w next
  | _ :: _ => Raised AttributeError w
  end.

(** What [for it in v] iterates over. *)
Definition py_iter (v : value) : result (list value) :=
  match v with
  | VList l => Ok l
  | VStr s => Ok (map (fun c => VStr [c]) s)
  | VDict d => Ok (map (fun kv => VStr (fst kv)) d)
  | _ => Raise TypeError
  end.

(** The [while True] loop.  Every turn but the last takes a reply off the
    script, so [fuel] turns are enough when [fuel] exceeds the number of
    replies to come; the generator below starts it with that many. *)
Fixpoint iter_loop (fuel : nat) (s : session) (category_id : Z) (city_id : str)
  (limit : Z) (sleep_sec : spec_float) (offset : Z) (search_token : value)
  (w : world) : gen :=
  match fuel with
  | O => Raised ConnectionError w
  | S fuel' =>
      match goods_search_page s category_id city_id offset limit search_token w with
      | (Raise e, w1) => Raised e w1
      | (Ok (items, search_token'), w1) =>
          if negb (truthy items) then Return w1
          else
            match py_iter items with
            | Raise e => Raised e w1
            | Ok l =>
                scan_page l w1
                  (let offset' := offset + limit in
                   if truthy (VFloat sleep_sec) then
                     match time_sleep rt sleep_sec with
                     | Some e => Raised e w1
                     | None =>
                         iter_loop fuel' s category_id city_id limit sleep_sec
                           offset' search_token' (add_slept sleep_sec w1)
                     end
                   else
                     iter_loop fuel' s category_id city_id limit sleep_sec
                       offset' search_token' w1)
            end
      end
  end.

Definition iter_coffee_products_in_stock (s : session) (category_id : Z)
  (city_id : str) (limit : Z) (sleep_sec : spec_float) (w : world) : gen :=
  iter_loop (S (length (net w))) s category_id city_id limit sleep_sec
    0 (VStr []) w.

(** The default pause, 0.2. *)
Definition DEFAULT_SLEEP : spec_float :=
  Eval vm_compute in Float64.div (Float64.of_Z 2) (Float64.of_Z 10).

(** ** write_csv *)

(** The rows after the header: each record is encoded and buffered by one
    [f.write]; a record that cannot be encoded raises and leaves what was
    written before it. *)
Fixpoint write_rows (rows : list ProductRow) (written : list byte)
  : result unit * list byte :=
  match rows with
  | [] => (Ok tt, written)
  | r :: rest =>
      match Utf8.encode (csv_record (row_fields r)) with
      | None => (Raise UnicodeEncodeError, written)
      | Some bytes => write_rows rest (written ++ bytes)
      end
  end.

Definition write_csv (rows : list ProductRow) (out_path : str) : M unit :=
  fun w =>
    match Utf8.encode (csv_record header) with
    | None => (Raise UnicodeEncodeError, add_file out_path [] w)
    | Some bytes =>
        let (r, content) := write_rows rows (Utf8.BOM ++ bytes) in
        (r, add_file out_path content w)
    end.

(** ** main *)

(** The namespace [parse_args] returns. *)
Record args := {
  arg_token : option str;
  arg_device_id : option str;
  arg_app_version : str;
  arg_user_agent : str;
  arg_city : option str;
  arg_fias_id : option str;
  arg_out : str;
  arg_limit : Z
}.

Definition missing (a : option str) : bool :=
  match a with
  | Some (_ :: _) => false
  | _ => true
  end.

Definition credentials_message : str :=
  u "Нужно передать --token и --device-id (или env MAGNIT_TOKEN / MAGNIT_DEVICE_ID)."
  ++ [LF]
  ++ u "Эти значения видны в HAR в заголовках запросов к middle-api.magnit.ru.".

Definition print (line : str) : M unit := fun w => (Ok tt, add_stdout line w).

Definition print_stderr (line : str) : M unit :=
  fun w => (Ok tt, add_stderr line w).

(** The loop of [main] over the generator: [rows.append(to_row(it, city_name))]. *)
Fixpoint collect (g : gen) (city_name : str) (rows : list ProductRow)
  : result (list ProductRow) * world :=
  match g with
  | Return w => (Ok rows, w)
  | Raised e w => (Raise e, w)
  | Yield it w rest =>
      match to_row it city_name with
      | Raise e => (Raise e, w)
      | Ok r => collect rest city_name (rows ++ [r])
      end
  end.

Definition summary (city_name city_id fias : str) (n : nat) (out : str) : str :=
  u "OK: город=" ++ city_name ++ u " (cityId=" ++ city_id ++ u ", fiasId="
  ++ fias ++ u ") | выгружено " ++ dec_of_N (N.of_nat n)
  ++ u " товаров (в наличии) -> " ++ out.

Definition main (a : args) : M Z :=
  if missing (arg_token a) || missing (arg_device_id a) then
    (_ <- print_stderr credentials_message ;; ret 2)%io
  else
    (let s := make_session (city_or_empty (arg_token a))
                (city_or_empty (arg_device_id a))
                (arg_app_version a) (arg_user_agent a) in
     '(city_id, city_name, fias) <- resolve_city s (arg_city a) (arg_fias_id a) ;;
     coffee_category_id <- get_coffee_category_id s ;;
     rows <- (fun w =>
                collect (iter_coffee_products_in_stock s coffee_category_id
                           city_id (arg_limit a) DEFAULT_SLEEP w)
                        city_name []) ;;
     _ <- write_csv rows (arg_out a) ;;
     _ <- print (summary city_name city_id fias (length rows) (arg_out a)) ;;
     ret 0)%io.

(** ** Vocabulary of the properties *)

(** The items a generator yields when it is run to its end. *)
Fixpoint yielded (g : gen) : list dict :=
  match g with
  | Yield it _ rest => it :: yielded rest
  | Return _ | Raised _ _ => []
  end.

(** How a generator that is run to its end stops, and in which world. *)
Fixpoint ending (g : gen) : result unit * world :=
  match g with
  | Yield _ _ rest => ending rest
  | Return w => (Ok tt, w)
  | Raised e w => (Raise e, w)
  end.

(** [for it in items: yield it] in world [w], then [next]. *)
Definition emit (items : list dict) (w : world) (next : gen) : gen :=
  fold_right (fun it g => Yield it w g) next items.

(** The offset a page request asks for. *)
Definition rq_offset (rq : request) : option value :=
  match rq_json rq with
  | Some (VDict body) =>
      match dict_find body (u "pagination") with
      | Some (VDict p) => dict_find p (u "offset")
      | _ => None
      end
  | _ => None
  end.

(** The continuation token a page request echoes. *)
Definition rq_token (rq : request) : option value :=
  match rq_json rq with
  | Some (VDict body) => dict_find body (u "token")
  | _ => None
  end.

(** A reply that [goods_search_page] takes for a page: a status that is not an
    error and a JSON object. *)
Definition page_reply (status : Z) (body : dict) : response :=
  Reply status (Some (VDict body)).

Definition ok_status (status : Z) : bool :=
  negb ((400 <=? status) && (status <? 600)).




(** The test of the first loop: one of its three patterns matches. *)
Definition brand_like (tk : str) : bool :=
  re_latin_word tk || re_cyrillic_word tk || re_upper_token tk.

(** The tokens of a name that the loops do not pass over. *)
Definition candidates (name : str) : list str :=
  filter (fun tk => negb (is_empty tk) && negb (in_skip tk))
    (map clean_token (re_split_seps (sub_coffee_prefix (py_strip name)))).

(** The text [write_csv] hands to the file: the header record, then one
    record per row. *)
Definition file_text (rows : list ProductRow) : str :=
  csv_record header ++ flat_map (fun r => csv_record (row_fields r)) rows.

(** Lines of a text: one per line feed. *)
Definition line_count (text : str) : nat := count_occ N.eq_dec text LF.

(** Line feeds inside the text columns of the rows. *)
Definition embedded_line_feeds (rows : list ProductRow) : nat :=
  list_sum
    (map (fun r => (line_count (product_id r) + line_count (name r)
                    + line_count (brand r) + line_count (city r))%nat) rows).

(** No lone surrogate in any text column. *)
Definition encodable (r : ProductRow) : bool :=
  negb (existsb Utf8.is_surrogate
          (product_id r ++ name r ++ brand r ++ city r)).

(** A price with exactly two fractional digits: an optional minus sign, at
    least one digit, a point, two digits. *)
Definition two_fraction_digits (text : str) : Prop :=
  exists sign whole d1 d2,
    text = sign_text sign ++ whole ++ [46%N; d1; d2]
    /\ whole <> [] /\ forallb is_digit whole = true
    /\ is_digit d1 = true /\ is_digit d2 = true.

(** What [round(x, 2)] returns: the double nearest to [n / 100] for an
    integer [n], or a NaN or an infinity it was given. *)
Definition rounded_to_cents (x : spec_float) : Prop :=
  (exists s n, x = Float64.of_hundredths s n) \/ Float64.is_finite x = false.

Definition price_ok (p : option spec_float) : Prop :=
  match p with
  | None => True
  | Some x => rounded_to_cents x
  end.

(** The request [goods_search_page] makes. *)
Definition goods_search_request (s : session) (category_id : Z) (city_id : str)
  (offset limit : Z) (token : value) : request :=
  {| rq_method := POST; rq_url := BASE_URL ++ u "/v2/goods/search";
     rq_headers := s; rq_params := [];
     rq_json := Some (goods_search_payload category_id city_id offset limit token) |}.

(** The items and the continuation token [goods_search_page] returns for a
    reply with the JSON object [body]. *)
Definition items_of (body : dict) : value :=
  py_or (dict_get_default body (u "items") (VList [])) (VList []).

Definition token_of (body : dict) : value :=
  py_or (dict_get_default body (u "token") (VStr [])) (VStr []).

Definition is_dict (v : value) : bool :=
  match v with VDict _ => true | _ => false end.

(** The dicts among the items of a page. *)
Definition page_dicts (body : dict) : list dict :=
  match items_of body with
  | VList l => flat_map (fun v => match v with VDict d => [d] | _ => [] end) l
  | _ => []
  end.

(** A page with items: a good status and a non-empty list of dicts. *)
Definition full_page (p : Z * dict) : bool :=
  ok_status (fst p)
  && match items_of (snd p) with
     | VList l => negb (is_empty l) && forallb is_dict l
     | _ => false
     end.

(** An empty page: a good status and no items. *)
Definition empty_page (p : Z * dict) : bool :=
  ok_status (fst p) && negb (truthy (items_of (snd p))).

Definition reply_of (p : Z * dict) : response := page_reply (fst p) (snd p).

(** The pause [iter_coffee_products_in_stock] takes after a page succeeds. *)
Definition sleep_succeeds (sleep_sec : spec_float) : Prop :=
  truthy (VFloat sleep_sec) = true -> time_sleep rt sleep_sec = None.

(** The request [get_coffee_category_id] makes. *)
Definition category_request (s : session) : request :=
  {| rq_method := GET;
     rq_url := BASE_URL ++ u "/v3/categories/store/" ++ STORE_CODE;
     rq_headers := s;
     rq_params := [(u "storetype", STORE_TYPE); (u "catalogtype", CATALOG_TYPE)];
     rq_json := None |}.


(** The request [resolve_city] makes for the geo-identifier [fias]. *)
Definition city_request (s : session) (fias : str) : request :=
  {| rq_method := POST; rq_url := BASE_URL ++ u "/market/v2/city/info";
     rq_headers := s; rq_params := [];
     rq_json := Some (VDict [(u "fiasId", VStr fias)]) |}.

(** No geo-identifier was given: the argument is [None] or empty. *)
Definition not_given (a : option str) : Prop := a = None \/ a = Some [].

(** The characters a formatted price is made of: digits, the sign, the
    point, and the letters of inf and nan. *)
Definition price_char (c : N) : bool :=
  (is_digit c || (c =? 45) || (c =? 46) || (c =? 97) || (c =? 102)
   || (c =? 105) || (c =? 110))%N.

(** The UTF-8 form of a text without lone surrogates. *)
Definition utf8_bytes (text : str) : list byte :=
  concat (map Utf8.encode_char text).

(** The text of one row's record as the specification words it: the six
    columns, quoted where they must be, joined by semicolons, and CR LF. *)
Definition row_line (r : ProductRow) : str :=
  csv_field (product_id r) ++ [SEMICOLON]
  ++ csv_field (name r) ++ [SEMICOLON]
  ++ price_text (regular_price r) ++ [SEMICOLON]
  ++ price_text (promo_price r) ++ [SEMICOLON]
  ++ csv_field (brand r) ++ [SEMICOLON]
  ++ csv_field (city r) ++ [CR; LF].

Definition header_line : str :=
  u "id;name;regular_price;promo_price;brand;city" ++ [CR; LF].

(** A computation that writes no file. *)
Definition keeps_files {A} (m : M A) : Prop :=
  forall w, files (snd (m w)) = files w.

(** A generator that runs in worlds whose files are [fs]. *)
Fixpoint gen_files (fs : list (str * list byte)) (g : gen) : Prop :=
  match g with
  | Yield _ w rest => files w = fs /\ gen_files fs rest
  | Return w => files w = fs
  | Raised _ w => files w = fs
  end.

(** The session [main] builds from its arguments. *)
Definition session_of (a : args) : session :=
  make_session (city_or_empty (arg_token a)) (city_or_empty (arg_device_id a))
    (arg_app_version a) (arg_user_agent a).

(** Both credentials are given. *)
Definition has_credentials (a : args) : bool :=
  negb (missing (arg_token a) || missing (arg_device_id a)).


(** The promotion sub-object [to_row] reads: [it.get("promotion") or {}]. *)
Definition promotion (it : dict) : value :=
  py_or (dict_get it (u "promotion")) (VDict []).

End Runtime.

(** ** Vocabulary of the further properties *)

(** A text with no whitespace at either end. *)
Definition trimmed (s : str) : bool :=
  negb (is_space (hd 0%N s)) && negb (is_space (last s 0%N)).

(** *** Prices in figures *)

(** What rounding to binary64 makes of a mantissa and an exponent. *)
Definition rounded (sx : bool) (b e : Z) : spec_float :=
  match b with
  | Z0 => S754_zero sx
  | Zpos m => if e <=? 971 then S754_finite sx m e else S754_infinity sx
  | Zneg _ => S754_nan
  end.

(** [x] is within half a hundredth of [z / 100], in exact arithmetic: [x] is
    m * 2^e with a negative e, and |100 * m * 2^e - |z|| < 1/2. *)
Definition within_half_cent (z : Z) (x : spec_float) : Prop :=
  match x with
  | S754_zero s => z = 0 /\ s = false
  | S754_finite s m e =>
      s = (z <? 0) /\ e < 0
      /\ 2 * Z.abs (100 * Zpos m - Z.abs z * 2 ^ (- e)) < 2 ^ (- e)
  | _ => False
  end.

(** [n] is the integer nearest to 100 * m * 2^e, the even one of two that
    are equally near. *)
Definition nearest_hundredth (m : positive) (e : Z) (n : Z) : Prop :=
  if e <? 0 then
    2 * Z.abs (100 * Zpos m - n * 2 ^ (- e)) <= 2 ^ (- e)
    /\ (2 * Z.abs (100 * Zpos m - n * 2 ^ (- e)) = 2 ^ (- e) -> Z.even n = true)
  else n = 100 * Zpos m * 2 ^ e.

(** [r] is [y] rounded to two decimals: the double for n / 100, n the
    integer nearest to 100 * y; a zero, an infinity and a NaN are kept. *)
Definition rounded_from (y r : spec_float) : Prop :=
  match y with
  | S754_finite s m e =>
      exists n, nearest_hundredth m e n /\ r = Float64.of_hundredths s n
  | _ => r = y
  end.

(** The text of [z] hundredths: units, a point, two digits. *)
Definition cents_text (z : Z) : str :=
  let n := Z.to_N (Z.abs z) in
  sign_text (z <? 0) ++ dec_of_N (n / 100) ++ [46%N] ++ two_digits (n mod 100).

(** [p] is [z] minor units converted: a double within half a hundredth of
    z / 100, which prints as the units, a point and two digits. *)
Definition converted (z : Z) (p : option spec_float) : Prop :=
  exists x,
    p = Some x /\ within_half_cent z x /\ price_text (Some x) = cents_text z.

(** *** Items of the usual shape *)

(** A price as the backend sends it: absent, null, or an int of minor units
    below 10^14. *)
Definition plain_price (v : value) : bool :=
  match v with
  | VNone => true
  | VInt z => Z.abs z <? 10 ^ 14
  | _ => false
  end.

(** A text field as the backend sends it: absent, null, or a str. *)
Definition plain_text (v : value) : bool :=
  match v with
  | VNone | VStr _ => true
  | _ => false
  end.

(** An item of the shape the backend sends: the promotion absent, null or an
    object; the name absent, null or a str; the prices plain. *)
Definition plain_item (it : dict) : bool :=
  plain_price (dict_get it (u "price"))
  && plain_text (dict_get it (u "name"))
  && match dict_get it (u "promotion") with
     | VNone => true
     | VDict promo => plain_price (dict_get promo (u "oldPrice"))
     | _ => false
     end.

(** The price column for a plain price. *)
Definition price_column (v : value) : str :=
  match v with
  | VInt z => cents_text z
  | _ => []
  end.

(** The text of a plain text field. *)
Definition text_of (v : value) : str :=
  match v with
  | VStr s => s
  | _ => []
  end.

(** *** Replies *)

(** The statuses [raise_for_status] raises on. *)
Definition error_status (status : Z) : bool := (400 <=? status) && (status <? 600).

(** What is wrong with a reply, for a caller that wants a JSON object: the
    exception that [session.request], [raise_for_status], [json] or the
    first [get] raises. *)
Definition bad_reply (r : response) : option exn :=
  match r with
  | NoReply => Some ConnectionError
  | Reply status body =>
      if error_status status then Some (HTTPError status)
      else
        match body with
        | None => Some JSONDecodeError
        | Some (VDict _) => None
        | Some _ => Some AttributeError
        end
  end.

(** *** Pages *)

(** The pauses the generator takes over [n] pages with items. *)
Definition pauses (sleep_sec : spec_float) (n : nat) : list spec_float :=
  if truthy (VFloat sleep_sec) then repeat sleep_sec n else [].

(** The in-stock items of a run of pages, in order. *)
Definition in_stock_items (pages : list (Z * dict)) : list dict :=
  flat_map (fun p => filter in_stock (page_dicts (snd p))) pages.

(** *** Reading a record back *)

(** A reader for the dialect the writer is set to, to say what a record
    holds: fields are separated by semicolons, a field that starts with a
    quote runs to its closing quote, a doubled quote inside it standing for
    one, and the record ends at the CR or LF outside quotes. *)
Inductive reader_state :=
| StartRecord   (* nothing read yet *)
| StartField    (* a separator was just read *)
| InField       (* inside a field without quotes *)
| InQuoted      (* inside a field in quotes *)
| QuoteSeen.    (* a quote inside a field in quotes *)

(** The characters that end a record. *)
Definition ends_record (c : N) : bool := ((c =? CR) || (c =? LF))%N.

(** [cur] holds the characters of the field being read, latest first, and
    [fields] the fields read, latest first.  [None]: the text ended before
    the record did. *)
Fixpoint read_record_from (st : reader_state) (cur : str) (fields : list str)
  (text : str) : option (list str) :=
  match text with
  | [] => None
  | c :: rest =>
      match st with
      | StartRecord =>
          if (c =? QUOTE)%N then read_record_from InQuoted [] fields rest
          else if (c =? SEMICOLON)%N then
            read_record_from StartField [] ([] :: fields) rest
          else if ends_record c then Some (rev fields)
          else read_record_from InField [c] fields rest
      | StartField =>
          if (c =? QUOTE)%N then read_record_from InQuoted [] fields rest
          else if (c =? SEMICOLON)%N then
            read_record_from StartField [] ([] :: fields) rest
          else if ends_record c then Some (rev ([] :: fields))
          else read_record_from InField [c] fields rest
      | InField =>
          if (c =? SEMICOLON)%N then
            read_record_from StartField [] (rev cur :: fields) rest
          else if ends_record c then Some (rev (rev cur :: fields))
          else read_record_from InField (c :: cur) fields rest
      | InQuoted =>
          if (c =? QUOTE)%N then read_record_from QuoteSeen cur fields rest
          else read_record_from InQuoted (c :: cur) fields rest
      | QuoteSeen =>
          if (c =? QUOTE)%N then
            read_record_from InQuoted (QUOTE :: cur) fields rest
          else if (c =? SEMICOLON)%N then
            read_record_from StartField [] (rev cur :: fields) rest
          else if ends_record c then Some (rev (rev cur :: fields))
          else read_record_from InField (c :: cur) fields rest
      end
  end.

(** The fields of the first record of a text. *)
Definition read_record (text : str) : option (list str) :=
  read_record_from StartRecord [] [] text.

(** What the reader does once a field is complete and the character [t]
    after it is a separator or the end of the record. *)
Definition field_read (t : N) (f : str) (fields : list str) (more : str)
  : option (list str) :=
  if (t =? SEMICOLON)%N then read_record_from StartField [] (f :: fields) more
  else Some (rev (f :: fields)).

(** What the writer puts behind a field: a semicolon, or the CR of the line
    end. *)
Definition closes_field (t : N) : bool := ((t =? SEMICOLON) || (t =? CR))%N.

(** ** Brand extraction in the words of the specification *)

(** The generic descriptive words: preparation, origin, packaging, units. *)
Definition stoplist : list str :=
  [ u "растворимый"; u "молотый"; u "зерновой"; u "натуральный"; u "жареный";
    u "сублимированный"; u "в"; u "капсулах"; u "дрип"; u "дрип-пакетах";
    u "смесь"; u "для"; u "кофемашин"; u "эспрессо"; u "арабика"; u "робуста";
    u "вес"; u "г"; u "кг"; u "мл" ].

Local Open Scope N_scope.

(** The character classes of the three patterns. *)
Definition latin_capital (c : N) : bool := (65 <=? c) && (c <=? 90).
Definition latin_small (c : N) : bool := (97 <=? c) && (c <=? 122).
Definition decimal_digit (c : N) : bool := (48 <=? c) && (c <=? 57).
Definition hyphen (c : N) : bool := c =? 45.
(** А to Я, and Ё. *)
Definition cyrillic_capital (c : N) : bool :=
  ((1040 <=? c) && (c <=? 1071)) || (c =? 1025).
(** а to я, and ё. *)
Definition cyrillic_small (c : N) : bool :=
  ((1072 <=? c) && (c <=? 1103)) || (c =? 1105).

Definition latin_word_char (c : N) : bool :=
  latin_capital c || latin_small c || decimal_digit c || hyphen c.

Definition cyrillic_word_char (c : N) : bool :=
  cyrillic_capital c || cyrillic_small c || decimal_digit c || hyphen c.

Definition capital_word_char (c : N) : bool :=
  latin_capital c || decimal_digit c || hyphen c.

Local Close Scope N_scope.

(** An uppercase Latin letter followed by one or more Latin letters, digits
    and hyphens. *)
Definition capitalised_latin (tk : str) : bool :=
  match tk with
  | c :: rest =>
      latin_capital c && negb (is_empty rest) && forallb latin_word_char rest
  | [] => false
  end.

(** An uppercase Cyrillic letter followed by one or more Cyrillic letters,
    digits and hyphens. *)
Definition capitalised_cyrillic (tk : str) : bool :=
  match tk with
  | c :: rest =>
      cyrillic_capital c && negb (is_empty rest)
      && forallb cyrillic_word_char rest
  | [] => false
  end.

(** Two or more uppercase Latin letters, digits and hyphens. *)
Definition all_capitals (tk : str) : bool :=
  (2 <=? length tk)%nat && forallb capital_word_char tk.

(** A brand-like token. *)
Definition brand_like_token (tk : str) : bool :=
  capitalised_latin tk || capitalised_cyrillic tk || all_capitals tk.

(** The characters stripped from the ends of a token: brackets, braces,
    parentheses and the two ASCII quote marks. *)
Definition wrapping (c : N) : bool :=
  existsb (N.eqb c) [40; 41; 91; 93; 123; 125; 34; 39]%N.

(** « and ». *)
Definition guillemet (c : N) : bool := ((c =? 171) || (c =? 187))%N.

(** *** What depends on the runtime *)

Section Vocabulary.

Variable rt : runtime.


(** The city name [resolve_city] returns: the name in the reply, trimmed,
    or else the city it was asked for, as given. *)
Definition city_name_of (body : dict) (city : option str) : str :=
  match py_strip (py_str rt (dict_get_default body (u "name") (VStr []))) with
  | [] => city_or_empty city
  | n => n
  end.

(** The city identifier [resolve_city] returns: the text of [cityId],
    trimmed. *)
Definition city_id_of (body : dict) : str :=
  py_strip (py_str rt (dict_get_default body (u "cityId") (VStr []))).

(** [to_row] returns a row for the item. *)
Definition returns_row (city_name : str) (it : dict) : bool :=
  match to_row rt it city_name with
  | Ok _ => true
  | Raise _ => false
  end.


(** A request made through the session [s], to the backend. *)
Definition from_session (s : session) (rq : request) : Prop :=
  rq_headers rq = s /\ starts_with BASE_URL (rq_url rq) = true.

(** From [w] to [w'] nothing was done but requests of the session [s] (and
    pauses): nothing was written or printed. *)
Definition only_requests (s : session) (w w' : world) : Prop :=
  (exists rqs, sent w' = sent w ++ rqs /\ Forall (from_session s) rqs)
  /\ files w' = files w /\ stdout w' = stdout w /\ stderr w' = stderr w.

(** A computation that does nothing but requests of the session [s]. *)
Definition M_only_requests (s : session) {A} (m : M A) : Prop :=
  forall w, only_requests s w (snd (m w)).

(** A generator that, started in [w0], does nothing but requests of the
    session [s]. *)
Fixpoint gen_only_requests (s : session) (w0 : world) (g : gen) : Prop :=
  match g with
  | Yield _ w rest => only_requests s w0 w /\ gen_only_requests s w0 rest
  | Return w => only_requests s w0 w
  | Raised _ w => only_requests s w0 w
  end.

(** The token is on the stoplist, whatever its case. *)
Definition stoplisted (tk : str) : bool :=
  existsb (str_eqb (py_lower rt tk)) stoplist.

(** The tokens that remain: the generic prefix stripped, the rest split at
    whitespace and commas, each token cleaned, the empty and the stoplisted
    ones dropped. *)
Definition kept_tokens (name : str) : list str :=
  filter (fun tk => negb (is_empty tk) && negb (stoplisted tk))
    (map clean_token (re_split_seps (sub_coffee_prefix rt (py_strip name)))).

(** Brand extraction as the specification words it: the first brand-like
    token that remains, else the first token that remains, else nothing. *)
Definition brand_spec (name : str) : str :=
  match find brand_like_token (kept_tokens name) with
  | Some tk => tk
  | None => hd [] (kept_tokens name)
  end.

End Vocabulary.

(** A runtime to evaluate examples with: text outside the tabulated ranges
    has no case, other values print as nothing, no str is an int literal,
    and sleeping never fails. *)
Definition sample_runtime : runtime :=
  {| lower_ext := fun s => s;
     ignorecase_ext := fun _ _ => false;
     repr_ext := fun _ => [];
     int_of_str := fun _ => Raise ValueError;
     time_sleep := fun _ => None |}.

(** ** Sample data *)

Definition item_on_promotion : dict :=
  [ (u "price", VInt 500);
    (u "promotion",
      VDict [(u "isPromotion", VBool true); (u "oldPrice", VInt 700)]) ].

Definition item_off_promotion : dict :=
  [ (u "price", VInt 500);
    (u "promotion", VDict [(u "isPromotion", VBool false)]) ].

Definition item_without_price : dict :=
  [ (u "id", VInt 7); (u "name", VStr (u "Кофе Jardin 95г")) ].

(** A price past the largest double, which the JSON decoder reads as an
    infinity. *)
Definition item_with_infinite_price : dict :=
  [ (u "id", VInt 8); (u "price", VFloat (S754_infinity false)) ].

Definition product (id quantity : Z) : dict :=
  [ (u "id", VInt id); (u "quantity", VInt quantity); (u "price", VInt 500) ].

Definition unit_sold_by_flag : dict :=
  [ (u "id", VInt 5); (u "quantity", VBool true) ].

Definition page (items : list dict) (token : string) : Z * dict :=
  (200, [(u "items", VList (map VDict items)); (u "token", VStr (u token))]).

(** Two pages of two items, an empty page, and a page nobody asks for. *)
Definition three_pages : list (Z * dict) :=
  [ page [product 1 3; product 2 0] "t1"; page [product 3 1; product 4 2] "t2" ].

Definition later_page : response :=
  reply_of (page [product 9 9] "t9").

Definition idle (replies : list response) : world :=
  {| net := replies; sent := []; slept := []; files := [];
     stdout := []; stderr := [] |}.

Definition category_tree : value :=
  VList
    [ VDict [(u "id", VInt 1); (u "name", VStr (u "Чай"))];
      VList
        [ VList
            [ VDict
                [ (u "id", VInt 2); (u "name", VStr (u "Напитки"));
                  (u "children",
                    VList
                      [ VDict [(u "id", VInt 3); (u "name", VStr (u "Какао"))];
                        VDict [(u "id", VInt 42); (u "name", VStr (u "Кофе"))] ]) ] ] ] ].

Definition row_with_line_feed : ProductRow :=
  {| product_id := u "1"; name := u "Кофе" ++ [LF] ++ u "Jardin";
     regular_price := Some (Float64.of_Z 5); promo_price := None;
     brand := u "Jardin"; city := u "Москва" |}.

Definition row_with_surrogate : ProductRow :=
  {| product_id := u "2"; name := [55296%N];
     regular_price := None; promo_price := None;
     brand := []; city := u "Москва" |}.

Definition plain_row : ProductRow :=
  {| product_id := u "3"; name := u "Кофе Jardin; 95г";
     regular_price := Some (Float64.of_Z 7); promo_price := Some (Float64.of_Z 5);
     brand := u "Jardin"; city := u "Москва" |}.

Definition sample_args : args :=
  {| arg_token := Some (u "jwt"); arg_device_id := Some (u "device");
     arg_app_version := u "8.90.0"; arg_user_agent := u "okhttp/5.1.0";
     arg_city := Some (u "Москва"); arg_fias_id := None;
     arg_out := u "coffee.csv"; arg_limit := 2 |}.

(** The city is resolved, the category is found, and the first page fails. *)
Definition failing_script : list response :=
  [ page_reply 200 [(u "cityId", VInt 1); (u "name", VStr (u "Москва"))];
    page_reply 200 [(u "items", category_tree)];
    reply_of (page [product 1 3] "t1");
    Reply 503 None ].

(** 12345.678 minor units, as a JSON number with a fraction. *)
Definition fractional_price : spec_float :=
  Eval vm_compute in Float64.div (Float64.of_Z 12345678) (Float64.of_Z 1000).

Definition item_priced (price : value) : dict :=
  [ (u "id", VInt 11); (u "name", VStr (u "Кофе Jardin 95г")); (u "price", price) ].





(** The city is resolved, the category is found, a page comes, and then the
    connection is lost. *)
Definition dropping_script : list response :=
  [ page_reply 200 [(u "cityId", VInt 1); (u "name", VStr (u "Москва"))];
    page_reply 200 [(u "items", category_tree)];
    reply_of (page [product 1 3] "t1");
    NoReply;
    reply_of (page [product 2 1] "t2") ].

(** The reply to the city request of the sample runs. *)
Definition city_body : dict :=
  [(u "cityId", VInt 1); (u "name", VStr (u " Москва "))].


(** The geo-identifier of Moscow behind its first character. *)
Definition fias_moscow_tail : str := u "c5b2444-70a0-4932-980c-b4dc0d3f02b5".

(** The sample arguments without a token. *)
Definition sample_args_without_token : args :=
  {| arg_token := None; arg_device_id := Some (u "device");
     arg_app_version := u "8.90.0"; arg_user_agent := u "okhttp/5.1.0";
     arg_city := Some (u "Москва"); arg_fias_id := None;
     arg_out := u "coffee.csv"; arg_limit := 2 |}.

(** * Properties *)

Unset Implicit Arguments.

Lemma str_eqb_eq (a b : str) : str_eqb a b = true <-> a = b.
Proof.
  unfold str_eqb. destruct (list_eq_dec N.eq_dec a b); split; congruence.
Qed.

Lemma str_eqb_refl (a : str) : str_eqb a a = true.
Proof. now apply str_eqb_eq. Qed.

Section Properties.

Variable rt : runtime.

(** ** Brand extraction *)

Lemma first_brand_like_find (tokens : list str) :
  first_brand_like rt tokens
  = find brand_like
      (filter (fun tk => negb (is_empty tk) && negb (in_skip rt tk))
         (map clean_token tokens)).
Proof.
  induction tokens as [|t rest IH]; simpl; [reflexivity|].
  rewrite <- negb_orb.
  destruct (is_empty (clean_token t) || in_skip rt (clean_token t)); simpl.
  - exact IH.
  - unfold brand_like.
    destruct (re_latin_word (clean_token t) || re_cyrillic_word (clean_token t));
      simpl; [reflexivity|].
    destruct (re_upper_token (clean_token t)); [reflexivity | exact IH].
Qed.

Lemma first_kept_hd (tokens : list str) :
  match first_kept rt tokens with Some tk => tk | None => [] end
  = hd []
      (filter (fun tk => negb (is_empty tk) && negb (in_skip rt tk))
         (map clean_token tokens)).
Proof.
  induction tokens as [|t rest IH]; simpl; [reflexivity|].
  destruct (negb (is_empty (clean_token t)) && negb (in_skip rt (clean_token t)));
    simpl; [reflexivity | exact IH].
Qed.

(** ** Binary64 arithmetic

    Facts about the rounding and the division of [SpecFloat] at precision 53
    and exponent bound 1024, from their definitions. *)

Lemma digits2_pos_bounds (p : positive) :
  2 ^ (Zpos (digits2_pos p) - 1) <= Zpos p < 2 ^ Zpos (digits2_pos p).
Proof.
  induction p as [p IH|p IH|]; cbn [digits2_pos].
  - rewrite Pos2Z.inj_succ.
    replace (Z.succ (Zpos (digits2_pos p)) - 1) with (Z.succ (Zpos (digits2_pos p) - 1)) by lia.
    rewrite !Z.pow_succ_r by lia. lia.
  - rewrite Pos2Z.inj_succ.
    replace (Z.succ (Zpos (digits2_pos p)) - 1) with (Z.succ (Zpos (digits2_pos p) - 1)) by lia.
    rewrite !Z.pow_succ_r by lia. lia.
  - cbn. lia.
Qed.

Lemma Zdigits2_nonneg (m : Z) : 0 <= Zdigits2 m.
Proof. destruct m; cbn; lia. Qed.

Lemma Zdigits2_bounds (m : Z) :
  0 < m -> 2 ^ (Zdigits2 m - 1) <= m < 2 ^ Zdigits2 m.
Proof. destruct m as [|p|p]; try lia. intros _. apply digits2_pos_bounds. Qed.

Lemma Zdigits2_le (m d : Z) : 0 <= m -> 0 <= d -> m < 2 ^ d -> Zdigits2 m <= d.
Proof.
  intros Hm Hd H. destruct (Z.eq_dec m 0) as [->|N]; [exact Hd|].
  assert (P : 0 < m) by lia.
  destruct (Zdigits2_bounds m P) as [L _].
  destruct (Z.le_gt_cases (Zdigits2 m) d) as [|G]; [assumption|].
  assert (2 ^ d <= 2 ^ (Zdigits2 m - 1)) by (apply Z.pow_le_mono_r; lia).
  lia.
Qed.

Lemma shr_1_m (mrs : shr_record) :
  0 <= shr_m mrs -> shr_m (shr_1 mrs) = shr_m mrs / 2.
Proof.
  destruct mrs as [m r s]. cbn [shr_m]. intro H.
  rewrite <- Z.div2_div.
  destruct m as [|[p|p|]|p]; try reflexivity; lia.
Qed.

Lemma iter_pos_shr_m (k : positive) :
  forall mrs, 0 <= shr_m mrs ->
    shr_m (iter_pos shr_1 k mrs) = shr_m mrs / 2 ^ Zpos k.
Proof.
  induction k as [k IH|k IH|]; intros mrs H; cbn [iter_pos].
  - assert (P : 0 < 2 ^ Zpos k) by (apply Z.pow_pos_nonneg; lia).
    assert (H1 : 0 <= shr_m (shr_1 mrs)).
    { rewrite shr_1_m by assumption. apply Z.div_pos; lia. }
    assert (H2 : 0 <= shr_m (iter_pos shr_1 k (shr_1 mrs))).
    { rewrite IH by assumption. apply Z.div_pos; assumption. }
    rewrite IH, IH, shr_1_m by assumption.
    rewrite !Z.div_div by lia.
    f_equal. rewrite (Pos2Z.inj_xI k).
    replace (2 * Zpos k + 1) with (1 + Zpos k + Zpos k) by lia.
    rewrite !Z.pow_add_r by lia. change (2 ^ 1) with 2. ring.
  - assert (P : 0 < 2 ^ Zpos k) by (apply Z.pow_pos_nonneg; lia).
    assert (H2 : 0 <= shr_m (iter_pos shr_1 k mrs)).
    { rewrite IH by assumption. apply Z.div_pos; assumption. }
    rewrite IH, IH by assumption.
    rewrite !Z.div_div by lia.
    f_equal. rewrite (Pos2Z.inj_xO k).
    replace (2 * Zpos k) with (Zpos k + Zpos k) by lia.
    rewrite !Z.pow_add_r by lia. ring.
  - rewrite shr_1_m by assumption. reflexivity.
Qed.

Lemma shr_record_of_loc_m (m : Z) (l : location) :
  shr_m (shr_record_of_loc m l) = m.
Proof. destruct l as [|[| |]]; reflexivity. Qed.

Lemma Zdigits2_lt (m : Z) : 0 <= m -> m < 2 ^ Zdigits2 m.
Proof.
  intro H. destruct (Z.eq_dec m 0) as [->|N]; [reflexivity|].
  apply Zdigits2_bounds. lia.
Qed.

Lemma fexp64 (t : Z) : fexp 53 1024 t = Z.max (t - 53) (-1074).
Proof. reflexivity. Qed.

Lemma digits_after_shift (m : Z) (p : positive) :
  0 <= m ->
  Zdigits2 (m / 2 ^ Zpos p) <= Z.max (Zdigits2 m - Zpos p) 0.
Proof.
  intro H. pose proof (Zdigits2_lt m H) as L.
  pose proof (Zdigits2_nonneg m) as D.
  assert (P : 0 < 2 ^ Zpos p) by (apply Z.pow_pos_nonneg; lia).
  destruct (Z.le_gt_cases (Zpos p) (Zdigits2 m)) as [Le|Gt].
  - rewrite Z.max_l by lia. apply Zdigits2_le; try lia.
    + apply Z.div_pos; lia.
    + apply Z.div_lt_upper_bound; [exact P|].
      rewrite <- Z.pow_add_r by lia.
      replace (Zpos p + (Zdigits2 m - Zpos p)) with (Zdigits2 m) by lia.
      exact L.
  - assert (2 ^ Zdigits2 m <= 2 ^ Zpos p) by (apply Z.pow_le_mono_r; lia).
    rewrite Z.div_small by lia. cbn. lia.
Qed.

Lemma shr_fexp_spec (m e : Z) (l : location) :
  0 <= m ->
  0 <= shr_m (fst (shr_fexp 53 1024 m e l))
  /\ snd (shr_fexp 53 1024 m e l) = Z.max e (fexp 53 1024 (Zdigits2 m + e))
  /\ Zdigits2 (shr_m (fst (shr_fexp 53 1024 m e l))) + snd (shr_fexp 53 1024 m e l)
     <= Z.max (Zdigits2 m + e) (snd (shr_fexp 53 1024 m e l)).
Proof.
  intro H. unfold shr_fexp, shr.
  remember (fexp 53 1024 (Zdigits2 m + e)) as f eqn:F.
  destruct (f - e) as [|p|p] eqn:K; cbn [fst snd];
    rewrite ?shr_record_of_loc_m.
  - repeat split; lia.
  - assert (S : shr_m (iter_pos shr_1 p (shr_record_of_loc m l)) = m / 2 ^ Zpos p).
    { rewrite iter_pos_shr_m; rewrite shr_record_of_loc_m; [reflexivity | exact H]. }
    rewrite S. pose proof (digits_after_shift m p H) as D.
    assert (P : 0 < 2 ^ Zpos p) by (apply Z.pow_pos_nonneg; lia).
    repeat split; [apply Z.div_pos; lia | lia | lia].
  - repeat split; lia.
Qed.

Lemma round_nearest_even_bounds (m : Z) (l : location) :
  m <= round_nearest_even m l <= m + 1.
Proof. destruct l as [|[| |]]; cbn; try lia. destruct (Z.even m); lia. Qed.

Lemma Zdigits2_succ (m m' : Z) :
  0 <= m -> m <= m' <= m + 1 -> Zdigits2 m' <= Zdigits2 m + 1.
Proof.
  intros H B. pose proof (Zdigits2_nonneg m) as D.
  pose proof (Zdigits2_lt m H) as L.
  apply Zdigits2_le; try lia.
  rewrite Z.pow_add_r by lia. change (2 ^ 1) with 2. lia.
Qed.

(** What rounding to binary64 returns for a mantissa that is not negative:
    never a NaN, a finite result is a double, and an infinity only for an
    operand that is large. *)
Lemma binary_round_aux_spec (sx : bool) (mx ex : Z) (lx : location) :
  0 <= mx ->
  match binary_round_aux 53 1024 sx mx ex lx with
  | S754_nan => False
  | S754_finite s m e => Zdigits2 (Zpos m) <= 53 /\ e <= 971
  | S754_infinity s => 971 < ex \/ 1023 < Zdigits2 mx + ex
  | S754_zero s => True
  end.
Proof.
  intro H. unfold binary_round_aux.
  pose proof (shr_fexp_spec mx ex lx H) as [A1 [A2 A3]].
  destruct (shr_fexp 53 1024 mx ex lx) as [a e'] eqn:E1. cbn [fst snd] in *.
  set (mr := round_nearest_even (shr_m a) (loc_of_shr_record a)).
  pose proof (round_nearest_even_bounds (shr_m a) (loc_of_shr_record a)) as R.
  fold mr in R.
  assert (Hr : 0 <= mr) by lia.
  pose proof (Zdigits2_succ (shr_m a) mr A1 R) as Dr.
  pose proof (shr_fexp_spec mr e' loc_Exact Hr) as [B1 [B2 B3]].
  destruct (shr_fexp 53 1024 mr e' loc_Exact) as [b e''] eqn:E2.
  cbn [fst snd] in *.
  rewrite fexp64 in A2, B2.
  destruct (shr_m b) as [|m|m] eqn:M; [exact I | | lia].
  change (1024 - 53) with 971.
  destruct (Z.leb_spec e'' 971) as [Le|Gt].
  - split; [|exact Le]. lia.
  - destruct (Z.le_gt_cases ex 971) as [L1|G1]; [|left; exact G1].
    destruct (Z.le_gt_cases (Zdigits2 mx + ex) 1023) as [L2|G2]; [|right; exact G2].
    exfalso. lia.
Qed.

Lemma binary_normalize_spec (z : Z) :
  match binary_normalize 53 1024 z 0 false with
  | S754_nan => False
  | S754_finite s m e => Zdigits2 (Zpos m) <= 53 /\ e <= 971
  | _ => True
  end.
Proof.
  assert (R : forall sx p,
            match binary_round 53 1024 sx p 0 with
            | S754_nan => False
            | S754_finite s m e => Zdigits2 (Zpos m) <= 53 /\ e <= 971
            | _ => True
            end).
  { intros sx p. unfold binary_round.
    destruct (shl_align p 0 _) as [mz ez].
    pose proof (binary_round_aux_spec sx (Zpos mz) ez loc_Exact ltac:(lia)) as S.
    destruct (binary_round_aux 53 1024 sx (Zpos mz) ez loc_Exact); auto. }
  destruct z as [|p|p]; cbn [binary_normalize]; [exact I | apply R | apply R].
Qed.

(** The quotient and exponent the division hands to the rounding. *)
Lemma SFdiv_core_binary_spec (m1 m2 : positive) (e1 e2 : Z) :
  let '(q, e', _) := SFdiv_core_binary 53 1024 (Zpos m1) e1 (Zpos m2) e2 in
  0 <= q
  /\ e' <= fexp 53 1024 (Zdigits2 (Zpos m1) + e1 - (Zdigits2 (Zpos m2) + e2))
  /\ Zdigits2 q + e'
     <= Z.max e' (Zdigits2 (Zpos m1) + e1 - (Zdigits2 (Zpos m2) + e2) + 1).
Proof.
  unfold SFdiv_core_binary.
  set (d1 := Zdigits2 (Zpos m1)). set (d2 := Zdigits2 (Zpos m2)).
  set (e' := Z.min (fexp 53 1024 (d1 + e1 - (d2 + e2))) (e1 - e2)).
  set (s := e1 - e2 - e').
  set (m' := match s with
             | Zpos _ => Z.shiftl (Zpos m1) s
             | Z0 => Zpos m1
             | Zneg _ => Z0
             end).
  assert (Hs : 0 <= s) by (subst s e'; lia).
  assert (D1 : 0 <= d1) by apply Zdigits2_nonneg.
  assert (D2 : 0 < d2) by (subst d2; cbn; lia).
  assert (L1 : Zpos m1 < 2 ^ d1) by (apply Zdigits2_lt; lia).
  assert (L2 : 2 ^ (d2 - 1) <= Zpos m2) by (apply Zdigits2_bounds; lia).
  assert (P2 : 0 < 2 ^ (d2 - 1)) by (apply Z.pow_pos_nonneg; lia).
  assert (Hm : 0 <= m' < 2 ^ (d1 + s)).
  { subst m'. destruct s as [|p|p] eqn:S; try lia.
    - rewrite Z.add_0_r. lia.
    - rewrite Z.shiftl_mul_pow2 by lia. rewrite Z.pow_add_r by lia.
      assert (0 < 2 ^ Zpos p) by (apply Z.pow_pos_nonneg; lia). nia. }
  destruct (Z.div_eucl m' (Zpos m2)) as [q r] eqn:E.
  assert (Q : q = m' / Zpos m2) by (unfold Z.div; now rewrite E).
  assert (Q0 : 0 <= q) by (rewrite Q; apply Z.div_pos; lia).
  split; [exact Q0|]. split; [subst e'; lia|].
  assert (Dq : Zdigits2 q <= Z.max 0 (d1 + s - d2 + 1)).
  { destruct (Z.le_gt_cases 0 (d1 + s - d2 + 1)) as [Le|Gt].
    - rewrite Z.max_r by lia. apply Zdigits2_le; try lia.
      rewrite Q. apply Z.div_lt_upper_bound; [lia|].
      assert (2 ^ (d1 + s) = 2 ^ (d2 - 1) * 2 ^ (d1 + s - d2 + 1)).
      { rewrite <- Z.pow_add_r by lia. f_equal. lia. }
      assert (0 < 2 ^ (d1 + s - d2 + 1)) by (apply Z.pow_pos_nonneg; lia).
      nia.
    - rewrite Z.max_l by lia.
      assert (2 ^ (d1 + s) <= 2 ^ (d2 - 1)) by (apply Z.pow_le_mono_r; lia).
      rewrite Q, Z.div_small by lia. cbn. lia. }
  subst s. lia.
Qed.

(** Dividing one finite double by another: never a NaN, and an infinity only
    when the quotient is out of range. *)
Lemma SFdiv_finite_spec (s1 s2 : bool) (m1 m2 : positive) (e1 e2 : Z) :
  match SFdiv 53 1024 (S754_finite s1 m1 e1) (S754_finite s2 m2 e2) with
  | S754_nan => False
  | S754_infinity _ =>
      1022 < Zdigits2 (Zpos m1) + e1 - (Zdigits2 (Zpos m2) + e2)
  | _ => True
  end.
Proof.
  cbn [SFdiv].
  pose proof (SFdiv_core_binary_spec m1 m2 e1 e2) as C.
  destruct (SFdiv_core_binary 53 1024 (Zpos m1) e1 (Zpos m2) e2) as [[q e'] l].
  destruct C as [Q [E D]]. rewrite fexp64 in E.
  pose proof (binary_round_aux_spec (xorb s1 s2) q e' l Q) as R.
  destruct (binary_round_aux 53 1024 (xorb s1 s2) q e' l); auto. lia.
Qed.

Lemma of_Z_spec (z : Z) :
  match Float64.of_Z z with
  | S754_nan => False
  | S754_finite s m e => Zdigits2 (Zpos m) <= 53 /\ e <= 971
  | _ => True
  end.
Proof. exact (binary_normalize_spec z). Qed.

(** A double divided by 100 is a double: the division neither overflows nor
    gives a NaN. *)
Lemma div_hundred_finite (s : bool) (m : positive) (e : Z) :
  Zdigits2 (Zpos m) <= 53 -> e <= 971 ->
  Float64.is_finite (Float64.div (S754_finite s m e) Float64.hundred) = true.
Proof.
  intros D E. unfold Float64.div, Float64.hundred, Float64.prec, Float64.emax.
  pose proof (SFdiv_finite_spec s false m 7036874417766400 e (-46)) as S.
  change (Zdigits2 (Zpos 7036874417766400)) with 53 in S.
  destruct (SFdiv 53 1024 (S754_finite s m e)
              (S754_finite false 7036874417766400 (-46)));
    try reflexivity; [lia | contradiction].
Qed.

Lemma of_hundredths_not_nan (s : bool) (n : Z) :
  Float64.of_hundredths s n <> S754_nan.
Proof.
  unfold Float64.of_hundredths, Float64.prec, Float64.emax.
  destruct n as [|p|p]; try discriminate.
  pose proof (SFdiv_finite_spec s false p 100 0 0) as S.
  destruct (SFdiv 53 1024 (S754_finite s p 0) (S754_finite false 100 0));
    try discriminate. contradiction.
Qed.

(** ** Prices *)

Lemma round2_rounded (y x : spec_float) :
  round2 y = Ok x -> rounded_to_cents x.
Proof.
  unfold round2, rounded_to_cents. destruct y as [s| s | |s m e]; intro H.
  - inversion H; subst. left. exists s, 0. reflexivity.
  - inversion H; subst. right. reflexivity.
  - inversion H; subst. right. reflexivity.
  - left. exists s, (Float64.hundredths m e).
    destruct (Float64.of_hundredths s (Float64.hundredths m e));
      now inversion H.
Qed.

Lemma money_from_int_rounded (v : value) (x : spec_float) :
  money_from_int v = Ok (Some x) -> rounded_to_cents x.
Proof.
  unfold money_from_int.
  destruct v; try discriminate;
    (destruct (to_float _) as [f|e]; simpl; [|discriminate];
     destruct (round2 (Float64.div f Float64.hundred)) as [r|e] eqn:R; simpl;
     [|discriminate]; intro H; inversion H; subst;
     exact (round2_rounded _ _ R)).
Qed.

Lemma money_from_int_price_ok (v : value) (p : option spec_float) :
  money_from_int v = Ok p -> price_ok p.
Proof.
  destruct p as [x|]; simpl; [apply money_from_int_rounded | trivial].
Qed.

Lemma money_from_int_of_int (z : Z) (p : option spec_float) :
  money_from_int (VInt z) = Ok p -> exists x, p = Some x.
Proof.
  unfold money_from_int.
  destruct (to_float (VInt z)) as [f|e]; simpl; [|discriminate].
  destruct (round2 (Float64.div f Float64.hundred)) as [r|e]; simpl;
    [|discriminate].
  intro H; inversion H. now exists r.
Qed.

(** A double divided by 100 and rounded to two decimals is a finite double,
    the nearest to some n / 100. *)
Lemma round2_div_hundred (f x : spec_float) :
  match f with
  | S754_zero _ => True
  | S754_finite _ m e => Zdigits2 (Zpos m) <= 53 /\ e <= 971
  | _ => False
  end ->
  round2 (Float64.div f Float64.hundred) = Ok x ->
  Float64.is_finite x = true /\ exists s n, x = Float64.of_hundredths s n.
Proof.
  destruct f as [s|s| |s m e]; try contradiction.
  - intros _. cbn. intro H. inversion H. split; [reflexivity|].
    exists (xorb s false), 0. reflexivity.
  - intros [D E]. pose proof (div_hundred_finite s m e D E) as F.
    destruct (Float64.div (S754_finite s m e) Float64.hundred)
      as [s'|s'| |s' m' e']; try discriminate.
    + cbn. intro H. inversion H. split; [reflexivity|]. exists s', 0. reflexivity.
    + unfold round2.
      pose proof (of_hundredths_not_nan s' (Float64.hundredths m' e')) as N.
      destruct (Float64.of_hundredths s' (Float64.hundredths m' e'))
        as [t|t| |t mt et] eqn:R; try discriminate; try contradiction;
        intro H; inversion H; subst x; (split; [reflexivity|]);
        exists s', (Float64.hundredths m' e'); now rewrite R.
Qed.

(** An integer number of minor units converts to a finite double with two
    decimals, or not at all. *)
Lemma money_from_int_integer (v : value) (x : spec_float) :
  isinstance_int v = true ->
  money_from_int v = Ok (Some x) ->
  Float64.is_finite x = true /\ exists s n, x = Float64.of_hundredths s n.
Proof.
  intros Hi H. unfold money_from_int in H.
  destruct v as [|b|z| | | |]; try discriminate Hi; clear Hi;
    cbn [to_float] in H.
  - pose proof (of_Z_spec (if b then 1 else 0)) as S.
    cbn [bind] in H.
    destruct (round2 _) as [r|] eqn:R; [|discriminate].
    cbn [bind] in H. inversion H; subst r.
    apply (round2_div_hundred (Float64.of_Z (if b then 1 else 0))); [|exact R].
    destruct b; cbn; repeat split; lia.
  - pose proof (of_Z_spec z) as S.
    destruct (Float64.of_Z z) as [s|s| |s m e] eqn:Z; try discriminate;
      try contradiction; cbn [bind] in H;
      (destruct (round2 _) as [r|] eqn:R; [|discriminate]);
      cbn [bind] in H; inversion H; subst r;
      refine (round2_div_hundred _ _ _ R); [exact I | exact S].
Qed.

(** What [to_row] does with the prices, whenever it returns a row. *)
Lemma to_row_inv (it : dict) (city_name : str) (row : ProductRow) :
  to_row rt it city_name = Ok row ->
  exists promo,
    promotion it = VDict promo
    /\ let price := dict_get it (u "price") in
       let old_price := dict_get promo (u "oldPrice") in
       if truthy (dict_get promo (u "isPromotion")) then
         money_from_int price = Ok (promo_price row)
         /\ money_from_int (if isinstance_int old_price then old_price else price)
            = Ok (regular_price row)
       else
         money_from_int price = Ok (regular_price row)
         /\ promo_price row = None.
Proof.
  unfold to_row. fold (promotion it).
  destruct (promotion it) as [| | | | | |promo]; simpl; try discriminate.
  intro H. exists promo. split; [reflexivity|]. cbv zeta.
  destruct (truthy (dict_get promo (u "isPromotion"))); simpl in H.
  - destruct (money_from_int (dict_get it (u "price"))) as [pp|] eqn:P;
      simpl in H; [|discriminate].
    destruct (isinstance_int (dict_get promo (u "oldPrice"))); rewrite ?P in H;
      simpl in H.
    + destruct (money_from_int (dict_get promo (u "oldPrice"))) as [rp|];
        simpl in H; [|discriminate].
      destruct (attr_strip _); simpl in H; [|discriminate].
      inversion H; subst; simpl. split; reflexivity.
    + destruct (attr_strip _); simpl in H; [|discriminate].
      inversion H; subst; simpl. split; [reflexivity | exact P].
  - destruct (money_from_int (dict_get it (u "price"))) as [rp|];
      simpl in H; [|discriminate].
    destruct (attr_strip _); simpl in H; [|discriminate].
    inversion H; subst; simpl. split; reflexivity.
Qed.

(** [to_row] returns a row as soon as the promotion is an object, the
    conversions succeed and the name is a str or a false value. *)
Lemma to_row_returns (it promo : dict) (city_name n : str)
  (p r : option spec_float) :
  promotion it = VDict promo ->
  (if truthy (dict_get promo (u "isPromotion"))
   then money_from_int (dict_get it (u "price"))
   else Ok None) = Ok p ->
  (if truthy (dict_get promo (u "isPromotion"))
      && isinstance_int (dict_get promo (u "oldPrice"))
   then money_from_int (dict_get promo (u "oldPrice"))
   else money_from_int (dict_get it (u "price"))) = Ok r ->
  attr_strip (py_or (dict_get it (u "name")) (VStr [])) = Ok n ->
  exists row,
    to_row rt it city_name = Ok row
    /\ promo_price row = p /\ regular_price row = r
    /\ name row = n /\ city row = city_name
    /\ brand row = extract_brand_from_name rt n.
Proof.
  intros Hp H1 H2 Hn. unfold to_row. fold (promotion it). rewrite Hp.
  cbn [attr_get bind]. rewrite H1. cbn [bind]. rewrite H2. cbn [bind].
  rewrite Hn. cbn [bind]. eexists. split; [reflexivity|]. repeat split.
Qed.

(** C6, as the code has it.  Whenever [to_row] returns a row, each of its two
    prices is absent or a value of [round(x, 2)]: the double nearest to
    n / 100 for an integer n, or a NaN or infinity passed through.  When the
    raw [price] field is an integer, at least one of the two is populated
    from it, with a finite value: the promo price on promotion, the regular
    price otherwise. *)
Theorem to_row_price_invariant (it : dict) (city_name : str) (row : ProductRow) :
  to_row rt it city_name = Ok row ->
  price_ok (regular_price row)
  /\ price_ok (promo_price row)
  /\ forall z, dict_get it (u "price") = VInt z ->
       exists x promo,
         money_from_int (VInt z) = Ok (Some x)
         /\ Float64.is_finite x = true
         /\ promotion it = VDict promo
         /\ (if truthy (dict_get promo (u "isPromotion"))
             then promo_price row = Some x
             else regular_price row = Some x)
         /\ (promo_price row <> None \/ regular_price row <> None).
Proof.
  intro H. destruct (to_row_inv _ _ _ H) as [promo [Hp Hrow]]. cbv zeta in Hrow.
  destruct (truthy (dict_get promo (u "isPromotion"))) eqn:T.
  - destruct Hrow as [H1 H2]. repeat split.
    + exact (money_from_int_price_ok _ _ H2).
    + exact (money_from_int_price_ok _ _ H1).
    + intros z Hz. rewrite Hz in H1.
      destruct (money_from_int_of_int _ _ H1) as [x Hx].
      exists x, promo. rewrite Hx in H1. rewrite T.
      split; [exact H1|].
      split; [exact (proj1 (money_from_int_integer (VInt z) x eq_refl H1))|].
      split; [exact Hp|]. split; [exact Hx|].
      left. rewrite Hx. discriminate.
  - destruct Hrow as [H1 H2]. repeat split.
    + exact (money_from_int_price_ok _ _ H1).
    + rewrite H2. exact I.
    + intros z Hz. rewrite Hz in H1.
      destruct (money_from_int_of_int _ _ H1) as [x Hx].
      exists x, promo. rewrite Hx in H1. rewrite T.
      split; [exact H1|].
      split; [exact (proj1 (money_from_int_integer (VInt z) x eq_refl H1))|].
      split; [exact Hp|]. split; [exact Hx|].
      right. rewrite Hx. discriminate.
Qed.

(** ** The in-stock filter *)

Lemma in_stock_iff (it : dict) :
  in_stock it = true
  <-> exists z, int_value (dict_get it (u "quantity")) = Some z /\ 0 < z.
Proof.
  unfold in_stock.
  destruct (dict_get it (u "quantity")) as [|b|z|x|t|l|d]; simpl;
    try (split; [discriminate | intros [z' [E _]]; discriminate]).
  - split.
    + intro H. eexists; split; [reflexivity | now apply Z.ltb_lt].
    + intros [z' [E L]]. inversion E; subst. now apply Z.ltb_lt.
  - split.
    + intro H. exists z. split; [reflexivity | now apply Z.ltb_lt].
    + intros [z' [E L]]. inversion E; subst. now apply Z.ltb_lt.
Qed.

Lemma scan_page_dicts (items : list dict) (w : world) (next : gen) :
  scan_page (map VDict items) w next = emit (filter in_stock items) w next.
Proof.
  induction items as [|it rest IH]; simpl; [reflexivity|].
  destruct (in_stock it); simpl; now rewrite IH.
Qed.

Lemma all_dicts (l : list value) :
  forallb is_dict l = true ->
  l = map VDict (flat_map (fun v => match v with VDict d => [d] | _ => [] end) l).
Proof.
  induction l as [|v l IH]; simpl; [reflexivity|].
  destruct v; simpl; try discriminate. intro H. now rewrite <- IH.
Qed.

Lemma scan_page_all_dicts (l : list value) (w : world) (next : gen) :
  forallb is_dict l = true ->
  scan_page l w next
  = emit (filter in_stock
            (flat_map (fun v => match v with VDict d => [d] | _ => [] end) l))
      w next.
Proof.
  intro H. rewrite (all_dicts l H) at 1. apply scan_page_dicts.
Qed.

Lemma yielded_emit (items : list dict) (w : world) (next : gen) :
  yielded (emit items w next) = items ++ yielded next.
Proof. induction items; simpl; [reflexivity | now f_equal]. Qed.

Lemma ending_emit (items : list dict) (w : world) (next : gen) :
  ending (emit items w next) = ending next.
Proof. induction items; simpl; [reflexivity | assumption]. Qed.

(** ** One call of goods_search_page *)

Lemma goods_search_page_reply (s : session) (category_id : Z) (city_id : str)
  (offset limit : Z) (token : value) (w : world) (p : Z * dict)
  (rest : list response) :
  net w = reply_of p :: rest ->
  ok_status (fst p) = true ->
  goods_search_page s category_id city_id offset limit token w
  = (Ok (items_of (snd p), token_of (snd p)),
     set_net rest
       (add_sent (goods_search_request s category_id city_id offset limit token) w)).
Proof.
  intros Hnet Hok. destruct p as [status body]. simpl in *.
  unfold goods_search_page, session_post, exchange, mbind, lift, ret.
  fold (goods_search_request s category_id city_id offset limit token).
  rewrite Hnet. unfold reply_of, page_reply. simpl.
  unfold raise_for_status. simpl fst.
  unfold ok_status in Hok. apply negb_true_iff in Hok. rewrite Hok.
  reflexivity.
Qed.

Lemma rq_offset_goods (s : session) (category_id : Z) (city_id : str)
  (offset limit : Z) (token : value) :
  rq_offset (goods_search_request s category_id city_id offset limit token)
  = Some (VInt offset).
Proof. reflexivity. Qed.

Lemma rq_token_goods (s : session) (category_id : Z) (city_id : str)
  (offset limit : Z) (token : value) :
  rq_token (goods_search_request s category_id city_id offset limit token)
  = Some (py_or token (VStr [])).
Proof. reflexivity. Qed.

(** ** Pagination *)

Lemma py_or_idem (a b : value) : py_or (py_or a b) b = py_or a b.
Proof.
  unfold py_or. destruct (truthy a) eqn:A; [now rewrite A|].
  destruct (truthy b); reflexivity.
Qed.

Lemma offsets_step (offset limit : Z) (n : nat) :
  map (fun i => Some (VInt (offset + Z.of_nat i * limit))) (seq 0 (S n))
  = Some (VInt offset)
    :: map (fun i => Some (VInt (offset + limit + Z.of_nat i * limit))) (seq 0 n).
Proof.
  cbn [seq map]. f_equal.
  - do 2 f_equal. cbn. ring.
  - rewrite <- seq_shift, map_map. apply map_ext. intro i.
    do 2 f_equal. rewrite Nat2Z.inj_succ. ring.
Qed.

Section Pages.

Variables (s : session) (category_id : Z) (city_id : str) (limit : Z).
Variable sleep_sec : spec_float.
Hypothesis sleep_ok : sleep_succeeds rt sleep_sec.

(** The loop over a script that starts with full pages and then an empty
    one: the in-stock items of the full pages are yielded in order, the
    generator returns at the empty page and leaves the rest of the script
    unread. *)
Lemma iter_loop_pages (pages : list (Z * dict)) :
  forall (fuel : nat) (offset : Z) (tok : value) (w : world)
         (last : Z * dict) (rest : list response),
    (length pages < fuel)%nat ->
    forallb full_page pages = true ->
    empty_page last = true ->
    net w = map reply_of pages ++ reply_of last :: rest ->
    let g := iter_loop rt fuel s category_id city_id limit sleep_sec offset tok w in
    yielded g = flat_map (fun p => filter in_stock (page_dicts (snd p))) pages
    /\ exists w' rqs,
         ending g = (Ok tt, w')
         /\ net w' = rest
         /\ files w' = files w
         /\ sent w' = sent w ++ rqs
         /\ map rq_offset rqs
            = map (fun i => Some (VInt (offset + Z.of_nat i * limit)))
                (seq 0 (S (length pages)))
         /\ map rq_token rqs
            = Some (py_or tok (VStr []))
              :: map (fun p => Some (token_of (snd p))) pages.
Proof.
  induction pages as [|p ps IH]; intros fuel offset tok w last rest Hfuel Hfull Hlast Hnet g.
  - destruct fuel as [|f]; [simpl in Hfuel; lia|].
    unfold empty_page in Hlast. apply andb_true_iff in Hlast as [Hok Hitems].
    subst g. simpl in Hnet. cbn [iter_loop].
    rewrite (goods_search_page_reply s category_id city_id offset limit tok w last rest Hnet Hok).
    rewrite Hitems. cbn [yielded ending flat_map]. split; [reflexivity|].
    eexists. exists [goods_search_request s category_id city_id offset limit tok].
    split; [reflexivity|]. repeat split.
    cbn. do 3 f_equal. ring.
  - destruct fuel as [|f]; [simpl in Hfuel; lia|].
    cbn [length] in Hfuel. cbn [forallb] in Hfull.
    apply andb_true_iff in Hfull as [Hp Hps].
    unfold full_page in Hp. apply andb_true_iff in Hp as [Hok Hitems].
    destruct (items_of (snd p)) as [| | | | |l|] eqn:El; try discriminate.
    apply andb_true_iff in Hitems as [Hne Hdicts].
    cbn [map app] in Hnet.
    set (w1 := set_net (map reply_of ps ++ reply_of last :: rest)
                 (add_sent (goods_search_request s category_id city_id offset limit tok) w)).
    set (w2 := if truthy (VFloat sleep_sec) then add_slept sleep_sec w1 else w1).
    assert (Hg : g = emit (filter in_stock (page_dicts (snd p))) w1
                       (iter_loop rt f s category_id city_id limit sleep_sec
                          (offset + limit) (token_of (snd p)) w2)).
    { subst g. cbn [iter_loop].
      rewrite (goods_search_page_reply s category_id city_id offset limit tok w p _ Hnet Hok).
      rewrite El.
      assert (Htruthy : truthy (VList l) = true)
        by (destruct l; [discriminate | reflexivity]).
      rewrite Htruthy. cbn [negb py_iter].
      rewrite (scan_page_all_dicts l _ _ Hdicts).
      unfold page_dicts. rewrite El. fold w1. f_equal.
      subst w2. destruct (truthy (VFloat sleep_sec)) eqn:T; [|reflexivity].
      now rewrite (sleep_ok T). }
    clearbody g. subst g.
    rewrite yielded_emit, ending_emit.
    assert (Hnet2 : net w2 = map reply_of ps ++ reply_of last :: rest).
    { subst w2. destruct (truthy (VFloat sleep_sec)); reflexivity. }
    assert (Hfuel2 : (length ps < f)%nat) by lia.
    destruct (IH f (offset + limit) (token_of (snd p)) w2 last rest
                Hfuel2 Hps Hlast Hnet2) as [Hy [w' [rqs [He [Hn [Hf [Hs [Ho Ht]]]]]]]].
    split.
    + rewrite Hy. reflexivity.
    + exists w'.
      exists (goods_search_request s category_id city_id offset limit tok :: rqs).
      split; [exact He|]. split; [exact Hn|]. split.
      { rewrite Hf. subst w2 w1. destruct (truthy (VFloat sleep_sec)); reflexivity. }
      split.
      { rewrite Hs. subst w2 w1.
        destruct (truthy (VFloat sleep_sec)); cbn; now rewrite <- app_assoc. }
      split.
      { cbn [length]. rewrite offsets_step. cbn [map]. rewrite rq_offset_goods.
        f_equal. exact Ho. }
      { cbn [map]. rewrite rq_token_goods. f_equal. rewrite Ht.
        unfold token_of at 1. now rewrite py_or_idem. }
Qed.

End Pages.

(** A page that was fetched took one reply off the script. *)
Lemma goods_search_page_consumes (s : session) (category_id : Z) (city_id : str)
  (offset limit : Z) (token : value) (w w1 : world) (page : value * value) :
  goods_search_page s category_id city_id offset limit token w = (Ok page, w1) ->
  length (net w) = S (length (net w1)).
Proof.
  unfold goods_search_page, session_post, exchange, mbind, lift, ret.
  destruct (net w) as [|[|status body] rest]; simpl; try discriminate.
  destruct (raise_for_status (status, body)); simpl; [|discriminate].
  destruct (json (status, body)) as [data|]; simpl; [|discriminate].
  destruct (attr_get_default data (u "items") (VList [])); simpl; [|discriminate].
  destruct (attr_get_default data (u "token") (VStr [])); simpl; [|discriminate].
  intro H. inversion H. reflexivity.
Qed.

(** The loop does not depend on its fuel once there is more fuel than
    replies to come: the branch that runs out is never taken. *)
Lemma iter_loop_fuel (s : session) (category_id : Z) (city_id : str)
  (limit : Z) (sleep_sec : spec_float) (m : nat) :
  forall (n : nat) (offset : Z) (tok : value) (w : world),
    (length (net w) < m)%nat ->
    (length (net w) < n)%nat ->
    iter_loop rt m s category_id city_id limit sleep_sec offset tok w
    = iter_loop rt n s category_id city_id limit sleep_sec offset tok w.
Proof.
  induction m as [|m IH]; intros n offset tok w Hm Hn; [lia|].
  destruct n as [|n]; [lia|]. cbn [iter_loop].
  destruct (goods_search_page s category_id city_id offset limit tok w)
    as [[[items tok']|e] w1] eqn:G; [|reflexivity].
  apply goods_search_page_consumes in G.
  destruct (negb (truthy items)); [reflexivity|].
  destruct (py_iter items) as [l|e]; [|reflexivity].
  f_equal.
  destruct (truthy (VFloat sleep_sec)).
  - destruct (time_sleep rt sleep_sec); [reflexivity|].
    apply IH; cbn [net add_slept]; lia.
  - apply IH; lia.
Qed.

(** The first turn of the loop on a full page: its in-stock items are
    yielded, in order, in the world the request left. *)
Lemma iter_loop_full_page (s : session) (category_id : Z) (city_id : str)
  (limit : Z) (sleep_sec : spec_float) (f : nat) (offset : Z) (tok : value)
  (w : world) (p : Z * dict) (rest : list response) :
  net w = reply_of p :: rest ->
  full_page p = true ->
  exists next,
    iter_loop rt (S f) s category_id city_id limit sleep_sec offset tok w
    = emit (filter in_stock (page_dicts (snd p)))
        (set_net rest
           (add_sent (goods_search_request s category_id city_id offset limit tok) w))
        next.
Proof.
  intros Hnet Hp.
  unfold full_page in Hp. apply andb_true_iff in Hp as [Hok Hitems].
  destruct (items_of (snd p)) as [| | | | |l|] eqn:El; try discriminate.
  apply andb_true_iff in Hitems as [Hne Hdicts].
  cbn [iter_loop].
  rewrite (goods_search_page_reply s category_id city_id offset limit tok w p _ Hnet Hok).
  rewrite El.
  assert (Htruthy : truthy (VList l) = true)
    by (destruct l; [discriminate | reflexivity]).
  rewrite Htruthy. cbn [negb py_iter].
  rewrite (scan_page_all_dicts l _ _ Hdicts).
  unfold page_dicts. rewrite El. eexists. reflexivity.
Qed.

(** C2. From every page the fetcher emits exactly the items whose quantity
    is a positive integer, in order: an item with quantity 1 or more is
    yielded; one with quantity 0, with no quantity, or with a quantity that
    is not an integer is passed over, and nothing is raised. *)
Theorem in_stock_filter :
  (forall it,
     in_stock it = true
     <-> exists z, int_value (dict_get it (u "quantity")) = Some z /\ 0 < z)
  /\ (forall it z,
        dict_find it (u "quantity") = Some (VInt z) -> in_stock it = (1 <=? z))
  /\ (forall it, dict_find it (u "quantity") = None -> in_stock it = false)
  /\ (forall it q,
        dict_find it (u "quantity") = Some q ->
        isinstance_int q = false -> in_stock it = false)
  /\ (forall items w next,
        scan_page (map VDict items) w next = emit (filter in_stock items) w next)
  /\ (forall s category_id city_id limit sleep_sec w p rest,
        net w = reply_of p :: rest ->
        full_page p = true ->
        exists next,
          iter_coffee_products_in_stock rt s category_id city_id limit sleep_sec w
          = emit (filter in_stock (page_dicts (snd p)))
              (set_net rest
                 (add_sent
                    (goods_search_request s category_id city_id 0 limit (VStr [])) w))
              next).
Proof.
  split; [exact in_stock_iff|]. split; [|split; [|split; [|split]]].
  - intros it z H. unfold in_stock, dict_get, dict_get_default. rewrite H.
    cbn. destruct (Z.ltb_spec 0 z), (Z.leb_spec 1 z); try reflexivity; lia.
  - intros it H. unfold in_stock, dict_get, dict_get_default. now rewrite H.
  - intros it q H Hq. unfold in_stock, dict_get, dict_get_default. rewrite H.
    now rewrite Hq.
  - exact scan_page_dicts.
  - intros s category_id city_id limit sleep_sec w p rest Hnet Hp.
    unfold iter_coffee_products_in_stock.
    exact (iter_loop_full_page s category_id city_id limit sleep_sec _ 0 (VStr [])
             w p rest Hnet Hp).
Qed.

(** C10. An item whose quantity is the boolean true passes the in-stock
    filter and is yielded, true counting as the integer 1; an item whose
    quantity is the boolean false is passed over like a quantity of zero. *)
Theorem in_stock_bool :
  (forall it,
     dict_find it (u "quantity") = Some (VBool true) ->
     isinstance_int (dict_get it (u "quantity")) = true
     /\ int_value (dict_get it (u "quantity")) = Some 1
     /\ in_stock it = true
     /\ forall w next, scan_page [VDict it] w next = Yield it w next)
  /\ (forall it,
        dict_find it (u "quantity") = Some (VBool false) ->
        int_value (dict_get it (u "quantity")) = Some 0
        /\ in_stock it = false
        /\ forall w next, scan_page [VDict it] w next = next).
Proof.
  split; intros it H.
  - assert (E : dict_get it (u "quantity") = VBool true)
      by (unfold dict_get, dict_get_default; now rewrite H).
    assert (S : in_stock it = true) by (unfold in_stock; now rewrite E).
    rewrite E. split; [reflexivity|]. split; [reflexivity|]. split; [exact S|].
    intros w next. cbn [scan_page]. now rewrite S.
  - assert (E : dict_get it (u "quantity") = VBool false)
      by (unfold dict_get, dict_get_default; now rewrite H).
    assert (S : in_stock it = false) by (unfold in_stock; now rewrite E).
    rewrite E. split; [reflexivity|]. split; [exact S|].
    intros w next. cbn [scan_page]. now rewrite S.
Qed.

(** C3. When the script of replies has an empty page, the generator stops at
    the first one: it yields the in-stock items of the full pages before it,
    in order, returns, and leaves every later reply unread, so that no later
    page can change what it yields.  The page requests it makes ask for the
    offsets 0, limit, 2 * limit, ..., one per page, and each echoes the token
    of the reply before it. *)
Theorem pagination_stops_at_first_empty_page
  (s : session) (category_id : Z) (city_id : str) (limit : Z)
  (sleep_sec : spec_float) (pages : list (Z * dict)) (last : Z * dict)
  (rest : list response) (w : world) :
  sleep_succeeds rt sleep_sec ->
  forallb full_page pages = true ->
  empty_page last = true ->
  net w = map reply_of pages ++ reply_of last :: rest ->
  let g := iter_coffee_products_in_stock rt s category_id city_id limit sleep_sec w in
  yielded g = flat_map (fun p => filter in_stock (page_dicts (snd p))) pages
  /\ exists w' rqs,
       ending g = (Ok tt, w')
       /\ net w' = rest
       /\ files w' = files w
       /\ sent w' = sent w ++ rqs
       /\ map rq_offset rqs
          = map (fun i => Some (VInt (Z.of_nat i * limit))) (seq 0 (S (length pages)))
       /\ map rq_token rqs
          = Some (VStr []) :: map (fun p => Some (token_of (snd p))) pages.
Proof.
  intros Hsleep Hfull Hlast Hnet g.
  assert (Hfuel : (length pages < S (length (net w)))%nat).
  { rewrite Hnet, length_app, length_map. lia. }
  exact (iter_loop_pages s category_id city_id limit sleep_sec Hsleep pages
           (S (length (net w))) 0 (VStr []) w last rest Hfuel Hfull Hlast Hnet).
Qed.

(** ** The category walk *)






(** ** City resolution *)

Lemma cities_scan_first (table before after : list (str * str)) (k v key : str) :
  table = before ++ (k, v) :: after ->
  Forall (fun kv => contains (fst kv) key = false) before ->
  contains k key = true ->
  cities_scan table key = Some v.
Proof.
  intros -> Hb Hk. induction Hb as [|[k' v'] before Hk' Hb IH]; simpl.
  - now rewrite Hk.
  - simpl in Hk'. now rewrite Hk'.
Qed.

Lemma cities_scan_none (table : list (str * str)) (key : str) :
  Forall (fun kv => contains (fst kv) key = false) table ->
  cities_scan table key = None.
Proof.
  induction 1 as [|[k v] table Hk Ht IH]; simpl; [reflexivity|].
  simpl in Hk. now rewrite Hk.
Qed.

Lemma known_cities_get (k v : str) :
  In (k, v) KNOWN_CITIES -> cities_get KNOWN_CITIES k = Some v.
Proof.
  intro H. repeat (destruct H as [H|H]; [inversion H; subst; vm_compute; reflexivity|]).
  destruct H.
Qed.

Lemma resolve_city_fias_by_city (city : str) (fias_id : option str) :
  not_given fias_id ->
  city <> [] ->
  resolve_city_fias rt (Some city) fias_id
  = match cities_get KNOWN_CITIES (py_lower rt (py_strip city)) with
    | Some v => Some v
    | None => cities_scan KNOWN_CITIES (py_lower rt (py_strip city))
    end.
Proof.
  intros [-> | ->] Hc; destruct city as [|c r]; try contradiction; reflexivity.
Qed.

Lemma resolve_city_sends (s : session) (city fias_id : option str) (w : world)
  (c : N) (f : str) :
  resolve_city_fias rt city fias_id = Some (c :: f) ->
  sent (snd (resolve_city rt s city fias_id w)) = sent w ++ [city_request s (c :: f)]
  /\ forall city_id city_name fias,
       fst (resolve_city rt s city fias_id w) = Ok (city_id, city_name, fias) ->
       fias = c :: f.
Proof.
  intro H. unfold resolve_city. rewrite H.
  unfold session_post, exchange, mbind, lift, ret.
  fold (city_request s (c :: f)).
  destruct (net w) as [|[|status body] rest]; simpl;
    [split; [reflexivity | discriminate] ..|].
  destruct (raise_for_status (status, body)); simpl;
    [|split; [reflexivity | discriminate]].
  destruct (json (status, body)) as [data|]; simpl;
    [|split; [reflexivity | discriminate]].
  destruct (attr_get_default data (u "cityId") (VStr [])) as [id|]; simpl;
    [|split; [reflexivity | discriminate]].
  destruct (attr_get_default data (u "name") (VStr [])) as [nm|]; simpl;
    [|split; [reflexivity | discriminate]].
  destruct (is_empty (py_strip (py_str rt id))); simpl;
    (split; [reflexivity|]); [discriminate|].
  intros city_id city_name fias E. now inversion E.
Qed.

(** C4, as the code has it.  A geo-identifier that is given and not empty
    always wins and is used with the whitespace around it trimmed.
    Otherwise the city name is trimmed and lowercased and looked up as a key
    of the table, so that a known key resolves whatever its case; without an
    exact match the first key of the table, in its written order, that
    occurs in the normalized name wins; and when nothing resolves the
    function raises the configuration error and sends nothing.  The
    identifier found is the one the city-info request carries and the one
    returned. *)
Theorem resolve_city_policy :
  (forall city c f,
     resolve_city_fias rt city (Some (c :: f)) = Some (py_strip (c :: f)))
  /\ (forall (city : str) fias_id v,
        not_given fias_id -> city <> [] ->
        cities_get KNOWN_CITIES (py_lower rt (py_strip city)) = Some v ->
        resolve_city_fias rt (Some city) fias_id = Some v)
  /\ (forall (city : str) fias_id k v,
        not_given fias_id -> city <> [] ->
        In (k, v) KNOWN_CITIES ->
        py_lower rt (py_strip city) = k ->
        resolve_city_fias rt (Some city) fias_id = Some v)
  /\ (forall (city : str) fias_id before k v after,
        not_given fias_id -> city <> [] ->
        cities_get KNOWN_CITIES (py_lower rt (py_strip city)) = None ->
        KNOWN_CITIES = before ++ (k, v) :: after ->
        Forall (fun kv => contains (fst kv) (py_lower rt (py_strip city)) = false)
          before ->
        contains k (py_lower rt (py_strip city)) = true ->
        resolve_city_fias rt (Some city) fias_id = Some v)
  /\ (forall city fias_id,
        not_given fias_id ->
        (forall c : str, city = Some c -> c <> [] ->
           cities_get KNOWN_CITIES (py_lower rt (py_strip c)) = None
           /\ Forall (fun kv => contains (fst kv) (py_lower rt (py_strip c)) = false)
                KNOWN_CITIES) ->
        resolve_city_fias rt city fias_id = None)
  /\ (forall s city fias_id w,
        resolve_city_fias rt city fias_id = None
        \/ resolve_city_fias rt city fias_id = Some [] ->
        resolve_city rt s city fias_id w = (Raise (RuntimeError no_fias_message), w))
  /\ (forall s city fias_id w c f,
        resolve_city_fias rt city fias_id = Some (c :: f) ->
        sent (snd (resolve_city rt s city fias_id w))
        = sent w ++ [city_request s (c :: f)]
        /\ forall city_id city_name fias,
             fst (resolve_city rt s city fias_id w) = Ok (city_id, city_name, fias) ->
             fias = c :: f)
  /\ resolve_city_fias rt (Some (u "Moscow")) None = Some FIAS_MOSCOW
  /\ resolve_city_fias rt (Some (u "SPB")) None = Some FIAS_SPB
  /\ resolve_city_fias rt (Some (u "Moscow, Russia")) None = Some FIAS_MOSCOW.
Proof.
  split; [reflexivity|].
  split.
  { intros city fias_id v Hf Hc Hg.
    rewrite (resolve_city_fias_by_city city fias_id Hf Hc). now rewrite Hg. }
  split.
  { intros city fias_id k v Hf Hc Hin Hk.
    rewrite (resolve_city_fias_by_city city fias_id Hf Hc), Hk.
    now rewrite (known_cities_get k v Hin). }
  split.
  { intros city fias_id before k v after Hf Hc Hg Ht Hb Hk.
    rewrite (resolve_city_fias_by_city city fias_id Hf Hc), Hg.
    exact (cities_scan_first _ _ _ _ _ _ Ht Hb Hk). }
  split.
  { intros city fias_id Hf Hno.
    destruct city as [[|c r]|].
    - destruct Hf as [-> | ->]; reflexivity.
    - assert (Hc : c :: r <> []) by discriminate.
      rewrite (resolve_city_fias_by_city (c :: r) fias_id Hf Hc).
      destruct (Hno (c :: r) eq_refl Hc) as [Hg Hs].
      rewrite Hg. exact (cities_scan_none _ _ Hs).
    - destruct Hf as [-> | ->]; reflexivity. }
  split.
  { intros s city fias_id w [H | H]; unfold resolve_city; rewrite H; reflexivity. }
  split; [exact resolve_city_sends|].
  repeat split; vm_compute; reflexivity.
Qed.

(** ** The csv file *)

Lemma digits_of_uint_digits (d : Decimal.uint) :
  forallb is_digit (digits_of_uint d) = true.
Proof. induction d; simpl; auto. Qed.

Lemma dec_of_N_digits (n : N) : forallb is_digit (dec_of_N n) = true.
Proof. apply digits_of_uint_digits. Qed.

Lemma dec_of_N_nonempty (n : N) : dec_of_N n <> [].
Proof.
  unfold dec_of_N. destruct n as [|p]; [discriminate|]. simpl.
  pose proof (Unsigned.to_uint_nonnil p) as H.
  destruct (Pos.to_uint p); [contradiction | discriminate ..].
Qed.

Lemma digit_of_mod (k : N) : is_digit (48 + k mod 10) = true.
Proof.
  assert (H : (k mod 10 < 10)%N) by (apply N.mod_lt; discriminate).
  set (r := (k mod 10)%N) in *. clearbody r.
  unfold is_digit. apply andb_true_iff. split; apply N.leb_le; lia.
Qed.

Lemma is_digit_price_char (c : N) : is_digit c = true -> price_char c = true.
Proof. intro H. unfold price_char. now rewrite H. Qed.

Lemma forallb_weaken {A} (p q : A -> bool) (l : list A) :
  (forall a, p a = true -> q a = true) ->
  forallb p l = true -> forallb q l = true.
Proof.
  intro H. induction l as [|a l IH]; simpl; [reflexivity|].
  intro E. apply andb_true_iff in E as [E1 E2].
  now rewrite (H a E1), (IH E2).
Qed.

Lemma format_2f_price_chars (x : spec_float) :
  forallb price_char (format_2f x) = true.
Proof.
  destruct x as [s|s| |s m e]; try (destruct s; reflexivity); try reflexivity.
  unfold format_2f. cbv zeta. rewrite !forallb_app.
  apply andb_true_iff; split; [destruct s; reflexivity|].
  apply andb_true_iff; split.
  { apply (forallb_weaken is_digit price_char); [exact is_digit_price_char|].
    apply dec_of_N_digits. }
  apply andb_true_iff; split; [reflexivity|].
  unfold two_digits. cbn [forallb].
  rewrite (is_digit_price_char _ (digit_of_mod _)).
  now rewrite (is_digit_price_char _ (digit_of_mod _)).
Qed.

Lemma price_char_plain (c : N) :
  price_char c = true ->
  is_special c = false /\ c <> LF /\ Utf8.is_surrogate c = false.
Proof.
  unfold price_char, is_digit, is_special, Utf8.is_surrogate, LF, CR, QUOTE, SEMICOLON.
  intro H.
  assert (R : (48 <= c <= 57 \/ c = 45 \/ c = 46 \/ c = 97 \/ c = 102
               \/ c = 105 \/ c = 110)%N).
  { repeat (apply orb_true_iff in H as [H|H]);
      try (apply N.eqb_eq in H; lia).
    apply andb_true_iff in H as [H1 H2].
    apply N.leb_le in H1. apply N.leb_le in H2. lia. }
  repeat split.
  - repeat (apply orb_false_iff; split); apply N.eqb_neq; lia.
  - lia.
  - apply andb_false_iff. left. apply N.leb_gt. lia.
Qed.

Lemma price_text_plain (p : option spec_float) :
  needs_quotes (price_text p) = false
  /\ line_count (price_text p) = 0%nat
  /\ existsb Utf8.is_surrogate (price_text p) = false.
Proof.
  assert (H : forallb price_char (price_text p) = true).
  { destruct p; [apply format_2f_price_chars | reflexivity]. }
  induction (price_text p) as [|c t IH]; [repeat split|].
  cbn [forallb] in H. apply andb_true_iff in H as [Hc Ht].
  destruct (IH Ht) as [I1 [I2 I3]].
  destruct (price_char_plain c Hc) as [C1 [C2 C3]].
  unfold needs_quotes, line_count in *. cbn [existsb count_occ].
  rewrite C1, C3, I1, I3. repeat split.
  destruct (N.eq_dec c LF); [contradiction | exact I2].
Qed.

Lemma csv_field_price (p : option spec_float) :
  csv_field (price_text p) = price_text p.
Proof.
  unfold csv_field. now rewrite (proj1 (price_text_plain p)).
Qed.

Lemma csv_record_row (r : ProductRow) :
  csv_record (row_fields r) = row_line r.
Proof.
  unfold row_line, row_fields, csv_record.
  destruct (product_id r); cbn [map join]; rewrite !csv_field_price;
    repeat (rewrite <- app_assoc || rewrite <- app_comm_cons); reflexivity.
Qed.

Lemma csv_record_header : csv_record header = header_line.
Proof. vm_compute. reflexivity. Qed.

Lemma file_text_lines (rows : list ProductRow) :
  file_text rows = header_line ++ flat_map row_line rows.
Proof.
  unfold file_text. rewrite csv_record_header. f_equal.
  induction rows as [|r rows IH]; cbn [flat_map]; [reflexivity|].
  now rewrite csv_record_row, IH.
Qed.

Lemma line_count_app (a b : str) :
  line_count (a ++ b) = (line_count a + line_count b)%nat.
Proof. apply count_occ_app. Qed.

Lemma line_count_double_quotes (f : str) :
  line_count (double_quotes f) = line_count f.
Proof.
  unfold line_count, double_quotes.
  induction f as [|c f IH]; [reflexivity|].
  cbn [flat_map]. rewrite count_occ_app, IH.
  destruct (N.eqb_spec c QUOTE) as [->|_]; [reflexivity|].
  cbn [count_occ]. destruct (N.eq_dec c LF); reflexivity.
Qed.

Lemma line_count_csv_field (f : str) : line_count (csv_field f) = line_count f.
Proof.
  unfold csv_field. destruct (needs_quotes f); [|reflexivity].
  change (QUOTE :: double_quotes f ++ [QUOTE])
    with ([QUOTE] ++ double_quotes f ++ [QUOTE]).
  rewrite !line_count_app, line_count_double_quotes.
  change (line_count [QUOTE]) with 0%nat. lia.
Qed.

Lemma line_count_row_line (r : ProductRow) :
  line_count (row_line r)
  = (1 + (line_count (product_id r) + line_count (name r)
          + line_count (brand r) + line_count (city r)))%nat.
Proof.
  unfold row_line. rewrite !line_count_app, !line_count_csv_field.
  rewrite (proj1 (proj2 (price_text_plain (regular_price r)))).
  rewrite (proj1 (proj2 (price_text_plain (promo_price r)))).
  change (line_count [SEMICOLON]) with 0%nat.
  change (line_count [CR; LF]) with 1%nat. lia.
Qed.

Lemma line_count_file_text (rows : list ProductRow) :
  line_count (file_text rows)
  = (length rows + 1 + embedded_line_feeds rows)%nat.
Proof.
  rewrite file_text_lines, line_count_app.
  change (line_count header_line) with 1%nat.
  assert (H : line_count (flat_map row_line rows)
              = (length rows + embedded_line_feeds rows)%nat).
  { unfold embedded_line_feeds.
    induction rows as [|r rows IH]; [reflexivity|].
    cbn [flat_map length map]. unfold list_sum. cbn [fold_right].
    fold (list_sum (map (fun r => (line_count (product_id r) + line_count (name r)
                    + line_count (brand r) + line_count (city r))%nat) rows)).
    rewrite line_count_app, line_count_row_line, IH. lia. }
  rewrite H. lia.
Qed.

Lemma existsb_flat_map {A B} (p : B -> bool) (f : A -> list B) (l : list A) :
  (forall a, In a l -> existsb p (f a) = false) ->
  existsb p (flat_map f l) = false.
Proof.
  induction l as [|a l IH]; intro H; [reflexivity|].
  cbn [flat_map]. rewrite existsb_app, (H a (or_introl eq_refl)).
  apply IH. intros b Hb. apply H. now right.
Qed.

Lemma surrogate_csv_field (f : str) :
  existsb Utf8.is_surrogate f = false ->
  existsb Utf8.is_surrogate (csv_field f) = false.
Proof.
  intro H. unfold csv_field. destruct (needs_quotes f); [|exact H].
  cbn [existsb]. rewrite existsb_app. cbn [existsb].
  change (Utf8.is_surrogate QUOTE) with false. cbn [orb].
  rewrite orb_false_r. unfold double_quotes.
  induction f as [|c f IH]; [reflexivity|].
  cbn [existsb] in H. apply orb_false_iff in H as [Hc Hf].
  cbn [flat_map]. rewrite existsb_app, (IH Hf), orb_false_r.
  destruct (c =? QUOTE)%N; cbn [existsb]; [reflexivity|].
  now rewrite Hc.
Qed.

Lemma surrogate_row_line (r : ProductRow) :
  encodable r = true -> existsb Utf8.is_surrogate (row_line r) = false.
Proof.
  unfold encodable. intro H. apply negb_true_iff in H.
  rewrite !existsb_app in H.
  apply orb_false_iff in H as [H1 H]. apply orb_false_iff in H as [H2 H].
  apply orb_false_iff in H as [H3 H4].
  unfold row_line. rewrite !existsb_app.
  rewrite (surrogate_csv_field _ H1), (surrogate_csv_field _ H2),
    (surrogate_csv_field _ H3), (surrogate_csv_field _ H4).
  rewrite (proj2 (proj2 (price_text_plain (regular_price r)))).
  rewrite (proj2 (proj2 (price_text_plain (promo_price r)))).
  reflexivity.
Qed.

Lemma utf8_bytes_app (a b : str) :
  utf8_bytes (a ++ b) = utf8_bytes a ++ utf8_bytes b.
Proof. unfold utf8_bytes. now rewrite map_app, concat_app. Qed.

Lemma encode_plain (text : str) :
  existsb Utf8.is_surrogate text = false ->
  Utf8.encode text = Some (utf8_bytes text).
Proof. intro H. unfold Utf8.encode. now rewrite H. Qed.

Lemma write_rows_encodable (rows : list ProductRow) :
  forallb encodable rows = true ->
  forall written,
    write_rows rows written
    = (Ok tt, written ++ utf8_bytes (flat_map row_line rows)).
Proof.
  induction rows as [|r rows IH]; intros H written.
  - cbn. now rewrite app_nil_r.
  - cbn [forallb] in H. apply andb_true_iff in H as [Hr Hrows].
    cbn [write_rows flat_map]. rewrite csv_record_row.
    rewrite (encode_plain _ (surrogate_row_line r Hr)).
    rewrite (IH Hrows), utf8_bytes_app. now rewrite app_assoc.
Qed.

Lemma format_2f_two_digits (x : spec_float) :
  Float64.is_finite x = true -> two_fraction_digits (format_2f x).
Proof.
  destruct x as [s|s| |s m e]; try discriminate; intros _.
  - exists s, [48%N], 48%N, 48%N. repeat split. discriminate.
  - exists s,
      (dec_of_N (Z.to_N (Float64.hundredths m e) / 100)),
      (48 + (Z.to_N (Float64.hundredths m e) mod 100 / 10) mod 10)%N,
      (48 + (Z.to_N (Float64.hundredths m e) mod 100) mod 10)%N.
    split; [reflexivity|]. split; [apply dec_of_N_nonempty|].
    split; [apply dec_of_N_digits|]. split; apply digit_of_mod.
Qed.

(** C8, as the code has it.  For N rows whose text can be encoded,
    [write_csv] writes the byte-order mark and then the UTF-8 form of N + 1
    records, each ended by CR LF: the header
    id;name;regular_price;promo_price;brand;city and one record per row, in
    order, its six columns joined by semicolons.  A column that holds a
    semicolon, a quote, a CR or a LF is written between quotes with its quotes
    doubled, so the content has N + 1 lines and one more for every line feed
    inside a column.  An absent price is an empty column, a finite price
    has exactly two fractional digits, and a price that is not finite is
    written as nan, inf or -inf. *)
Theorem write_csv_file (rows : list ProductRow) (out_path : str) (w : world) :
  (forallb encodable rows = true ->
   write_csv rows out_path w
   = (Ok tt, add_file out_path (Utf8.BOM ++ utf8_bytes (file_text rows)) w)
   /\ Utf8.encode (file_text rows) = Some (utf8_bytes (file_text rows)))
  /\ file_text rows = header_line ++ flat_map row_line rows
  /\ line_count (file_text rows)
     = (length rows + 1 + embedded_line_feeds rows)%nat
  /\ price_text None = []
  /\ (forall x,
        Float64.is_finite x = true -> two_fraction_digits (price_text (Some x)))
  /\ (forall x,
        Float64.is_finite x = false ->
        In (price_text (Some x)) [u "nan"; u "inf"; u "-inf"]).
Proof.
  split; [|split; [apply file_text_lines | split; [apply line_count_file_text |]]].
  - intro H.
    assert (S : existsb Utf8.is_surrogate (file_text rows) = false).
    { rewrite file_text_lines, existsb_app.
      change (existsb Utf8.is_surrogate header_line) with false.
      apply existsb_flat_map. intros r Hr. apply surrogate_row_line.
      rewrite forallb_forall in H. now apply H. }
    split; [|exact (encode_plain _ S)].
    unfold write_csv. rewrite csv_record_header.
    change (Utf8.encode header_line) with (Some (utf8_bytes header_line)).
    cbv beta iota. rewrite (write_rows_encodable rows H).
    now rewrite file_text_lines, utf8_bytes_app, app_assoc.
  - split; [reflexivity|]. split.
    + intros x Hx. exact (format_2f_two_digits x Hx).
    + intros [s|[|]| |s m e] Hx; try discriminate; cbn; auto.
Qed.

(** ** The run as a whole *)

Lemma keeps_files_ret {A} (a : A) : keeps_files (ret a).
Proof. intro w. reflexivity. Qed.

Lemma keeps_files_lift {A} (r : result A) : keeps_files (lift r).
Proof. intro w. reflexivity. Qed.

Lemma keeps_files_bind {A B} (m : M A) (k : A -> M B) :
  keeps_files m -> (forall a, keeps_files (k a)) -> keeps_files (mbind m k).
Proof.
  intros Hm Hk w. unfold mbind. specialize (Hm w).
  destruct (m w) as [[a|e] w1]; simpl in *; [|exact Hm].
  now rewrite (Hk a w1).
Qed.

Lemma keeps_files_exchange (rq : request) : keeps_files (exchange rq).
Proof.
  intro w. unfold exchange. destruct (net w) as [|[|status body] rest]; reflexivity.
Qed.

Lemma keeps_files_resolve_city (s : session) (city fias_id : option str) :
  keeps_files (resolve_city rt s city fias_id).
Proof.
  unfold resolve_city.
  destruct (resolve_city_fias rt city fias_id) as [[|c f]|];
    try apply keeps_files_lift.
  apply keeps_files_bind; [apply keeps_files_exchange|]. intro r.
  apply keeps_files_bind; [apply keeps_files_lift|]. intros _.
  apply keeps_files_bind; [apply keeps_files_lift|]. intro data.
  apply keeps_files_bind; [apply keeps_files_lift|]. intro id.
  apply keeps_files_bind; [apply keeps_files_lift|]. intro nm.
  destruct (is_empty _); [apply keeps_files_lift | apply keeps_files_ret].
Qed.

Lemma keeps_files_get_coffee_category_id (s : session) :
  keeps_files (get_coffee_category_id rt s).
Proof.
  unfold get_coffee_category_id.
  apply keeps_files_bind; [apply keeps_files_exchange|]. intro r.
  apply keeps_files_bind; [apply keeps_files_lift|]. intros _.
  apply keeps_files_bind; [apply keeps_files_lift|]. intro data.
  apply keeps_files_bind; [apply keeps_files_lift|]. intro items.
  apply keeps_files_bind; [apply keeps_files_lift|]. intros [c|];
    [apply keeps_files_ret | apply keeps_files_lift].
Qed.

Lemma keeps_files_goods_search_page (s : session) (category_id : Z)
  (city_id : str) (offset limit : Z) (token : value) :
  keeps_files (goods_search_page s category_id city_id offset limit token).
Proof.
  unfold goods_search_page.
  apply keeps_files_bind; [apply keeps_files_exchange|]. intro r.
  apply keeps_files_bind; [apply keeps_files_lift|]. intros _.
  apply keeps_files_bind; [apply keeps_files_lift|]. intro data.
  apply keeps_files_bind; [apply keeps_files_lift|]. intro items.
  apply keeps_files_bind; [apply keeps_files_lift|]. intro tok.
  apply keeps_files_ret.
Qed.

Lemma gen_files_scan_page (fs : list (str * list byte)) (l : list value)
  (w : world) (next : gen) :
  files w = fs -> gen_files fs next -> gen_files fs (scan_page l w next).
Proof.
  intros Hw Hn. induction l as [|v l IH]; [exact Hn|].
  destruct v; cbn [scan_page gen_files]; try exact Hw.
  destruct (in_stock d); [split; [exact Hw | exact IH] | exact IH].
Qed.

Lemma gen_files_iter_loop (s : session) (category_id : Z) (city_id : str)
  (limit : Z) (sleep_sec : spec_float) (fuel : nat) :
  forall offset tok w,
    gen_files (files w)
      (iter_loop rt fuel s category_id city_id limit sleep_sec offset tok w).
Proof.
  induction fuel as [|f IH]; intros offset tok w; [reflexivity|].
  cbn [iter_loop].
  pose proof (keeps_files_goods_search_page s category_id city_id offset limit tok w) as K.
  destruct (goods_search_page s category_id city_id offset limit tok w)
    as [[[items tok']|e] w1]; simpl in K; [|exact K].
  destruct (truthy items); cbn [negb]; [|exact K].
  destruct (py_iter items) as [l|e]; [|exact K].
  apply gen_files_scan_page; [exact K|].
  destruct (truthy (VFloat sleep_sec)).
  - destruct (time_sleep rt sleep_sec); [exact K|].
    rewrite <- K. exact (IH _ _ (add_slept sleep_sec w1)).
  - rewrite <- K. apply IH.
Qed.

Lemma collect_files (fs : list (str * list byte)) (city_name : str) (g : gen) :
  gen_files fs g ->
  forall rows, files (snd (collect rt g city_name rows)) = fs.
Proof.
  induction g as [it w rest IH|w|e w]; intros H rows; cbn [collect];
    [|exact H ..].
  destruct H as [Hw Hrest].
  destruct (to_row rt it city_name); [apply (IH Hrest) | exact Hw].
Qed.

(** [main] with its binds spelled out. *)
Lemma main_run (a : args) (w : world) :
  has_credentials a = true ->
  main rt a w
  = match resolve_city rt (session_of a) (arg_city a) (arg_fias_id a) w with
    | (Raise e, w1) => (Raise e, w1)
    | (Ok (city_id, city_name, fias), w1) =>
        match get_coffee_category_id rt (session_of a) w1 with
        | (Raise e, w2) => (Raise e, w2)
        | (Ok category_id, w2) =>
            match
              collect rt
                (iter_coffee_products_in_stock rt (session_of a) category_id
                   city_id (arg_limit a) DEFAULT_SLEEP w2) city_name []
            with
            | (Raise e, w3) => (Raise e, w3)
            | (Ok rows, w3) =>
                match write_csv rows (arg_out a) w3 with
                | (Raise e, w4) => (Raise e, w4)
                | (Ok _, w4) =>
                    (Ok 0,
                     add_stdout
                       (summary city_name city_id fias (length rows) (arg_out a))
                       w4)
                end
            end
        end
    end.
Proof.
  unfold has_credentials, main. intro H. apply negb_true_iff in H. rewrite H.
  fold (session_of a). unfold mbind.
  destruct (resolve_city rt (session_of a) (arg_city a) (arg_fias_id a) w)
    as [[[[city_id city_name] fias]|e] w1]; [|reflexivity].
  destruct (get_coffee_category_id rt (session_of a) w1)
    as [[category_id|e] w2]; [|reflexivity].
  destruct (collect rt _ city_name []) as [[rows|e] w3]; [|reflexivity].
  destruct (write_csv rows (arg_out a) w3) as [[[]|e] w4]; reflexivity.
Qed.

End Properties.

(** * Further properties

    ** Brand extraction: stripping and tokens *)

Section Brand.

Variable rt : runtime.

(** *** Stripping *)

Lemma lstrip_with_all (p : N -> bool) (s : str) :
  forallb p s = true -> lstrip_with p s = [].
Proof.
  induction s as [|c r IH]; simpl; [reflexivity|].
  intro H. apply andb_true_iff in H as [Hc Hr]. rewrite Hc. exact (IH Hr).
Qed.

Lemma strip_with_all (p : N -> bool) (s : str) :
  forallb p s = true -> strip_with p s = [].
Proof.
  intro H. unfold strip_with. now rewrite (lstrip_with_all p s H).
Qed.

Lemma lstrip_with_suffix (p : N -> bool) (s : str) :
  exists pre, s = pre ++ lstrip_with p s /\ forallb p pre = true.
Proof.
  induction s as [|c r [pre [E F]]]; simpl.
  - exists []. split; reflexivity.
  - destruct (p c) eqn:Pc.
    + exists (c :: pre). simpl. rewrite Pc, F. split; [now f_equal | reflexivity].
    + exists []. split; reflexivity.
Qed.

Lemma lstrip_with_hd (p : N -> bool) (s : str) (d : N) :
  p d = false -> p (hd d (lstrip_with p s)) = false.
Proof.
  intro Hd. induction s as [|c r IH]; simpl; [exact Hd|].
  destruct (p c) eqn:Pc; [exact IH | exact Pc].
Qed.

Lemma rstrip_with_prefix (p : N -> bool) (s : str) :
  exists suf, s = rstrip_with p s ++ suf /\ forallb p suf = true.
Proof.
  unfold rstrip_with.
  destruct (lstrip_with_suffix p (rev s)) as [pre [E F]].
  exists (rev pre). split.
  - rewrite <- rev_app_distr, <- E. now rewrite rev_involutive.
  - rewrite forallb_forall in *. intros x Hx. apply F. now apply in_rev.
Qed.

Lemma strip_with_parts (p : N -> bool) (s : str) :
  exists pre suf,
    s = pre ++ strip_with p s ++ suf
    /\ forallb p pre = true /\ forallb p suf = true.
Proof.
  unfold strip_with.
  destruct (lstrip_with_suffix p s) as [pre [E F]].
  destruct (rstrip_with_prefix p (lstrip_with p s)) as [suf [E' F']].
  exists pre, suf. split; [|split; assumption].
  rewrite <- E'. exact E.
Qed.

Lemma strip_with_In (p : N -> bool) (s : str) (c : N) :
  In c (strip_with p s) -> In c s.
Proof.
  destruct (strip_with_parts p s) as [pre [suf [E _]]].
  intro H. rewrite E. apply in_or_app. right. apply in_or_app. now left.
Qed.

Lemma strip_with_ends (p : N -> bool) (s : str) (d : N) :
  p d = false ->
  p (hd d (strip_with p s)) = false /\ p (last (strip_with p s) d) = false.
Proof.
  intro Hd. split.
  - unfold strip_with.
    destruct (rstrip_with_prefix p (lstrip_with p s)) as [suf [E _]].
    destruct (rstrip_with p (lstrip_with p s)) as [|c r] eqn:R; [exact Hd|].
    pose proof (lstrip_with_hd p s d Hd) as H. rewrite E in H. exact H.
  - unfold strip_with, rstrip_with.
    set (t := lstrip_with p (rev (lstrip_with p s))).
    pose proof (lstrip_with_hd p (rev (lstrip_with p s)) d Hd) as H. fold t in H.
    destruct t as [|c r]; [exact Hd|]. simpl rev. rewrite last_last. exact H.
Qed.

Lemma py_strip_trimmed (s : str) : trimmed (py_strip s) = true.
Proof.
  unfold trimmed, py_strip.
  destruct (strip_with_ends is_space s 0%N eq_refl) as [H1 H2].
  now rewrite H1, H2.
Qed.

(** *** Tokens *)

Lemma split_seps_no_sep (s : str) :
  forall (in_sep : bool) (cur : str),
    forallb (fun c => negb (is_sep c)) cur = true ->
    Forall (fun t => forallb (fun c => negb (is_sep c)) t = true)
      (split_seps in_sep cur s).
Proof.
  induction s as [|c r IH]; intros in_sep cur H; simpl.
  - constructor; [|constructor].
    rewrite forallb_forall in *. intros x Hx. apply H. now apply in_rev.
  - destruct (is_sep c) eqn:C.
    + destruct in_sep; [apply IH; reflexivity|].
      constructor; [|apply IH; reflexivity].
      rewrite forallb_forall in *. intros x Hx. apply H. now apply in_rev.
    + apply IH. simpl. now rewrite C.
Qed.

Lemma split_seps_nonempty (s : str) (in_sep : bool) (cur : str) :
  split_seps in_sep cur s <> [].
Proof.
  revert in_sep cur. induction s as [|c r IH]; intros in_sep cur; simpl;
    [discriminate|].
  destruct (is_sep c); [destruct in_sep; [apply IH | discriminate] | apply IH].
Qed.

Lemma split_seps_blank (s : str) :
  forallb is_sep s = true ->
  forall (in_sep : bool),
    Forall (fun t => t = []) (split_seps in_sep [] s).
Proof.
  induction s as [|c r IH]; intros H in_sep; simpl.
  - repeat constructor.
  - simpl in H. apply andb_true_iff in H as [C R]. rewrite C.
    destruct in_sep; [apply IH; exact R|].
    constructor; [reflexivity | apply IH; exact R].
Qed.

Lemma clean_token_In (t : str) (c : N) :
  In c (clean_token t) -> In c t /\ c <> 171%N /\ c <> 187%N.
Proof.
  unfold clean_token, remove_char, strip_chars, py_strip.
  intro H. apply filter_In in H as [H H1]. apply filter_In in H as [H H2].
  apply strip_with_In in H. apply strip_with_In in H.
  apply negb_true_iff, N.eqb_neq in H1, H2. auto.
Qed.

(** The brand is the empty string or one of the candidates. *)
Lemma extract_brand_candidate (name : str) :
  extract_brand_from_name rt name = []
  \/ In (extract_brand_from_name rt name) (candidates rt name).
Proof.
  unfold extract_brand_from_name, candidates.
  set (tokens := re_split_seps (sub_coffee_prefix rt (py_strip name))).
  destruct (is_empty tokens); [now left|].
  rewrite first_brand_like_find.
  pose proof (first_kept_hd rt tokens) as K.
  set (l := filter (fun tk => negb (is_empty tk) && negb (in_skip rt tk))
             (map clean_token tokens)) in *.
  destruct (find brand_like l) as [tk|] eqn:F.
  - right. now apply find_some in F.
  - rewrite K. destruct l as [|x l']; [now left | right; now left].
Qed.

(** The brand is empty or a token of the name, cleaned, that is neither
    empty nor stoplisted. *)
Lemma brand_is_kept_token (name : str) :
  let b := extract_brand_from_name rt name in
  b = []
  \/ (b <> [] /\ in_skip rt b = false
      /\ exists t,
           In t (re_split_seps (sub_coffee_prefix rt (py_strip name)))
           /\ b = clean_token t).
Proof.
  cbv zeta. destruct (extract_brand_candidate name) as [E|H]; [now left|].
  right. unfold candidates in H. apply filter_In in H as [H K].
  apply andb_true_iff in K as [K1 K2].
  apply negb_true_iff in K1, K2.
  split; [|split; [exact K2|]].
  - intro E. rewrite E in K1. discriminate.
  - apply in_map_iff in H as [t [E H]]. exists t. split; [exact H | now symmetry].
Qed.

Lemma brand_chars (name : str) (c : N) :
  In c (extract_brand_from_name rt name) ->
  is_space c = false /\ c <> 44%N /\ c <> 171%N /\ c <> 187%N.
Proof.
  intro H. destruct (extract_brand_candidate name) as [E|K].
  - rewrite E in H. destruct H.
  - unfold candidates in K. apply filter_In in K as [K _].
    apply in_map_iff in K as [t [E K]]. rewrite <- E in H.
    apply clean_token_In in H as [H [G1 G2]].
    pose proof (split_seps_no_sep (sub_coffee_prefix rt (py_strip name)) false []
                  eq_refl) as S.
    rewrite Forall_forall in S. specialize (S t K).
    rewrite forallb_forall in S. specialize (S c H).
    apply negb_true_iff in S. unfold is_sep in S.
    apply orb_false_iff in S as [S1 S2]. apply N.eqb_neq in S2. auto.
Qed.

(** X1. The brand holds no whitespace, no comma and no guillemet, whatever
    the name is. *)
Theorem brand_is_one_word (name : str) :
  forallb (fun c => negb (is_space c || (c =? 44) || (c =? 171) || (c =? 187))%N)
    (extract_brand_from_name rt name)
  = true.
Proof.
  apply forallb_forall. intros c H.
  destruct (brand_chars name c H) as [S [A [B C]]].
  apply N.eqb_neq in A, B, C. now rewrite S, A, B, C.
Qed.

Lemma candidates_nonempty (name tk : str) :
  In tk (candidates rt name) -> tk <> [] /\ in_skip rt tk = false.
Proof.
  unfold candidates. intro H. apply filter_In in H as [_ K].
  apply andb_true_iff in K as [K1 K2]. apply negb_true_iff in K1, K2.
  split; [|exact K2]. intro E. rewrite E in K1. discriminate.
Qed.

(** The brand is empty exactly when every token is empty or stoplisted once
    cleaned. *)
Lemma brand_empty_iff (name : str) :
  extract_brand_from_name rt name = []
  <-> forall t,
        In t (re_split_seps (sub_coffee_prefix rt (py_strip name))) ->
        clean_token t = [] \/ in_skip rt (clean_token t) = true.
Proof.
  split.
  - intros E t Ht.
    destruct (clean_token t) as [|c r] eqn:C; [now left|]. rewrite <- C.
    destruct (in_skip rt (clean_token t)) eqn:S; [now right|]. exfalso.
    assert (K : In (clean_token t) (candidates rt name)).
    { unfold candidates. apply filter_In. split.
      - apply in_map. exact Ht.
      - rewrite S, C. reflexivity. }
    revert E. unfold extract_brand_from_name.
    fold (candidates rt name) in *.
    set (tokens := re_split_seps (sub_coffee_prefix rt (py_strip name))) in *.
    destruct tokens as [|t0 rest] eqn:T; [destruct Ht|]. cbn [is_empty].
    rewrite first_brand_like_find. fold tokens. 
    pose proof (first_kept_hd rt (t0 :: rest)) as H.
    unfold candidates in K. fold tokens in K. rewrite T in K.
    set (l := filter (fun tk => negb (is_empty tk) && negb (in_skip rt tk))
                (map clean_token (t0 :: rest))) in *.
    assert (N : forall tk, In tk l -> tk <> []).
    { intros tk Htk. unfold l in Htk. apply filter_In in Htk as [_ Q].
      apply andb_true_iff in Q as [Q _]. intro E. rewrite E in Q. discriminate. }
    destruct (find brand_like l) as [tk|] eqn:F.
    + apply find_some in F as [F _]. exact (N tk F).
    + rewrite H. destruct l as [|x l']; [destruct K|]. cbn [hd].
      apply N. now left.
  - intro H. destruct (extract_brand_candidate name) as [E|K]; [exact E|].
    exfalso. pose proof (candidates_nonempty _ _ K) as [N S].
    unfold candidates in K. apply filter_In in K as [K _].
    apply in_map_iff in K as [t [E K]].
    destruct (H t K) as [A|A]; rewrite E in A; congruence.
Qed.

(** The prefix pattern does not match a text that starts with a comma. *)
Lemma lit_ci_comma (lit : str) (l : N) (k : str -> option str) (s : str) :
  (l =? 44)%N = false ->
  lit_ci rt (l :: lit) k (44%N :: s) = None.
Proof.
  intro H. cbn [lit_ci]. unfold ci_char.
  change (cased_range 44) with true. cbv iota.
  change (lower_cp 44) with 44%N. rewrite N.eqb_sym, H. reflexivity.
Qed.

Lemma sub_coffee_prefix_blank (s : str) :
  forallb is_sep s = true -> trimmed s = true -> sub_coffee_prefix rt s = s.
Proof.
  intros B T. unfold sub_coffee_prefix.
  destruct s as [|c r]; [reflexivity|].
  assert (C : c = 44%N).
  { cbn [forallb] in B. apply andb_true_iff in B as [B _].
    unfold trimmed in T. apply andb_true_iff in T as [T _]. cbn [hd] in T.
    apply negb_true_iff in T. unfold is_sep in B. rewrite T in B.
    now apply N.eqb_eq in B. }
  subst c. unfold coffee_prefix, re_seq. cbn [alt].
  change (u "кофе") with (1082 :: u "офе")%N.
  change (u "кофейный") with (1082 :: u "офейный")%N.
  change (u "кофейные") with (1082 :: u "офейные")%N.
  rewrite !lit_ci_comma by reflexivity. reflexivity.
Qed.

(** X2. A name made of whitespace and commas has no brand. *)
Theorem blank_name_has_no_brand (name : str) :
  forallb is_sep name = true -> extract_brand_from_name rt name = [].
Proof.
  intro B. apply brand_empty_iff. intros t Ht. left.
  assert (Bs : forallb is_sep (py_strip name) = true).
  { rewrite forallb_forall in *. intros c Hc. apply B.
    exact (strip_with_In _ _ _ Hc). }
  rewrite (sub_coffee_prefix_blank _ Bs (py_strip_trimmed name)) in Ht.
  pose proof (split_seps_blank _ Bs false) as S.
  rewrite Forall_forall in S. rewrite (S t Ht). reflexivity.
Qed.

End Brand.

(** ** Binary64: exact conversions and the rounding to hundredths *)

Lemma Zdigits2_unique (x n : Z) :
  0 < x -> 2 ^ (n - 1) <= x < 2 ^ n -> Zdigits2 x = n.
Proof.
  intros P [L U]. destruct (Zdigits2_bounds x P) as [L' U'].
  pose proof (Zdigits2_nonneg x) as D.
  assert (N : 0 <= n).
  { destruct (Z.le_gt_cases 0 n); [assumption|].
    rewrite Z.pow_neg_r in U by lia. lia. }
  destruct (Z.lt_trichotomy (Zdigits2 x) n) as [Lt|[Eq|Gt]]; [|exact Eq|].
  - assert (2 ^ Zdigits2 x <= 2 ^ (n - 1)) by (apply Z.pow_le_mono_r; lia). lia.
  - assert (2 ^ n <= 2 ^ (Zdigits2 x - 1)) by (apply Z.pow_le_mono_r; lia). lia.
Qed.

Lemma shr_fexp_value (m e : Z) (l : location) :
  0 <= m ->
  e <= snd (shr_fexp 53 1024 m e l)
  /\ shr_m (fst (shr_fexp 53 1024 m e l))
     = m / 2 ^ (snd (shr_fexp 53 1024 m e l) - e).
Proof.
  intro H. unfold shr_fexp, shr.
  destruct (fexp 53 1024 (Zdigits2 m + e) - e) as [|p|p]; cbn [fst snd].
  - rewrite shr_record_of_loc_m, Z.sub_diag. cbn. rewrite Z.div_1_r. lia.
  - rewrite iter_pos_shr_m; rewrite shr_record_of_loc_m; [|exact H].
    replace (e + Zpos p - e) with (Zpos p) by lia. lia.
  - rewrite shr_record_of_loc_m, Z.sub_diag. cbn. rewrite Z.div_1_r. lia.
Qed.

(** Rounding to binary64, in figures: the exponent the result gets, and how
    far its mantissa is from the operand's. *)
Lemma binary_round_aux_error (sx : bool) (mx ex : Z) (lx : location) :
  0 <= mx ->
  exists b e,
    binary_round_aux 53 1024 sx mx ex lx = rounded sx b e
    /\ 0 <= b /\ ex <= e
    /\ e <= Z.max ex (Z.max (Zdigits2 mx + ex - 52) (-1074))
    /\ (0 < b ->
        Zdigits2 b + e <= Z.max (Zdigits2 mx + ex) (Z.max ex (-1074)) + 1)
    /\ Z.abs (b * 2 ^ (e - ex) - mx) <= 2 * 2 ^ (e - ex).
Proof.
  intros H. unfold binary_round_aux.
  pose proof (shr_fexp_spec mx ex lx H) as [A1 [A2 A3]].
  pose proof (shr_fexp_value mx ex lx H) as [V1 V2].
  destruct (shr_fexp 53 1024 mx ex lx) as [a e'] eqn:E1. cbn [fst snd] in *.
  set (mr := round_nearest_even (shr_m a) (loc_of_shr_record a)).
  pose proof (round_nearest_even_bounds (shr_m a) (loc_of_shr_record a)) as R.
  fold mr in R.
  assert (Hr : 0 <= mr) by lia.
  pose proof (Zdigits2_succ (shr_m a) mr A1 R) as Dr.
  pose proof (shr_fexp_spec mr e' loc_Exact Hr) as [B1 [B2 B3]].
  pose proof (shr_fexp_value mr e' loc_Exact Hr) as [W1 W2].
  destruct (shr_fexp 53 1024 mr e' loc_Exact) as [b e''] eqn:E2.
  cbn [fst snd] in *.
  exists (shr_m b), e''.
  split; [reflexivity|]. split; [exact B1|]. split; [lia|].
  split; [rewrite fexp64 in A2, B2; lia|].
  split.
  { intro Pb. rewrite fexp64 in A2, B2.
    assert (1 <= Zdigits2 (shr_m b)).
    { destruct (shr_m b); try lia. cbn. lia. }
    lia. }
  set (k1 := e' - ex) in *. set (k2 := e'' - e') in *.
  replace (e'' - ex) with (k1 + k2) by (subst k1 k2; lia).
  assert (K1 : 0 <= k1) by (subst k1; lia).
  assert (K2 : 0 <= k2) by (subst k2; lia).
  assert (P1 : 0 < 2 ^ k1) by (apply Z.pow_pos_nonneg; lia).
  assert (P2 : 0 < 2 ^ k2) by (apply Z.pow_pos_nonneg; lia).
  rewrite Z.pow_add_r by lia.
  pose proof (Z.mul_div_le mx (2 ^ k1) P1) as Q1.
  pose proof (Z.mul_succ_div_gt mx (2 ^ k1) P1) as Q2.
  pose proof (Z.mul_div_le mr (2 ^ k2) P2) as Q3.
  pose proof (Z.mul_succ_div_gt mr (2 ^ k2) P2) as Q4.
  rewrite <- V2 in Q1, Q2. rewrite <- W2 in Q3, Q4.
  clearbody k1 k2 mr. clear - Q1 Q2 Q3 Q4 R P1 P2 A1 Hr H B1.
  set (x := 2 ^ k1) in *. set (y := 2 ^ k2) in *. clearbody x y.
  set (av := shr_m a) in *. clearbody av.
  set (bv := shr_m b) in *. clearbody bv.
  apply Z.abs_le. nia.
Qed.

Lemma SFdiv_core_binary_value (m1 m2 : positive) (e1 e2 : Z) :
  let '(q, e', _) := SFdiv_core_binary 53 1024 (Zpos m1) e1 (Zpos m2) e2 in
  e' = Z.min (fexp 53 1024 (Zdigits2 (Zpos m1) + e1 - (Zdigits2 (Zpos m2) + e2)))
         (e1 - e2)
  /\ q = Zpos m1 * 2 ^ (e1 - e2 - e') / Zpos m2.
Proof.
  unfold SFdiv_core_binary.
  set (e' := Z.min (fexp 53 1024 (Zdigits2 (Zpos m1) + e1 - (Zdigits2 (Zpos m2) + e2)))
               (e1 - e2)).
  set (s := e1 - e2 - e').
  assert (Hs : 0 <= s) by (subst s e'; lia).
  set (m' := match s with
             | Zpos _ => Z.shiftl (Zpos m1) s
             | Z0 => Zpos m1
             | Zneg _ => Z0
             end).
  assert (Hm : m' = Zpos m1 * 2 ^ s).
  { subst m'. destruct s as [|p|p] eqn:S; try lia.
    now rewrite Z.shiftl_mul_pow2 by lia. }
  destruct (Z.div_eucl m' (Zpos m2)) as [q r] eqn:E.
  split; [reflexivity|]. fold s. rewrite <- Hm. unfold Z.div. now rewrite E.
Qed.

(** Division of doubles, in figures: the exponent of the quotient and how
    far its mantissa is from the exact quotient. *)
Lemma SFdiv_error (s1 s2 : bool) (m1 m2 : positive) (e1 e2 : Z) :
  let D := Zdigits2 (Zpos m1) + e1 - (Zdigits2 (Zpos m2) + e2) in
  let eq := Z.min (fexp 53 1024 D) (e1 - e2) in
  exists b e,
    SFdiv 53 1024 (S754_finite s1 m1 e1) (S754_finite s2 m2 e2)
    = rounded (xorb s1 s2) b e
    /\ 0 <= b /\ eq <= e /\ e <= Z.max eq (Z.max (D - 51) (-1074))
    /\ (0 < b -> Zdigits2 b + e <= Z.max (D + 2) (-1073))
    /\ Z.abs (b * 2 ^ (e - eq) * Zpos m2 - Zpos m1 * 2 ^ (e1 - e2 - eq))
       <= 3 * 2 ^ (e - eq) * Zpos m2.
Proof.
  cbn [SFdiv]. cbv zeta.
  set (D := Zdigits2 (Zpos m1) + e1 - (Zdigits2 (Zpos m2) + e2)).
  set (eq := Z.min (fexp 53 1024 D) (e1 - e2)).
  pose proof (SFdiv_core_binary_spec m1 m2 e1 e2) as C.
  pose proof (SFdiv_core_binary_value m1 m2 e1 e2) as V.
  destruct (SFdiv_core_binary 53 1024 (Zpos m1) e1 (Zpos m2) e2) as [[q e'] l].
  destruct C as [Q [E T]]. destruct V as [V1 V2].
  fold D in V1, E, T. fold eq in V1. subst e'.
  destruct (binary_round_aux_error (xorb s1 s2) q eq l Q)
    as [b [e [R [B [L [U [G A]]]]]]].
  exists b, e. split; [exact R|]. split; [exact B|]. split; [exact L|].
  split; [rewrite fexp64 in *; lia|].
  split; [intro Pb; specialize (G Pb); rewrite fexp64 in *; lia|].
  set (k := e - eq) in *. set (t := e1 - e2 - eq) in *.
  assert (Pk : 0 < 2 ^ k) by (apply Z.pow_pos_nonneg; subst k; lia).
  assert (P2 : 0 < Zpos m2) by lia.
  pose proof (Z.mul_div_le (Zpos m1 * 2 ^ t) (Zpos m2) P2) as Q1.
  pose proof (Z.mul_succ_div_gt (Zpos m1 * 2 ^ t) (Zpos m2) P2) as Q2.
  rewrite <- V2 in Q1, Q2.
  apply Z.abs_le in A. apply Z.abs_le.
  set (x := 2 ^ k) in *. set (y := Zpos m1 * 2 ^ t) in *.
  clearbody x y. clear - A Q1 Q2 Pk P2 Q B. nia.
Qed.

Lemma iter_xO_value (p d : positive) :
  Zpos (Pos.iter xO p d) = Zpos p * 2 ^ Zpos d.
Proof.
  apply (Pos.iter_ind positive xO p (fun d a => Zpos a = Zpos p * 2 ^ Zpos d)).
  - rewrite (Pos2Z.inj_xO p). change (2 ^ 1) with 2. lia.
  - intros q a H. rewrite (Pos2Z.inj_xO a), H, Pos2Z.inj_succ.
    rewrite Z.pow_succ_r by lia. ring.
Qed.

(** An operand that already is a double is rounded to itself. *)
Lemma binary_round_aux_exact (sx : bool) (m : positive) (e : Z) :
  Zdigits2 (Zpos m) = 53 -> -1021 <= e <= 971 ->
  binary_round_aux 53 1024 sx (Zpos m) e loc_Exact = S754_finite sx m e.
Proof.
  intros D E. unfold binary_round_aux, shr_fexp. rewrite D.
  replace (fexp 53 1024 (53 + e) - e) with 0 by (rewrite fexp64; lia).
  cbn [shr shr_record_of_loc shr_m loc_of_shr_record round_nearest_even].
  rewrite D.
  replace (fexp 53 1024 (53 + e) - e) with 0 by (rewrite fexp64; lia).
  cbn [shr shr_record_of_loc shr_m].
  destruct (Z.leb_spec e (1024 - 53)); [reflexivity | lia].
Qed.

(** [float(n)] is exact for an int of at most 53 bits. *)
Lemma binary_round_exact (sx : bool) (p : positive) :
  Zdigits2 (Zpos p) <= 53 ->
  exists m e,
    binary_round 53 1024 sx p 0 = S754_finite sx m e
    /\ e = Zdigits2 (Zpos p) - 53
    /\ Zpos m = Zpos p * 2 ^ (- e)
    /\ Zdigits2 (Zpos m) = 53.
Proof.
  intro H. unfold binary_round.
  change (Zpos (digits2_pos p)) with (Zdigits2 (Zpos p)).
  set (d := Zdigits2 (Zpos p)) in *.
  assert (D1 : 1 <= d) by (subst d; cbn; lia).
  destruct (Zdigits2_bounds (Zpos p) ltac:(lia)) as [L U]. fold d in L, U.
  rewrite fexp64. unfold shl_align.
  replace (Z.max (d + 0 - 53) (-1074) - 0) with (d - 53) by lia.
  replace (Z.max (d + 0 - 53) (-1074)) with (d - 53) by lia.
  destruct (d - 53) as [|q|q] eqn:K; [| lia |].
  - exists p, 0. rewrite binary_round_aux_exact by (fold d; lia).
    repeat split; lia.
  - assert (V := iter_xO_value p q).
    assert (Dm : Zdigits2 (Zpos (Pos.iter xO p q)) = 53).
    { apply Zdigits2_unique; [lia|]. rewrite V.
      replace (53 - 1) with (d - 1 + Zpos q) by lia.
      replace (2 ^ 53) with (2 ^ (d + Zpos q)) by (f_equal; lia).
      rewrite !Z.pow_add_r by lia.
      assert (0 < 2 ^ Zpos q) by (apply Z.pow_pos_nonneg; lia). nia. }
    exists (Pos.iter xO p q), (Zneg q).
    rewrite binary_round_aux_exact by (try exact Dm; lia).
    repeat split; try lia. exact V.
Qed.

(** The two decimals of a value that is within half a hundredth of the
    integer [z] of hundredths are [z]. *)
Lemma hundredths_nearest (m : positive) (e z : Z) :
  e < 0 ->
  2 * Z.abs (100 * Zpos m - z * 2 ^ (- e)) < 2 ^ (- e) ->
  Float64.hundredths m e = z.
Proof.
  destruct e as [|p|p]; try lia. intros _.
  change (- Zneg p) with (Zpos p). unfold Float64.hundredths.
  assert (P : 0 < 2 ^ Zpos p) by (apply Z.pow_pos_nonneg; lia).
  set (d := 2 ^ Zpos p) in *.
  pose proof (Z.div_mod (100 * Zpos m) d ltac:(lia)) as E.
  pose proof (Z.mod_pos_bound (100 * Zpos m) d P) as B.
  set (q := 100 * Zpos m / d) in *. set (r := (100 * Zpos m) mod d) in *.
  clearbody q r d. intro H. cbv zeta.
  assert (X : 100 * Zpos m - z * d = d * (q - z) + r) by lia.
  rewrite X in H. clear X E.
  assert (T : q - z <= -2 \/ q - z = -1 \/ q - z = 0 \/ 1 <= q - z) by lia.
  destruct (Z.compare_spec (2 * r) d) as [C|C|C];
    destruct T as [T|[T|[T|T]]];
    try lia;
    exfalso;
    destruct (Z.abs_spec (d * (q - z) + r)) as [[_ A]|[_ A]];
    rewrite A in H; nia.
Qed.

(** An integer number of hundredths below 2^48, divided by 100: the quotient
    is a double whose two decimals are that integer. *)
Lemma SFdiv_hundredths (s1 s2 : bool) (m1 m2 : positive) (e1 e2 z : Z) :
  e1 <= 0 -> e2 <= 0 ->
  Zpos m1 = z * 2 ^ (- e1) ->
  Zpos m2 = 100 * 2 ^ (- e2) ->
  Zdigits2 (Zpos m1) + e1 <= 48 ->
  exists m e,
    SFdiv 53 1024 (S754_finite s1 m1 e1) (S754_finite s2 m2 e2)
    = S754_finite (xorb s1 s2) m e
    /\ e <= -10 /\ Float64.hundredths m e = z
    /\ 2 * Z.abs (100 * Zpos m - z * 2 ^ (- e)) < 2 ^ (- e).
Proof.
  intros E1 E2 V1 V2 M1.
  assert (P1 : 0 < 2 ^ (- e1)) by (apply Z.pow_pos_nonneg; lia).
  assert (P2 : 0 < 2 ^ (- e2)) by (apply Z.pow_pos_nonneg; lia).
  assert (Hz : 0 < z) by nia.
  assert (D2 : Zdigits2 (Zpos m2) = 7 - e2).
  { apply Zdigits2_unique; [lia|]. rewrite V2.
    replace (7 - e2 - 1) with (6 + - e2) by lia.
    replace (7 - e2) with (7 + - e2) by lia.
    rewrite !Z.pow_add_r by lia. change (2 ^ 6) with 64. change (2 ^ 7) with 128.
    lia. }
  assert (D1 : - e1 < Zdigits2 (Zpos m1)).
  { destruct (Z.le_gt_cases (Zdigits2 (Zpos m1)) (- e1)) as [Le|Gt]; [|exact Gt].
    pose proof (Zdigits2_lt (Zpos m1) ltac:(lia)) as U.
    assert (2 ^ Zdigits2 (Zpos m1) <= 2 ^ (- e1)) by (apply Z.pow_le_mono_r; lia).
    nia. }
  destruct (SFdiv_error s1 s2 m1 m2 e1 e2) as [b [e [R [B [L [U [_ A]]]]]]].
  rewrite D2 in *. rewrite fexp64 in *.
  set (eq := Z.min (Z.max (Zdigits2 (Zpos m1) + e1 - (7 - e2 + e2) - 53) (-1074))
               (e1 - e2)) in *.
  assert (Ue : e <= -10) by lia.
  assert (Pe : 1024 <= 2 ^ (- e)).
  { change 1024 with (2 ^ 10). apply Z.pow_le_mono_r; lia. }
  assert (Err : Z.abs (100 * b - z * 2 ^ (- e)) <= 300).
  { set (k := e - eq) in *.
    assert (Pk : 0 < 2 ^ k) by (apply Z.pow_pos_nonneg; subst k; lia).
    assert (X : 2 ^ (- e1) * 2 ^ (e1 - e2 - eq) = 2 ^ (- e) * (2 ^ k * 2 ^ (- e2))).
    { rewrite <- !Z.pow_add_r by (subst k eq; lia). f_equal. subst k. lia. }
    rewrite V1, V2 in A.
    replace (z * 2 ^ (- e1) * 2 ^ (e1 - e2 - eq))
      with (z * 2 ^ (- e) * (2 ^ k * 2 ^ (- e2))) in A
      by (rewrite <- (Z.mul_assoc z (2 ^ (- e1))), X; ring).
    set (Y := 2 ^ k * 2 ^ (- e2)) in *.
    assert (PY : 0 < Y) by (subst Y; nia).
    replace (b * 2 ^ k * (100 * 2 ^ (- e2)) - z * 2 ^ (- e) * Y)
      with ((100 * b - z * 2 ^ (- e)) * Y) in A by (subst Y; ring).
    replace (3 * 2 ^ k * (100 * 2 ^ (- e2))) with (300 * Y) in A
      by (subst Y; ring).
    rewrite Z.abs_mul, (Z.abs_eq Y) in A by lia.
    apply Z.mul_le_mono_pos_r in A; assumption. }
  destruct b as [|m|m]; [| |lia].
  - exfalso. rewrite Z.mul_0_r, Z.sub_0_l, Z.abs_opp, Z.abs_eq in Err by nia. nia.
  - exists m, e. split.
    + rewrite R. unfold rounded.
      destruct (Z.leb_spec e 971); [reflexivity | lia].
    + split; [exact Ue|]. split; [apply hundredths_nearest; lia | lia].
Qed.

(** What [float(z)] is for an int below 2^53. *)
Lemma of_Z_exact (z : Z) :
  z <> 0 -> Z.abs z < 2 ^ 53 ->
  exists m e,
    Float64.of_Z z = S754_finite (z <? 0) m e
    /\ e <= 0 /\ Zpos m = Z.abs z * 2 ^ (- e)
    /\ Zdigits2 (Zpos m) + e = Zdigits2 (Z.abs z).
Proof.
  intros N B. unfold Float64.of_Z, Float64.prec, Float64.emax, binary_normalize.
  destruct z as [|p|p]; [congruence| |].
  - assert (D : Zdigits2 (Zpos p) <= 53) by (apply Zdigits2_le; lia).
    destruct (binary_round_exact false p D) as [m [e [R [E [V F]]]]].
    exists m, e. rewrite R. split; [reflexivity|]. split; [lia|].
    split; [exact V|]. cbn [Z.abs]. lia.
  - assert (D : Zdigits2 (Zpos p) <= 53) by (apply Zdigits2_le; lia).
    destruct (binary_round_exact true p D) as [m [e [R [E [V F]]]]].
    exists m, e. rewrite R. split; [reflexivity|]. split; [lia|].
    split; [exact V|]. cbn [Z.abs]. lia.
Qed.

Lemma of_hundredths_exact (s : bool) (p : positive) :
  Zpos p < 2 ^ 48 ->
  exists m e,
    Float64.of_hundredths s (Zpos p) = S754_finite s m e
    /\ Float64.hundredths m e = Zpos p
    /\ e < 0
    /\ 2 * Z.abs (100 * Zpos m - Zpos p * 2 ^ (- e)) < 2 ^ (- e).
Proof.
  intro B. unfold Float64.of_hundredths, Float64.prec, Float64.emax.
  assert (D : Zdigits2 (Zpos p) + 0 <= 48).
  { rewrite Z.add_0_r. apply Zdigits2_le; lia. }
  destruct (SFdiv_hundredths s false p 100 0 0 (Zpos p)
              ltac:(lia) ltac:(lia) ltac:(cbn; lia) eq_refl D)
    as [m [e [R [L [H A]]]]].
  exists m, e. rewrite R, xorb_false_r. split; [reflexivity|].
  split; [exact H|]. split; [lia | exact A].
Qed.

(** Minor units below 10^14 convert exactly: the result is the double for
    z / 100 and prints as such. *)
Lemma money_from_int_cents (z : Z) :
  Z.abs z < 10 ^ 14 ->
  exists x,
    money_from_int (VInt z) = Ok (Some x)
    /\ Float64.is_finite x = true
    /\ x = Float64.of_hundredths (z <? 0) (Z.abs z)
    /\ within_half_cent z x
    /\ price_text (Some x) = cents_text z.
Proof.
  intro B.
  assert (B' : Z.abs z < 2 ^ 48).
  { eapply Z.lt_trans; [exact B | reflexivity]. }
  destruct (Z.eq_dec z 0) as [->|N].
  { exists (S754_zero false). repeat split. }
  assert (B53 : Z.abs z < 2 ^ 53).
  { eapply Z.lt_trans; [exact B' | reflexivity]. }
  destruct (of_Z_exact z N B53) as [mz [ez [F [Ez [Vz Dz]]]]].
  assert (D48 : Zdigits2 (Zpos mz) + ez <= 48).
  { rewrite Dz. apply Zdigits2_le; lia. }
  destruct (SFdiv_hundredths (z <? 0) false mz 7036874417766400 ez (-46)
              (Z.abs z) Ez ltac:(lia) Vz eq_refl D48)
    as [my [ey [Y [_ [Hy _]]]]].
  rewrite xorb_false_r in Y.
  destruct (Z.abs z) as [|p|p] eqn:A; [lia| |lia].
  destruct (of_hundredths_exact (z <? 0) p B') as [mx [ex [X [Hx [Lx Ax]]]]].
  exists (S754_finite (z <? 0) mx ex).
  split; [|split; [reflexivity | split; [now rewrite X|split]]].
  - unfold money_from_int, to_float. rewrite F. cbn [bind].
    unfold Float64.div, Float64.hundred, Float64.prec, Float64.emax.
    rewrite Y. unfold round2. rewrite Hy, X. reflexivity.
  - cbn [within_half_cent]. rewrite A. repeat split; assumption.
  - unfold price_text, format_2f, cents_text. rewrite Hx, A. reflexivity.
Qed.

Lemma money_from_int_converted (z : Z) (p : option spec_float) :
  Z.abs z < 10 ^ 14 -> money_from_int (VInt z) = Ok p -> converted z p.
Proof.
  intros B H. destruct (money_from_int_cents z B) as [x [M [_ [_ [W T]]]]].
  rewrite M in H. inversion H. subst p. exists x. repeat split; assumption.
Qed.

(** The two decimals that rounding keeps are the nearest ones. *)
Lemma hundredths_is_nearest (m : positive) (e : Z) :
  nearest_hundredth m e (Float64.hundredths m e).
Proof.
  unfold nearest_hundredth, Float64.hundredths.
  destruct e as [|p|p]; [reflexivity | reflexivity|].
  change (Zneg p <? 0) with true. cbv iota beta.
  change (- Zneg p) with (Zpos p). cbv zeta.
  assert (P : 0 < 2 ^ Zpos p) by (apply Z.pow_pos_nonneg; lia).
  set (d := 2 ^ Zpos p) in *.
  pose proof (Z.div_mod (100 * Zpos m) d ltac:(lia)) as E.
  pose proof (Z.mod_pos_bound (100 * Zpos m) d P) as B.
  set (q := 100 * Zpos m / d) in *. set (r := (100 * Zpos m) mod d) in *.
  clearbody q r d.
  destruct (Z.compare_spec (2 * r) d) as [C|C|C].
  - destruct (Z.even q) eqn:Ev.
    + replace (100 * Zpos m - q * d) with r by lia.
      rewrite Z.abs_eq by lia. split; [lia | intros _; exact Ev].
    + replace (100 * Zpos m - (q + 1) * d) with (r - d) by lia.
      rewrite Z.abs_neq by lia. split; [lia|]. intros _.
      rewrite Z.even_add, Ev. reflexivity.
  - replace (100 * Zpos m - q * d) with r by lia.
    rewrite Z.abs_eq by lia. split; lia.
  - replace (100 * Zpos m - (q + 1) * d) with (r - d) by lia.
    rewrite Z.abs_neq by lia. split; lia.
Qed.

Lemma round2_rounded_from (y r : spec_float) :
  round2 y = Ok r -> rounded_from y r.
Proof.
  unfold round2, rounded_from.
  destruct y as [s|s| |s m e]; try (intro H; now inversion H).
  intro H. exists (Float64.hundredths m e). split; [apply hundredths_is_nearest|].
  destruct (Float64.of_hundredths s (Float64.hundredths m e));
    try discriminate; now inversion H.
Qed.

(** [money_from_int] is the float of its operand, divided by 100.0 and
    rounded to two decimals. *)
Lemma money_from_int_rounds (v : value) (x : spec_float)
  (p : option spec_float) :
  v <> VNone ->
  to_float v = Ok x ->
  money_from_int v = Ok p ->
  exists r, p = Some r /\ rounded_from (Float64.div x Float64.hundred) r.
Proof.
  intros N F H. unfold money_from_int in H. rewrite F in H.
  destruct v; try congruence; cbn [bind] in H;
    (destruct (round2 (Float64.div x Float64.hundred)) as [r|] eqn:R;
     cbn [bind] in H; [|discriminate]);
    inversion H; exists r; (split; [reflexivity|]);
    exact (round2_rounded_from _ _ R).
Qed.

(** *** Conversions that cannot fail *)

Lemma hundredths_digits (m : positive) (e : Z) :
  0 <= Float64.hundredths m e
  /\ Zdigits2 (Float64.hundredths m e) <= Z.max (Zdigits2 (Zpos m) + e + 8) 1.
Proof.
  pose proof (Zdigits2_lt (Zpos m) ltac:(lia)) as U.
  assert (D : 1 <= Zdigits2 (Zpos m)) by (cbn; lia).
  set (d := Zdigits2 (Zpos m)) in *.
  assert (H100 : 100 * Zpos m < 2 ^ (d + 7)).
  { rewrite Z.pow_add_r by lia. change (2 ^ 7) with 128. lia. }
  unfold Float64.hundredths. destruct e as [|p|p].
  - rewrite Z.mul_1_r. split; [lia|].
    rewrite Z.add_0_r. apply Z.le_trans with (d + 7); [|lia].
    apply Zdigits2_le; lia.
  - assert (P : 0 < 2 ^ Zpos p) by (apply Z.pow_pos_nonneg; lia).
    split; [nia|].
    apply Z.le_trans with (d + 7 + Zpos p); [|lia].
    apply Zdigits2_le; try lia; try nia.
    rewrite (Z.pow_add_r 2 (d + 7)) by lia. nia.
  - assert (P : 0 < 2 ^ Zpos p) by (apply Z.pow_pos_nonneg; lia).
    set (q := 100 * Zpos m / 2 ^ Zpos p).
    assert (Q0 : 0 <= q) by (apply Z.div_pos; lia).
    assert (R : 0 <= (match 2 * ((100 * Zpos m) mod 2 ^ Zpos p) ?= 2 ^ Zpos p with
                      | Eq => if Z.even q then q else q + 1
                      | Lt => q
                      | Gt => q + 1
                      end) <= q + 1).
    { destruct (_ ?= _); [destruct (Z.even q)| |]; lia. }
    cbv zeta. fold q.
    set (n := match _ ?= _ with Eq => _ | Lt => _ | Gt => _ end) in *.
    clearbody n. split; [lia|].
    destruct (Z.le_gt_cases 0 (d + 7 - Zpos p)) as [Le|Gt].
    + apply Z.le_trans with (d + 7 - Zpos p + 1); [|lia].
      apply Zdigits2_le; try lia.
      assert (q < 2 ^ (d + 7 - Zpos p)).
      { apply Z.div_lt_upper_bound; [exact P|].
        rewrite <- Z.pow_add_r by lia.
        replace (Zpos p + (d + 7 - Zpos p)) with (d + 7) by lia. exact H100. }
      rewrite Z.pow_add_r by lia. change (2 ^ 1) with 2. lia.
    + assert (q = 0).
      { apply Z.div_small. split; [lia|].
        apply Z.lt_le_trans with (2 ^ (d + 7)); [exact H100|].
        apply Z.pow_le_mono_r; lia. }
      apply Z.le_trans with 1; [|lia].
      apply Zdigits2_le; lia.
Qed.

(** The quotient of a double by 100 has two decimals that can be read
    back: [round(x / 100.0, 2)] does not overflow. *)
Lemma round2_div_hundred_returns (s : bool) (m : positive) (e : Z) :
  Zdigits2 (Zpos m) <= 53 -> e <= 971 ->
  exists x,
    round2 (Float64.div (S754_finite s m e) Float64.hundred) = Ok x.
Proof.
  intros D E. unfold Float64.div, Float64.hundred, Float64.prec, Float64.emax.
  destruct (SFdiv_error s false m 7036874417766400 e (-46))
    as [b [e' [R [B [_ [_ [G _]]]]]]].
  change (Zdigits2 (Zpos 7036874417766400)) with 53 in G.
  rewrite R. unfold rounded.
  destruct b as [|mb|mb]; [now eexists | | lia].
  destruct (e' <=? 971); [|now eexists].
  specialize (G ltac:(lia)).
  unfold round2.
  destruct (hundredths_digits mb e') as [N0 Nd].
  unfold Float64.of_hundredths, Float64.prec, Float64.emax.
  destruct (Float64.hundredths mb e') as [|n|n] eqn:Hn; [now eexists | | lia].
  pose proof (SFdiv_finite_spec (xorb s false) false n 100 0 0) as F.
  change (Zdigits2 (Zpos 100)) with 7 in F.
  destruct (SFdiv 53 1024 (S754_finite (xorb s false) n 0)
              (S754_finite false 100 0));
    [now eexists | exfalso; lia | contradiction | now eexists].
Qed.

Lemma shl_align_spec (p : positive) (ex' : Z) :
  snd (shl_align p 0 ex') <= 0
  /\ Zdigits2 (Zpos (fst (shl_align p 0 ex'))) + snd (shl_align p 0 ex')
     <= Zdigits2 (Zpos p).
Proof.
  unfold shl_align. destruct (ex' - 0) as [|d|d] eqn:K; cbn [fst snd]; try lia.
  split; [lia|].
  pose proof (Zdigits2_lt (Zpos p) ltac:(lia)) as U.
  assert (D : 1 <= Zdigits2 (Zpos p)) by (cbn; lia).
  assert (Zdigits2 (Zpos (Pos.iter xO p d)) <= Zdigits2 (Zpos p) + Zpos d); [|lia].
  apply Zdigits2_le; try lia. rewrite iter_xO_value, Z.pow_add_r by lia.
  assert (0 < 2 ^ Zpos d) by (apply Z.pow_pos_nonneg; lia). nia.
Qed.

(** [float(z)] overflows only for an int of 2^1023 or more. *)
Lemma of_Z_finite (z : Z) :
  Z.abs z < 2 ^ 1023 -> Float64.is_finite (Float64.of_Z z) = true.
Proof.
  intro B. unfold Float64.of_Z, Float64.prec, Float64.emax, binary_normalize.
  assert (R : forall sx p,
            Zpos p < 2 ^ 1023 ->
            Float64.is_finite (binary_round 53 1024 sx p 0) = true).
  { intros sx p Hp. unfold binary_round.
    pose proof (shl_align_spec p (fexp 53 1024 (Zpos (digits2_pos p) + 0))) as [A1 A2].
    destruct (shl_align p 0 _) as [mz ez]. cbn [fst snd] in *.
    pose proof (binary_round_aux_spec sx (Zpos mz) ez loc_Exact ltac:(lia)) as S.
    assert (Zdigits2 (Zpos p) <= 1023) by (apply Zdigits2_le; lia).
    destruct (binary_round_aux 53 1024 sx (Zpos mz) ez loc_Exact);
      try reflexivity; [lia | contradiction]. }
  destruct z as [|p|p]; [reflexivity | apply R; lia | apply R; lia].
Qed.

(** X4. [money_from_int] returns None for None and for nothing else.  On an
    int it returns a finite price or raises OverflowError, and below 2^1023
    and on a boolean it returns; on a str, a list or a dict it raises
    TypeError. *)
Theorem money_from_int_outcomes :
  (forall v, money_from_int v = Ok None <-> v = VNone)
  /\ (forall v,
        isinstance_int v = true ->
        money_from_int v = Raise OverflowError
        \/ exists x, money_from_int v = Ok (Some x) /\ Float64.is_finite x = true)
  /\ (forall z,
        Z.abs z < 2 ^ 1023 ->
        exists x,
          money_from_int (VInt z) = Ok (Some x) /\ Float64.is_finite x = true)
  /\ (forall b,
        exists x,
          money_from_int (VBool b) = Ok (Some x) /\ Float64.is_finite x = true)
  /\ (forall v,
        match v with VStr _ | VList _ | VDict _ => True | _ => False end ->
        money_from_int v = Raise TypeError).
Proof.
  assert (Conv : forall f,
            match f with
            | S754_zero _ => True
            | S754_finite _ m e => Zdigits2 (Zpos m) <= 53 /\ e <= 971
            | _ => False
            end ->
            exists x,
              round2 (Float64.div f Float64.hundred) = Ok x
              /\ Float64.is_finite x = true).
  { intros f Hf.
    assert (exists x, round2 (Float64.div f Float64.hundred) = Ok x) as [x Hx].
    { destruct f as [s|s| |s m e]; try contradiction.
      - now eexists.
      - destruct Hf. now apply round2_div_hundred_returns. }
    exists x. split; [exact Hx|]. exact (proj1 (round2_div_hundred f x Hf Hx)). }
  split; [|split; [|split; [|split]]].
  - intro v. split; [|intros ->; reflexivity].
    destruct v; try reflexivity; unfold money_from_int;
      destruct (to_float _); cbn [bind]; try discriminate;
      destruct (round2 _); cbn [bind]; discriminate.
  - intros v Hv. destruct v as [|b|z| | | |]; try discriminate.
    + right. destruct (Conv (Float64.of_Z (if b then 1 else 0))) as [x [Hx Fx]].
      { destruct b; cbn; split; lia. }
      exists x. split; [|exact Fx]. unfold money_from_int, to_float. cbn [bind].
      now rewrite Hx.
    + unfold money_from_int, to_float. pose proof (of_Z_spec z) as S.
      destruct (Float64.of_Z z) as [s|s| |s m e] eqn:Z; [|now left|contradiction|].
      * right. destruct (Conv (S754_zero s) I) as [x [Hx Fx]].
        exists x. cbn [bind]. now rewrite Hx.
      * right. destruct (Conv (S754_finite s m e) S) as [x [Hx Fx]].
        exists x. cbn [bind]. now rewrite Hx.
  - intros z B. unfold money_from_int, to_float.
    pose proof (of_Z_spec z) as S. pose proof (of_Z_finite z B) as F.
    destruct (Float64.of_Z z) as [s|s| |s m e] eqn:Z; try discriminate.
    + destruct (Conv (S754_zero s) I) as [x [Hx Fx]].
      exists x. cbn [bind]. now rewrite Hx.
    + destruct (Conv (S754_finite s m e) S) as [x [Hx Fx]].
      exists x. cbn [bind]. now rewrite Hx.
  - intros b. destruct (Conv (Float64.of_Z (if b then 1 else 0))) as [x [Hx Fx]].
    { destruct b; cbn; split; lia. }
    exists x. split; [|exact Fx]. unfold money_from_int, to_float. cbn [bind].
    now rewrite Hx.
  - intros v Hv. destruct v; try contradiction; reflexivity.
Qed.

(** ** Rows *)

Section Rows.

Variable rt : runtime.

Lemma money_from_int_plain (v : value) :
  plain_price v = true ->
  exists p,
    money_from_int v = Ok p /\ price_text p = price_column v
    /\ (v = VNone <-> p = None).
Proof.
  destruct v as [| |z| | | |]; try discriminate.
  - intros _. exists None. repeat split.
  - intro H. apply Z.ltb_lt in H.
    destruct (money_from_int_cents z H) as [x [M [_ [_ [_ T]]]]].
    exists (Some x). split; [exact M|]. split; [exact T|].
    split; discriminate.
Qed.

Lemma promotion_plain (it : dict) :
  plain_item it = true ->
  exists promo,
    promotion it = VDict promo
    /\ plain_price (dict_get promo (u "oldPrice")) = true.
Proof.
  unfold plain_item, promotion, py_or. intro H.
  apply andb_true_iff in H as [_ H].
  destruct (dict_get it (u "promotion")) as [| | | | | |promo]; try discriminate.
  - exists []. split; reflexivity.
  - destruct promo as [|kv promo'].
    + exists []. split; reflexivity.
    + exists (kv :: promo'). split; [reflexivity | exact H].
Qed.

(** X5. On an item of the shape the backend sends [to_row] returns a row.
    Its name is the name of the item, trimmed; its promotional price is the
    price of the item when the item is on promotion, and is absent
    otherwise; its regular price is the old price of an item on promotion
    that has an integer one, and the price of the item otherwise.  Each
    price prints as units, a point and two digits. *)
Theorem to_row_plain_item (it : dict) (city_name : str) :
  plain_item it = true ->
  exists row promo,
    to_row rt it city_name = Ok row
    /\ promotion it = VDict promo
    /\ name row = py_strip (text_of (dict_get it (u "name")))
    /\ price_text (promo_price row)
       = (if truthy (dict_get promo (u "isPromotion"))
          then price_column (dict_get it (u "price")) else [])
    /\ price_text (regular_price row)
       = (if truthy (dict_get promo (u "isPromotion"))
             && isinstance_int (dict_get promo (u "oldPrice"))
          then price_column (dict_get promo (u "oldPrice"))
          else price_column (dict_get it (u "price"))).
Proof.
  intro H. destruct (promotion_plain it H) as [promo [Hp Ho]].
  unfold plain_item in H. apply andb_true_iff in H as [H _].
  apply andb_true_iff in H as [Hprice Hname].
  destruct (money_from_int_plain _ Hprice) as [pp [Mp [Tp _]]].
  destruct (money_from_int_plain _ Ho) as [po [Mo [To _]]].
  set (flag := truthy (dict_get promo (u "isPromotion"))) in *.
  assert (Hn : attr_strip (py_or (dict_get it (u "name")) (VStr []))
               = Ok (py_strip (text_of (dict_get it (u "name"))))).
  { destruct (dict_get it (u "name")) as [| | | |s| |]; try discriminate.
    - reflexivity.
    - destruct s; reflexivity. }
  destruct (to_row_returns rt it promo city_name
              (py_strip (text_of (dict_get it (u "name"))))
              (if flag then pp else None)
              (if flag && isinstance_int (dict_get promo (u "oldPrice"))
               then po else pp) Hp)
    as [row [R [P1 [P2 [P3 _]]]]].
  - fold flag. destruct flag; [exact Mp | reflexivity].
  - fold flag.
    destruct (flag && isinstance_int (dict_get promo (u "oldPrice")));
      [exact Mo | exact Mp].
  - exact Hn.
  - exists row, promo. split; [exact R|]. split; [exact Hp|].
    split; [exact P3|]. rewrite P1, P2. fold flag. split.
    + destruct flag; [exact Tp | reflexivity].
    + destruct (flag && isinstance_int (dict_get promo (u "oldPrice")));
        [exact To | exact Tp].
Qed.

Lemma to_row_texts (it : dict) (city_name : str) (row : ProductRow) :
  to_row rt it city_name = Ok row ->
  attr_strip (py_or (dict_get it (u "name")) (VStr [])) = Ok (name row)
  /\ product_id row
     = py_strip (py_str rt (py_or (py_or (dict_get it (u "productId"))
                                         (dict_get it (u "id"))) (VStr [])))
  /\ brand row = extract_brand_from_name rt (name row)
  /\ city row = city_name.
Proof.
  unfold to_row.
  destruct (attr_get (py_or (dict_get it (u "promotion")) (VDict []))
              (u "isPromotion")) as [flag|]; cbn [bind]; [|discriminate].
  destruct (attr_get (py_or (dict_get it (u "promotion")) (VDict []))
              (u "oldPrice")) as [old_price|]; cbn [bind]; [|discriminate].
  destruct (if truthy flag then money_from_int (dict_get it (u "price"))
            else Ok None) as [pp|]; cbn [bind]; [|discriminate].
  destruct (if truthy flag && isinstance_int old_price
            then money_from_int old_price
            else money_from_int (dict_get it (u "price"))) as [rp|];
    cbn [bind]; [|discriminate].
  destruct (attr_strip (py_or (dict_get it (u "name")) (VStr []))) as [n|];
    cbn [bind]; [|discriminate].
  intro H. inversion H; subst row; cbn. repeat split.
Qed.

(** X6. Whenever [to_row] returns a row, its city is the city given, its
    brand is extracted from its name, and its name and identifier are
    trimmed: the name is the str name of the item, or empty for a false
    name; the identifier is the text of [productId], else of [id], else
    empty. *)
Theorem to_row_text_columns (it : dict) (city_name : str) (row : ProductRow) :
  to_row rt it city_name = Ok row ->
  city row = city_name
  /\ brand row = extract_brand_from_name rt (name row)
  /\ trimmed (name row) = true
  /\ trimmed (product_id row) = true
  /\ (forall s, dict_get it (u "name") = VStr s -> name row = py_strip s)
  /\ (truthy (dict_get it (u "name")) = false -> name row = [])
  /\ (truthy (dict_get it (u "productId")) = true ->
      product_id row = py_strip (py_str rt (dict_get it (u "productId"))))
  /\ (truthy (dict_get it (u "productId")) = false ->
      truthy (dict_get it (u "id")) = true ->
      product_id row = py_strip (py_str rt (dict_get it (u "id"))))
  /\ (truthy (dict_get it (u "productId")) = false ->
      truthy (dict_get it (u "id")) = false ->
      product_id row = []).
Proof.
  intro H. destruct (to_row_texts it city_name row H) as [Hn [Hi [Hb Hc]]].
  split; [exact Hc|]. split; [exact Hb|].
  assert (N : exists s, name row = py_strip s).
  { destruct (py_or (dict_get it (u "name")) (VStr [])); try discriminate.
    inversion Hn. now eexists. }
  split; [destruct N as [s ->]; apply py_strip_trimmed|].
  split; [rewrite Hi; apply py_strip_trimmed|].
  split; [|split; [|split; [|split]]].
  - intros s E. rewrite E in Hn. unfold py_or in Hn.
    destruct s; cbn in Hn; inversion Hn; reflexivity.
  - intro F. unfold py_or in Hn. rewrite F in Hn. cbn in Hn.
    inversion Hn. reflexivity.
  - intro T. rewrite Hi. unfold py_or at 2. rewrite T.
    unfold py_or. now rewrite T.
  - intros F T. rewrite Hi. unfold py_or at 2. rewrite F.
    unfold py_or. now rewrite T.
  - intros F1 F2. rewrite Hi. unfold py_or at 2. rewrite F1.
    unfold py_or. rewrite F2. reflexivity.
Qed.


End Rows.

(** ** Replies *)

Section Replies.

Variable rt : runtime.

Lemma lstrip_with_id (p : N -> bool) (s : str) :
  (forall c, In c s -> p c = false) -> lstrip_with p s = s.
Proof.
  destruct s as [|c r]; [reflexivity|]. intro H. cbn.
  now rewrite (H c (or_introl eq_refl)).
Qed.

Lemma strip_with_id (p : N -> bool) (s : str) :
  (forall c, In c s -> p c = false) -> strip_with p s = s.
Proof.
  intro H. unfold strip_with, rstrip_with.
  rewrite (lstrip_with_id p s H), lstrip_with_id, rev_involutive; [reflexivity|].
  intros c Hc. apply H. now apply in_rev.
Qed.

Lemma is_digit_not_space (c : N) : is_digit c = true -> is_space c = false.
Proof.
  unfold is_digit, is_space, in_range. intro H.
  apply andb_true_iff in H as [L U]. apply N.leb_le in L, U.
  repeat (apply orb_false_iff; split);
    try (apply andb_false_iff; (left; apply N.leb_gt; lia) || (right; apply N.leb_gt; lia));
    apply N.eqb_neq; lia.
Qed.

Lemma dec_of_Z_plain (z : Z) :
  dec_of_Z z <> [] /\ py_strip (dec_of_Z z) = dec_of_Z z.
Proof.
  split.
  - destruct z; cbn [dec_of_Z]; try apply dec_of_N_nonempty. discriminate.
  - apply strip_with_id. intros c Hc.
    assert (D : forall n c, In c (dec_of_N n) -> is_space c = false).
    { intros n c' H. apply is_digit_not_space.
      pose proof (dec_of_N_digits n) as F. rewrite forallb_forall in F. now apply F. }
    destruct z; cbn [dec_of_Z] in Hc; try (eapply D; eassumption).
    destruct Hc as [<-|Hc]; [reflexivity | eapply D; eassumption].
Qed.

(** [resolve_city] once the geo-identifier is known and the reply is a JSON
    object with a good status. *)
Lemma resolve_city_reply (s : session) (city fias_id : option str) (w : world)
  (c : N) (f : str) (status : Z) (body : dict) (rest : list response) :
  resolve_city_fias rt city fias_id = Some (c :: f) ->
  net w = page_reply status body :: rest ->
  ok_status status = true ->
  resolve_city rt s city fias_id w
  = (if is_empty (city_id_of rt body)
     then Raise (RuntimeError (no_city_id_message (c :: f)))
     else Ok (city_id_of rt body, city_name_of rt body city, c :: f),
     set_net rest (add_sent (city_request s (c :: f)) w)).
Proof.
  intros H Hnet Hok. unfold resolve_city. rewrite H.
  unfold session_post, exchange, mbind, lift, ret.
  fold (city_request s (c :: f)). rewrite Hnet. unfold page_reply.
  cbn [fst snd]. unfold raise_for_status. cbn [fst].
  unfold ok_status in Hok. apply negb_true_iff in Hok. rewrite Hok.
  cbn [json snd attr_get_default].
  fold (city_id_of rt body). fold (city_name_of rt body city).
  destruct (is_empty (city_id_of rt body)); reflexivity.
Qed.

(** X9. A reply without [cityId], or with a blank one, raises the
    RuntimeError that names the geo-identifier; a numeric [cityId] is
    returned in decimal and a null one as the text None; without a name in
    the reply the city name is the one asked for. *)
Theorem resolve_city_edge_replies (s : session) (city fias_id : option str)
  (w : world) (c : N) (f : str) (status : Z) (body : dict)
  (rest : list response) :
  resolve_city_fias rt city fias_id = Some (c :: f) ->
  net w = page_reply status body :: rest ->
  ok_status status = true ->
  (dict_find body (u "cityId") = None ->
   fst (resolve_city rt s city fias_id w)
   = Raise (RuntimeError (no_city_id_message (c :: f))))
  /\ (forall t, dict_find body (u "cityId") = Some (VStr t) ->
      py_strip t = [] ->
      fst (resolve_city rt s city fias_id w)
      = Raise (RuntimeError (no_city_id_message (c :: f))))
  /\ (forall n, dict_find body (u "cityId") = Some (VInt n) ->
      fst (resolve_city rt s city fias_id w)
      = Ok (dec_of_Z n, city_name_of rt body city, c :: f))
  /\ (dict_find body (u "cityId") = Some VNone ->
      fst (resolve_city rt s city fias_id w)
      = Ok (u "None", city_name_of rt body city, c :: f))
  /\ (dict_find body (u "name") = None -> city_name_of rt body city = city_or_empty city)
  /\ (forall t, dict_find body (u "name") = Some (VStr t) -> py_strip t <> [] ->
      city_name_of rt body city = py_strip t).
Proof.
  intros H Hnet Hok.
  rewrite (resolve_city_reply s city fias_id w c f status body rest H Hnet Hok).
  cbn [fst]. unfold city_id_of, city_name_of, dict_get_default.
  split; [|split; [|split; [|split; [|split]]]].
  - intro E. rewrite E. reflexivity.
  - intros t E B. rewrite E. cbn [py_str]. rewrite B. reflexivity.
  - intros n E. rewrite E. cbn [py_str].
    destruct (dec_of_Z_plain n) as [N S]. rewrite S.
    destruct (dec_of_Z n); [congruence | reflexivity].
  - intro E. rewrite E. reflexivity.
  - intro E. rewrite E. reflexivity.
  - intros t E B. rewrite E. cbn [py_str]. destruct (py_strip t); congruence.
Qed.

(** *** Whenever [resolve_city] returns *)

(** X8. Whenever [resolve_city] returns, the geo-identifier is the one the
    policy determines and is not empty, the city identifier is not empty
    and trimmed, the city name is the one asked for or a trimmed name from
    the reply, one request was sent, one reply with a good status was read,
    and no file was written. *)
Theorem resolve_city_returns (s : session) (city fias_id : option str)
  (w w' : world) (city_id city_name fias : str) :
  resolve_city rt s city fias_id w = (Ok (city_id, city_name, fias), w') ->
  resolve_city_fias rt city fias_id = Some fias
  /\ fias <> []
  /\ city_id <> [] /\ trimmed city_id = true
  /\ (city_name = city_or_empty city \/ (city_name <> [] /\ trimmed city_name = true))
  /\ sent w' = sent w ++ [city_request s fias]
  /\ files w' = files w
  /\ exists status body,
       net w = page_reply status body :: net w' /\ ok_status status = true.
Proof.
  unfold resolve_city.
  destruct (resolve_city_fias rt city fias_id) as [[|c f]|]; try discriminate.
  unfold session_post, exchange, mbind, lift, ret.
  fold (city_request s (c :: f)).
  destruct (net w) as [|[|status body] rest]; try discriminate.
  cbn [fst snd]. unfold raise_for_status. cbn [fst].
  destruct ((400 <=? status) && (status <? 600)) eqn:St; [discriminate|].
  destruct body as [data|]; [|discriminate]. cbn [json snd].
  destruct data as [| | | | | |body]; try discriminate. cbn [attr_get_default].
  fold (city_id_of rt body). fold (city_name_of rt body city).
  destruct (city_id_of rt body) as [|i r] eqn:I; [discriminate|].
  cbn [is_empty]. intro H. inversion H; subst. clear H.
  split; [reflexivity|]. split; [discriminate|]. split; [discriminate|].
  split; [rewrite <- I; apply py_strip_trimmed|].
  split.
  { unfold city_name_of.
    destruct (py_strip (py_str rt (dict_get_default body (u "name") (VStr []))))
      as [|n0 n] eqn:Nm; [now left|].
    right. split; [discriminate|]. rewrite <- Nm. apply py_strip_trimmed. }
  split; [reflexivity|]. split; [reflexivity|].
  exists status, body. split; [reflexivity|].
  unfold ok_status. now rewrite St.
Qed.

(** X10. A geo-identifier made of whitespace is given, so the city is not
    looked at, and it is empty once trimmed: no request is sent and the
    configuration error is raised. *)
Theorem resolve_city_blank_fias_id (s : session) (city : option str)
  (c : N) (f : str) (w : world) :
  forallb is_space (c :: f) = true ->
  resolve_city rt s city (Some (c :: f)) w
  = (Raise (RuntimeError no_fias_message), w).
Proof.
  intro B. unfold resolve_city, resolve_city_fias, py_strip.
  rewrite (strip_with_all is_space (c :: f) B). reflexivity.
Qed.

(** *** Replies that are no good *)

Lemma goods_search_page_bad_reply (s : session) (category_id : Z)
  (city_id : str) (offset limit : Z) (token : value) (w : world)
  (r : response) (rest : list response) (e : exn) :
  net w = r :: rest ->
  bad_reply r = Some e ->
  goods_search_page s category_id city_id offset limit token w
  = (Raise e,
     set_net rest
       (add_sent (goods_search_request s category_id city_id offset limit token) w)).
Proof.
  intros Hnet Hbad.
  unfold goods_search_page, session_post, exchange, mbind, lift, ret.
  fold (goods_search_request s category_id city_id offset limit token).
  rewrite Hnet. destruct r as [|status body]; cbn in Hbad.
  - inversion Hbad. reflexivity.
  - cbn [fst snd]. unfold raise_for_status. cbn [fst].
    unfold error_status in Hbad.
    destruct ((400 <=? status) && (status <? 600));
      [inversion Hbad; reflexivity|].
    destruct body as [[| | | | | |d]|]; inversion Hbad; reflexivity.
Qed.

Lemma resolve_city_bad_reply (s : session) (city fias_id : option str)
  (w : world) (c : N) (f : str) (r : response) (rest : list response) (e : exn) :
  resolve_city_fias rt city fias_id = Some (c :: f) ->
  net w = r :: rest ->
  bad_reply r = Some e ->
  resolve_city rt s city fias_id w
  = (Raise e, set_net rest (add_sent (city_request s (c :: f)) w)).
Proof.
  intros H Hnet Hbad. unfold resolve_city. rewrite H.
  unfold session_post, exchange, mbind, lift, ret.
  fold (city_request s (c :: f)).
  rewrite Hnet. destruct r as [|status body]; cbn in Hbad.
  - inversion Hbad. reflexivity.
  - cbn [fst snd]. unfold raise_for_status. cbn [fst].
    unfold error_status in Hbad.
    destruct ((400 <=? status) && (status <? 600));
      [inversion Hbad; reflexivity|].
    destruct body as [[| | | | | |d]|]; inversion Hbad; reflexivity.
Qed.

Lemma get_coffee_category_id_bad_reply (s : session) (w : world)
  (r : response) (rest : list response) (e : exn) :
  net w = r :: rest ->
  bad_reply r = Some e ->
  get_coffee_category_id rt s w
  = (Raise e, set_net rest (add_sent (category_request s) w)).
Proof.
  intros Hnet Hbad.
  unfold get_coffee_category_id, session_get, exchange, mbind, lift, ret.
  fold (category_request s).
  rewrite Hnet. destruct r as [|status body]; cbn in Hbad.
  - inversion Hbad. reflexivity.
  - cbn [fst snd]. unfold raise_for_status. cbn [fst].
    unfold error_status in Hbad.
    destruct ((400 <=? status) && (status <? 600));
      [inversion Hbad; reflexivity|].
    destruct body as [[| | | | | |d]|]; inversion Hbad; reflexivity.
Qed.

(** X12. A reply that is no good (none at all, an error status, a body that
    is no JSON object) stops whichever function asked for it, with the
    exception of the reply and with the request recorded; the generator
    stops at its first request. *)
Theorem bad_reply_raises (s : session) (w : world) (r : response)
  (rest : list response) (e : exn) :
  net w = r :: rest ->
  bad_reply r = Some e ->
  (forall city fias_id c f,
     resolve_city_fias rt city fias_id = Some (c :: f) ->
     resolve_city rt s city fias_id w
     = (Raise e, set_net rest (add_sent (city_request s (c :: f)) w)))
  /\ get_coffee_category_id rt s w
     = (Raise e, set_net rest (add_sent (category_request s) w))
  /\ (forall category_id city_id offset limit token,
        goods_search_page s category_id city_id offset limit token w
        = (Raise e,
           set_net rest
             (add_sent
                (goods_search_request s category_id city_id offset limit token) w)))
  /\ (forall category_id city_id limit sleep_sec,
        iter_coffee_products_in_stock rt s category_id city_id limit sleep_sec w
        = Raised e
            (set_net rest
               (add_sent
                  (goods_search_request s category_id city_id 0 limit (VStr [])) w))).
Proof.
  intros Hnet Hbad.
  split; [|split; [|split]].
  - intros city fias_id c f H.
    exact (resolve_city_bad_reply s city fias_id w c f r rest e H Hnet Hbad).
  - exact (get_coffee_category_id_bad_reply s w r rest e Hnet Hbad).
  - intros.
    exact (goods_search_page_bad_reply s category_id city_id offset limit token
             w r rest e Hnet Hbad).
  - intros. unfold iter_coffee_products_in_stock. cbn [iter_loop].
    now rewrite (goods_search_page_bad_reply s category_id city_id 0 limit
                   (VStr []) w r rest e Hnet Hbad).
Qed.

(** *** The walk on any JSON document *)



End Replies.

(** ** The generator *)

Lemma last_cons_default {A} (x : A) (l : list A) (d : A) :
  last (x :: l) d = last l x.
Proof.
  revert x d. induction l as [|a l IH]; intros x d; [reflexivity|].
  change (last (x :: a :: l) d) with (last (a :: l) d).
  now rewrite (IH a d), (IH a x).
Qed.

Section Generator.

Variable rt : runtime.

Section PagesOfItems.

Variables (s : session) (category_id : Z) (city_id : str) (limit : Z).

Variable sleep_sec : spec_float.

Hypothesis sleep_ok : sleep_succeeds rt sleep_sec.

Lemma pauses_step (n : nat) (l : list spec_float) :
  (if truthy (VFloat sleep_sec) then l ++ [sleep_sec] else l) ++ pauses sleep_sec n
  = l ++ pauses sleep_sec (S n).
Proof.
  unfold pauses. destruct (truthy (VFloat sleep_sec)); [|reflexivity].
  cbn [repeat]. now rewrite <- app_assoc.
Qed.

(** The loop over a script that starts with pages of items: their in-stock
    items are yielded in order, and the loop goes on behind them. *)
Lemma iter_loop_prefix (pages : list (Z * dict)) :
  forall (fuel : nat) (offset : Z) (tok : value) (w : world)
         (rest : list response),
    forallb full_page pages = true ->
    net w = map reply_of pages ++ rest ->
    exists w' rqs,
      let g := iter_loop rt (length pages + fuel) s category_id city_id limit
                 sleep_sec offset tok w in
      let g' := iter_loop rt fuel s category_id city_id limit sleep_sec
                  (offset + Z.of_nat (length pages) * limit)
                  (last (map (fun p => token_of (snd p)) pages) tok) w' in
      yielded g = in_stock_items pages ++ yielded g'
      /\ ending g = ending g'
      /\ net w' = rest
      /\ sent w' = sent w ++ rqs /\ length rqs = length pages
      /\ Forall (fun rq => rq_headers rq = s) rqs
      /\ slept w' = slept w ++ pauses sleep_sec (length pages)
      /\ files w' = files w /\ stdout w' = stdout w /\ stderr w' = stderr w.
Proof.
  induction pages as [|p ps IH]; intros fuel offset tok w rest Hfull Hnet.
  - exists w, []. cbn [length Nat.add map last in_stock_items flat_map app].
    rewrite Z.mul_0_l, Z.add_0_r, !app_nil_r. unfold pauses.
    destruct (truthy (VFloat sleep_sec)); cbn [repeat]; rewrite ?app_nil_r;
      repeat split; try assumption; constructor.
  - cbn [forallb] in Hfull. apply andb_true_iff in Hfull as [Hp Hps].
    unfold full_page in Hp. apply andb_true_iff in Hp as [Hok Hitems].
    destruct (items_of (snd p)) as [| | | | |l|] eqn:El; try discriminate.
    apply andb_true_iff in Hitems as [Hne Hdicts].
    cbn [map app] in Hnet.
    set (w1 := set_net (map reply_of ps ++ rest)
                 (add_sent (goods_search_request s category_id city_id offset limit tok) w)).
    set (w2 := if truthy (VFloat sleep_sec) then add_slept sleep_sec w1 else w1).
    assert (Hg : iter_loop rt (length (p :: ps) + fuel) s category_id city_id limit
                   sleep_sec offset tok w
                 = emit (filter in_stock (page_dicts (snd p))) w1
                     (iter_loop rt (length ps + fuel) s category_id city_id limit
                        sleep_sec (offset + limit) (token_of (snd p)) w2)).
    { cbn [length Nat.add iter_loop].
      rewrite (goods_search_page_reply s category_id city_id offset limit tok w p _ Hnet Hok).
      rewrite El.
      assert (Htruthy : truthy (VList l) = true)
        by (destruct l; [discriminate | reflexivity]).
      rewrite Htruthy. cbn [negb py_iter].
      rewrite (scan_page_all_dicts l _ _ Hdicts).
      unfold page_dicts. rewrite El. fold w1. f_equal.
      subst w2. destruct (truthy (VFloat sleep_sec)) eqn:T; [|reflexivity].
      now rewrite (sleep_ok T). }
    assert (Hnet2 : net w2 = map reply_of ps ++ rest).
    { subst w2. destruct (truthy (VFloat sleep_sec)); reflexivity. }
    destruct (IH fuel (offset + limit) (token_of (snd p)) w2 rest Hps Hnet2)
      as [w' [rqs [Hy [He [Hn [Hs [Hl [Hh [Hsl [Hf [Ho Hr]]]]]]]]]]].
    exists w', (goods_search_request s category_id city_id offset limit tok :: rqs).
    cbv zeta. rewrite Hg, yielded_emit, ending_emit.
    replace (offset + Z.of_nat (length (p :: ps)) * limit)
      with (offset + limit + Z.of_nat (length ps) * limit)
      by (cbn [length]; rewrite Nat2Z.inj_succ; ring).
    replace (last (map (fun p0 => token_of (snd p0)) (p :: ps)) tok)
      with (last (map (fun p0 => token_of (snd p0)) ps) (token_of (snd p))).
    2:{ cbn [map]. now rewrite last_cons_default. }
    split.
    { rewrite Hy. unfold in_stock_items. cbn [flat_map].
      now rewrite app_assoc. }
    split; [exact He|]. split; [exact Hn|].
    split.
    { rewrite Hs. subst w2 w1.
      destruct (truthy (VFloat sleep_sec)); cbn; now rewrite <- app_assoc. }
    split; [cbn [length]; now rewrite Hl|].
    split; [constructor; [reflexivity | exact Hh]|].
    split.
    { rewrite Hsl. cbn [length]. rewrite <- pauses_step. f_equal.
      subst w2 w1. destruct (truthy (VFloat sleep_sec)); reflexivity. }
    split.
    { rewrite Hf. subst w2 w1. destruct (truthy (VFloat sleep_sec)); reflexivity. }
    split.
    { rewrite Ho. subst w2 w1. destruct (truthy (VFloat sleep_sec)); reflexivity. }
    { rewrite Hr. subst w2 w1. destruct (truthy (VFloat sleep_sec)); reflexivity. }
Qed.

End PagesOfItems.

Lemma iter_fuel_split (pages : list (Z * dict)) (rest : list response) (w : world) :
  net w = map reply_of pages ++ rest ->
  S (length (net w)) = (length pages + S (length rest))%nat.
Proof. intro H. rewrite H, length_app, length_map. lia. Qed.

(** X13. Over pages of items and then an empty page the generator returns,
    having paused once for every page of items and printed nothing. *)
Theorem pauses_once_per_page (s : session) (category_id : Z) (city_id : str)
  (limit : Z) (sleep_sec : spec_float) (pages : list (Z * dict))
  (last_page : Z * dict) (rest : list response) (w : world) :
  sleep_succeeds rt sleep_sec ->
  forallb full_page pages = true ->
  empty_page last_page = true ->
  net w = map reply_of pages ++ reply_of last_page :: rest ->
  exists w',
    ending (iter_coffee_products_in_stock rt s category_id city_id limit sleep_sec w)
    = (Ok tt, w')
    /\ slept w'
       = slept w ++ (if truthy (VFloat sleep_sec)
                     then repeat sleep_sec (length pages) else [])
    /\ stdout w' = stdout w /\ stderr w' = stderr w.
Proof.
  intros Hsleep Hfull Hlast Hnet. unfold iter_coffee_products_in_stock.
  rewrite (iter_fuel_split pages _ w Hnet).
  destruct (iter_loop_prefix s category_id city_id limit sleep_sec Hsleep pages
              (S (length (reply_of last_page :: rest))) 0 (VStr []) w _ Hfull Hnet)
    as [w' [rqs [_ [He [Hn [_ [_ [_ [Hsl [_ [Ho Hr]]]]]]]]]]].
  cbv zeta in He. rewrite He. cbn [iter_loop].
  unfold empty_page in Hlast. apply andb_true_iff in Hlast as [Hok Hitems].
  rewrite (goods_search_page_reply s category_id city_id _ limit _ w' last_page rest Hn Hok).
  rewrite Hitems. cbn [ending]. eexists. split; [reflexivity|].
  cbn [slept stdout stderr set_net add_sent]. fold (pauses sleep_sec (length pages)).
  repeat split; assumption.
Qed.

Lemma iter_run_fails (s : session) (category_id : Z) (city_id : str)
  (limit : Z) (sleep_sec : spec_float) (pages : list (Z * dict))
  (r : response) (e : exn) (rest : list response) (w : world) :
  sleep_succeeds rt sleep_sec ->
  forallb full_page pages = true ->
  bad_reply r = Some e ->
  net w = map reply_of pages ++ r :: rest ->
  let g := iter_coffee_products_in_stock rt s category_id city_id limit sleep_sec w in
  yielded g = in_stock_items pages
  /\ exists w',
       ending g = (Raise e, w')
       /\ net w' = rest
       /\ length (sent w') = (length (sent w) + length pages + 1)%nat
       /\ files w' = files w.
Proof.
  intros Hsleep Hfull Hbad Hnet. unfold iter_coffee_products_in_stock.
  rewrite (iter_fuel_split pages _ w Hnet).
  destruct (iter_loop_prefix s category_id city_id limit sleep_sec Hsleep pages
              (S (length (r :: rest))) 0 (VStr []) w _ Hfull Hnet)
    as [w' [rqs [Hy [He [Hn [Hs [Hl [_ [_ [Hf _]]]]]]]]]].
  cbv zeta in *. rewrite Hy, He. cbn [iter_loop].
  rewrite (goods_search_page_bad_reply s category_id city_id _ limit _ w' r rest e Hn Hbad).
  cbn [yielded ending]. rewrite app_nil_r. split; [reflexivity|].
  eexists. split; [reflexivity|].
  cbn [net sent files set_net add_sent].
  rewrite Hs, !length_app, Hl. cbn [length].
  split; [reflexivity|]. split; [lia | exact Hf].
Qed.

(** X14. An item that is no object has no [get]: the page stops there with
    AttributeError, after the in-stock items before it were yielded. *)
Theorem malformed_item_stops_page (before : list dict) (v : value)
  (after : list value) (w : world) (next : gen) :
  is_dict v = false ->
  scan_page (map VDict before ++ v :: after) w next
  = emit (filter in_stock before) w (Raised AttributeError w).
Proof.
  intro H. induction before as [|it before IH]; cbn [map app scan_page filter emit fold_right].
  - destruct v; try reflexivity. discriminate.
  - destruct (in_stock it); cbn [fold_right]; [f_equal|]; exact IH.
Qed.

End Generator.

(** ** CSV records *)

Lemma closes_field_cases (t : N) :
  closes_field t = true -> t = SEMICOLON \/ t = CR.
Proof.
  unfold closes_field. intro H. apply orb_true_iff in H as [H|H];
    apply N.eqb_eq in H; auto.
Qed.

Lemma read_unquoted (f : str) :
  forall (cur : str) (fields : list str) (t : N) (more : str),
    needs_quotes f = false ->
    closes_field t = true ->
    read_record_from InField cur fields (f ++ t :: more)
    = field_read t (rev cur ++ f) fields more.
Proof.
  induction f as [|c f IH]; intros cur fields t more Hq Ht.
  - cbn [app read_record_from]. rewrite app_nil_r. unfold field_read.
    destruct (closes_field_cases t Ht) as [->| ->]; reflexivity.
  - cbn [needs_quotes existsb] in Hq. apply orb_false_iff in Hq as [Hc Hf].
    unfold is_special in Hc.
    apply orb_false_iff in Hc as [Hc H4]. apply orb_false_iff in Hc as [Hc H3].
    apply orb_false_iff in Hc as [H1 H2].
    cbn [app read_record_from]. rewrite H1. unfold ends_record. rewrite H3, H4.
    cbn [orb]. rewrite (IH (c :: cur) fields t more Hf Ht).
    cbn [rev]. now rewrite <- app_assoc.
Qed.

Lemma read_quoted (f : str) :
  forall (cur : str) (fields : list str) (t : N) (more : str),
    closes_field t = true ->
    read_record_from InQuoted cur fields (double_quotes f ++ QUOTE :: t :: more)
    = field_read t (rev cur ++ f) fields more.
Proof.
  induction f as [|c f IH]; intros cur fields t more Ht.
  - cbn. rewrite app_nil_r. unfold field_read.
    destruct (closes_field_cases t Ht) as [->| ->]; reflexivity.
  - unfold double_quotes. cbn [flat_map]. fold (double_quotes f).
    destruct (c =? QUOTE)%N eqn:Q.
    + apply N.eqb_eq in Q. subst c. cbn [app read_record_from].
      change (QUOTE =? QUOTE)%N with true. cbv iota.
      rewrite (IH (QUOTE :: cur) fields t more Ht).
      cbn [rev]. now rewrite <- app_assoc.
    + cbn [app read_record_from]. rewrite Q.
      rewrite (IH (c :: cur) fields t more Ht).
      cbn [rev]. now rewrite <- app_assoc.
Qed.

(** One field as the writer puts it, read from the start of a field. *)
Lemma read_csv_field (st : reader_state) (f : str) (fields : list str)
  (t : N) (more : str) :
  st = StartRecord \/ st = StartField ->
  closes_field t = true ->
  (st = StartRecord -> f = [] -> t = SEMICOLON) ->
  read_record_from st [] fields (csv_field f ++ t :: more)
  = field_read t f fields more.
Proof.
  intros Hst Ht Hedge. unfold csv_field.
  destruct (needs_quotes f) eqn:Q.
  - cbn [app]. rewrite <- app_assoc. cbn [app].
    assert (E : read_record_from st [] fields
                  (QUOTE :: double_quotes f ++ QUOTE :: t :: more)
                = read_record_from InQuoted [] fields
                    (double_quotes f ++ QUOTE :: t :: more)).
    { destruct Hst as [-> | ->]; reflexivity. }
    rewrite E. exact (read_quoted f [] fields t more Ht).
  - destruct f as [|c f].
    + cbn [app]. unfold field_read.
      destruct (closes_field_cases t Ht) as [->| ->].
      * destruct Hst as [-> | ->]; reflexivity.
      * destruct Hst as [-> | ->]; [|reflexivity].
        specialize (Hedge eq_refl eq_refl). discriminate.
    + pose proof Q as Q'.
      cbn [needs_quotes existsb] in Q. apply orb_false_iff in Q as [Hc Hf].
      unfold is_special in Hc.
      apply orb_false_iff in Hc as [Hc H4]. apply orb_false_iff in Hc as [Hc H3].
      apply orb_false_iff in Hc as [H1 H2].
      assert (E : read_record_from st [] fields ((c :: f) ++ t :: more)
                  = read_record_from InField [c] fields (f ++ t :: more)).
      { destruct Hst as [-> | ->]; cbn [app read_record_from];
          rewrite H1, H2; unfold ends_record; rewrite H3, H4; reflexivity. }
      rewrite E. exact (read_unquoted f [c] fields t more Hf Ht).
Qed.

Lemma read_fields (fs : list str) :
  forall (f : str) (fields : list str) (more : str),
    read_record_from StartField [] fields
      (join SEMICOLON (map csv_field (f :: fs)) ++ CR :: more)
    = Some (rev fields ++ f :: fs).
Proof.
  induction fs as [|g fs IH]; intros f fields more.
  - cbn [map join].
    rewrite (read_csv_field StartField f fields CR more);
      [|now right | reflexivity | discriminate].
    unfold field_read. cbn. reflexivity.
  - change (join SEMICOLON (map csv_field (f :: g :: fs)))
      with (csv_field f ++ SEMICOLON :: join SEMICOLON (map csv_field (g :: fs))).
    rewrite <- app_assoc. cbn [app].
    rewrite (read_csv_field StartField f fields SEMICOLON);
      [|now right | reflexivity | discriminate].
    unfold field_read. change (SEMICOLON =? SEMICOLON)%N with true. cbv iota.
    rewrite (IH g (f :: fields) more). cbn [rev]. now rewrite <- app_assoc.
Qed.

(** X15. A record as [csv_record] writes it reads back, by a reader of the
    same dialect, as the fields it was written from, whatever text follows
    it: quoting loses nothing. *)
Theorem csv_record_reads_back (fields : list str) (more : str) :
  read_record (csv_record fields ++ more) = Some fields.
Proof.
  unfold read_record.
  destruct fields as [|f fs]; [reflexivity|].
  destruct fs as [|g fs].
  - destruct f as [|c f]; [reflexivity|].
    unfold csv_record. cbn [map join]. rewrite <- app_assoc. cbn [app].
    rewrite (read_csv_field StartRecord (c :: f) [] CR (LF :: more));
      [reflexivity | now left | reflexivity | discriminate].
  - assert (E : csv_record (f :: g :: fs) ++ more
                = csv_field f
                  ++ SEMICOLON
                     :: (join SEMICOLON (map csv_field (g :: fs)) ++ CR :: LF :: more)).
    { unfold csv_record.
      change (join SEMICOLON (map csv_field (f :: g :: fs)))
        with (csv_field f ++ SEMICOLON :: join SEMICOLON (map csv_field (g :: fs))).
      destruct f; rewrite <- !app_assoc; cbn [app]; rewrite <- ?app_assoc;
        reflexivity. }
    rewrite E.
    rewrite (read_csv_field StartRecord f [] SEMICOLON);
      [|now left | reflexivity | reflexivity].
    unfold field_read. change (SEMICOLON =? SEMICOLON)%N with true. cbv iota.
    rewrite (read_fields fs g [f]). reflexivity.
Qed.

(** *** A row that cannot be encoded *)

Lemma existsb_csv_field (p : N -> bool) (f : str) :
  existsb p f = true -> existsb p (csv_field f) = true.
Proof.
  intro H. unfold csv_field. destruct (needs_quotes f); [|exact H].
  cbn [existsb]. rewrite existsb_app. apply orb_true_iff. right.
  apply orb_true_iff. left.
  apply existsb_exists in H as [c [Hc Pc]]. apply existsb_exists.
  exists c. split; [|exact Pc]. unfold double_quotes. apply in_flat_map.
  exists c. split; [exact Hc|].
  destruct (c =? QUOTE)%N eqn:Q; [apply N.eqb_eq in Q |]; now left.
Qed.

Lemma row_line_not_encodable (r : ProductRow) :
  encodable r = false -> Utf8.encode (csv_record (row_fields r)) = None.
Proof.
  intro H. rewrite csv_record_row. unfold Utf8.encode.
  assert (S : existsb Utf8.is_surrogate (row_line r) = true).
  { unfold encodable in H. apply negb_false_iff in H.
    rewrite !existsb_app in H. unfold row_line. rewrite !existsb_app.
    repeat (apply orb_true_iff in H as [H|H]);
      apply (existsb_csv_field Utf8.is_surrogate) in H; rewrite H;
      rewrite ?orb_true_r; reflexivity. }
  now rewrite S.
Qed.

(** X16. At the first row that cannot be encoded [write_csv] raises
    UnicodeEncodeError, and the file holds the byte-order mark, the header
    and the rows before that one. *)
Theorem write_csv_stops_at_unencodable_row (before : list ProductRow)
  (r : ProductRow) (after : list ProductRow) (out_path : str) (w : world) :
  forallb encodable before = true ->
  encodable r = false ->
  write_csv (before ++ r :: after) out_path w
  = (Raise UnicodeEncodeError,
     add_file out_path (Utf8.BOM ++ utf8_bytes (file_text before)) w).
Proof.
  intros Hb Hr. unfold write_csv. rewrite csv_record_header.
  change (Utf8.encode header_line) with (Some (utf8_bytes header_line)).
  cbv beta iota.
  assert (W : forall written,
            write_rows (before ++ r :: after) written
            = (Raise UnicodeEncodeError,
               written ++ utf8_bytes (flat_map row_line before))).
  { clear w. induction before as [|b before IH]; intro written.
    - cbn [app write_rows]. rewrite (row_line_not_encodable r Hr).
      cbn. now rewrite app_nil_r.
    - cbn [forallb] in Hb. apply andb_true_iff in Hb as [Hb1 Hb2].
      cbn [app write_rows flat_map]. rewrite csv_record_row.
      rewrite (encode_plain _ (surrogate_row_line b Hb1)).
      rewrite (IH Hb2), utf8_bytes_app. now rewrite app_assoc. }
  rewrite W. rewrite file_text_lines, utf8_bytes_app, app_assoc. reflexivity.
Qed.

(** ** The run *)

Section Run.

Variable rt : runtime.



Lemma write_csv_encodable (rows : list ProductRow) (out_path : str) (w : world) :
  forallb encodable rows = true ->
  write_csv rows out_path w
  = (Ok tt, add_file out_path (Utf8.BOM ++ utf8_bytes (file_text rows)) w).
Proof.
  intro H. unfold write_csv. rewrite csv_record_header.
  change (Utf8.encode header_line) with (Some (utf8_bytes header_line)).
  cbv beta iota. rewrite (write_rows_encodable rows H).
  now rewrite file_text_lines, utf8_bytes_app, app_assoc.
Qed.



(** *** The requests of a run *)

Lemma starts_with_app (p x : str) : starts_with p (p ++ x) = true.
Proof.
  induction p as [|c p IH]; [reflexivity|]. cbn. now rewrite N.eqb_refl, IH.
Qed.

Lemma only_requests_refl (s : session) (w : world) : only_requests s w w.
Proof.
  split; [|repeat split]. exists []. split; [now rewrite app_nil_r | constructor].
Qed.

Lemma only_requests_trans (s : session) (w1 w2 w3 : world) :
  only_requests s w1 w2 -> only_requests s w2 w3 -> only_requests s w1 w3.
Proof.
  intros [[r1 [E1 F1]] [A1 [B1 C1]]] [[r2 [E2 F2]] [A2 [B2 C2]]].
  split; [|repeat split; congruence].
  exists (r1 ++ r2). split.
  - now rewrite E2, E1, app_assoc.
  - apply Forall_app. now split.
Qed.

Lemma only_requests_slept (s : session) (x : spec_float) (w : world) :
  only_requests s w (add_slept x w).
Proof.
  split; [|repeat split]. exists []. split; [cbn; now rewrite app_nil_r | constructor].
Qed.

Lemma M_only_requests_ret (s : session) {A} (a : A) : M_only_requests s (ret a).
Proof. intro w. apply only_requests_refl. Qed.

Lemma M_only_requests_lift (s : session) {A} (r : result A) : M_only_requests s (lift r).
Proof. intro w. apply only_requests_refl. Qed.

Lemma M_only_requests_bind (s : session) {A B} (m : M A) (k : A -> M B) :
  M_only_requests s m -> (forall a, M_only_requests s (k a)) -> M_only_requests s (mbind m k).
Proof.
  intros Hm Hk w. unfold mbind. specialize (Hm w).
  destruct (m w) as [[a|e] w1]; cbn [snd] in *; [|exact Hm].
  exact (only_requests_trans s _ _ _ Hm (Hk a w1)).
Qed.

Lemma M_only_requests_exchange (s : session) (rq : request) :
  from_session s rq -> M_only_requests s (exchange rq).
Proof.
  intros H w. unfold exchange.
  destruct (net w) as [|[|status body] rest]; cbn [snd];
    (split; [exists [rq]; split; [reflexivity | now constructor] | repeat split]).
Qed.

Lemma M_only_requests_resolve_city (s : session) (city fias_id : option str) :
  M_only_requests s (resolve_city rt s city fias_id).
Proof.
  unfold resolve_city.
  destruct (resolve_city_fias rt city fias_id) as [[|c f]|];
    try apply M_only_requests_lift.
  apply M_only_requests_bind.
  { apply M_only_requests_exchange. split; [reflexivity | apply starts_with_app]. }
  intro r.
  apply M_only_requests_bind; [apply M_only_requests_lift|]. intros _.
  apply M_only_requests_bind; [apply M_only_requests_lift|]. intro data.
  apply M_only_requests_bind; [apply M_only_requests_lift|]. intro id.
  apply M_only_requests_bind; [apply M_only_requests_lift|]. intro nm.
  destruct (is_empty _); [apply M_only_requests_lift | apply M_only_requests_ret].
Qed.

Lemma M_only_requests_get_coffee_category_id (s : session) :
  M_only_requests s (get_coffee_category_id rt s).
Proof.
  unfold get_coffee_category_id.
  apply M_only_requests_bind.
  { apply M_only_requests_exchange. split; [reflexivity | apply starts_with_app]. }
  intro r.
  apply M_only_requests_bind; [apply M_only_requests_lift|]. intros _.
  apply M_only_requests_bind; [apply M_only_requests_lift|]. intro data.
  apply M_only_requests_bind; [apply M_only_requests_lift|]. intro items.
  apply M_only_requests_bind; [apply M_only_requests_lift|]. intros [c|];
    [apply M_only_requests_ret | apply M_only_requests_lift].
Qed.

Lemma M_only_requests_goods_search_page (s : session) (category_id : Z)
  (city_id : str) (offset limit : Z) (token : value) :
  M_only_requests s (goods_search_page s category_id city_id offset limit token).
Proof.
  unfold goods_search_page.
  apply M_only_requests_bind.
  { apply M_only_requests_exchange. split; [reflexivity | apply starts_with_app]. }
  intro r.
  apply M_only_requests_bind; [apply M_only_requests_lift|]. intros _.
  apply M_only_requests_bind; [apply M_only_requests_lift|]. intro data.
  apply M_only_requests_bind; [apply M_only_requests_lift|]. intro items.
  apply M_only_requests_bind; [apply M_only_requests_lift|]. intro tok.
  apply M_only_requests_ret.
Qed.

Lemma gen_only_requests_scan_page (s : session) (w0 : world) (l : list value)
  (w : world) (next : gen) :
  only_requests s w0 w -> gen_only_requests s w0 next ->
  gen_only_requests s w0 (scan_page l w next).
Proof.
  intros Hw Hn. induction l as [|v l IH]; [exact Hn|].
  destruct v; cbn [scan_page gen_only_requests]; try exact Hw.
  destruct (in_stock d); [split; [exact Hw | exact IH] | exact IH].
Qed.

Lemma gen_only_requests_iter_loop (s : session) (category_id : Z) (city_id : str)
  (limit : Z) (sleep_sec : spec_float) (w0 : world) (fuel : nat) :
  forall offset tok w,
    only_requests s w0 w ->
    gen_only_requests s w0
      (iter_loop rt fuel s category_id city_id limit sleep_sec offset tok w).
Proof.
  induction fuel as [|f IH]; intros offset tok w H0; [exact H0|].
  cbn [iter_loop].
  pose proof (M_only_requests_goods_search_page s category_id city_id offset limit tok w) as K.
  destruct (goods_search_page s category_id city_id offset limit tok w)
    as [[[items tok']|e] w1]; cbn [snd] in K;
    pose proof (only_requests_trans s _ _ _ H0 K) as K1; [|exact K1].
  destruct (truthy items); cbn [negb]; [|exact K1].
  destruct (py_iter items) as [l|e]; [|exact K1].
  apply gen_only_requests_scan_page; [exact K1|].
  destruct (truthy (VFloat sleep_sec)).
  - destruct (time_sleep rt sleep_sec); [exact K1|].
    apply IH. exact (only_requests_trans s _ _ _ K1 (only_requests_slept s _ _)).
  - apply IH. exact K1.
Qed.

Lemma collect_only_requests (s : session) (w0 : world) (city_name : str) (g : gen) :
  gen_only_requests s w0 g ->
  forall rows, only_requests s w0 (snd (collect rt g city_name rows)).
Proof.
  induction g as [it w rest IH|w|e w]; intros H rows; cbn [collect];
    [|exact H ..].
  destruct H as [Hw Hrest].
  destruct (to_row rt it city_name); [apply (IH Hrest) | exact Hw].
Qed.

(** X18. Every request of a run goes through the session [main] builds from
    its arguments, with the bearer token, to the base URL of the backend;
    without credentials nothing is requested. *)
Theorem main_requests (a : args) (w : world) :
  exists rqs,
    sent (snd (main rt a w)) = sent w ++ rqs
    /\ (has_credentials a = false -> rqs = [])
    /\ forall rq,
         In rq rqs ->
         rq_headers rq
         = make_session (city_or_empty (arg_token a))
             (city_or_empty (arg_device_id a)) (arg_app_version a)
             (arg_user_agent a)
         /\ In (u "authorization", u "bearer " ++ city_or_empty (arg_token a))
              (rq_headers rq)
         /\ starts_with BASE_URL (rq_url rq) = true.
Proof.
  assert (Fin : forall rqs,
            Forall (from_session (session_of a)) rqs ->
            forall rq, In rq rqs ->
              rq_headers rq
              = make_session (city_or_empty (arg_token a))
                  (city_or_empty (arg_device_id a)) (arg_app_version a)
                  (arg_user_agent a)
              /\ In (u "authorization", u "bearer " ++ city_or_empty (arg_token a))
                   (rq_headers rq)
              /\ starts_with BASE_URL (rq_url rq) = true).
  { intros rqs F rq Hin. rewrite Forall_forall in F.
    destruct (F rq Hin) as [H1 H2]. rewrite H1.
    split; [reflexivity|]. split; [now left | exact H2]. }
  destruct (has_credentials a) eqn:C.
  - assert (S : exists rqs,
                sent (snd (main rt a w)) = sent w ++ rqs
                /\ Forall (from_session (session_of a)) rqs).
    { rewrite (main_run rt a w C).
      pose proof (M_only_requests_resolve_city (session_of a) (arg_city a)
                    (arg_fias_id a) w) as K1.
      destruct (resolve_city rt (session_of a) (arg_city a) (arg_fias_id a) w)
        as [[[[city_id city_name] fias]|e] w1]; cbn [snd] in K1;
        [|exact (proj1 K1)].
      pose proof (M_only_requests_get_coffee_category_id (session_of a) w1) as K2.
      destruct (get_coffee_category_id rt (session_of a) w1)
        as [[category_id|e] w2]; cbn [snd] in K2;
        pose proof (only_requests_trans _ _ _ _ K1 K2) as K12;
        [|exact (proj1 K12)].
      pose proof (collect_only_requests (session_of a) w2 city_name _
                    (gen_only_requests_iter_loop (session_of a) category_id city_id
                       (arg_limit a) DEFAULT_SLEEP w2 (S (length (net w2)))
                       0 (VStr []) w2 (only_requests_refl _ _)) []) as K3.
      fold (iter_coffee_products_in_stock rt (session_of a) category_id city_id
              (arg_limit a) DEFAULT_SLEEP w2) in K3.
      destruct (collect rt
                  (iter_coffee_products_in_stock rt (session_of a) category_id
                     city_id (arg_limit a) DEFAULT_SLEEP w2) city_name [])
        as [[rows|e] w3]; cbn [snd] in K3;
        pose proof (only_requests_trans _ _ _ _ K12 K3) as K123;
        [|exact (proj1 K123)].
      destruct K123 as [[rqs [E F]] _].
      assert (K4 : sent (snd (write_csv rows (arg_out a) w3)) = sent w3).
      { unfold write_csv. destruct (Utf8.encode (csv_record header)); [|reflexivity].
        destruct (write_rows rows (Utf8.BOM ++ l)); reflexivity. }
      exists rqs. split; [|exact F].
      destruct (write_csv rows (arg_out a) w3) as [[[]|e] w4]; cbn [snd] in *;
        cbn [sent add_stdout]; now rewrite K4. }
    destruct S as [rqs [E F]]. exists rqs. split; [exact E|].
    split; [discriminate | exact (Fin rqs F)].
  - exists []. split.
    + unfold has_credentials in C. apply negb_false_iff in C.
      unfold main. rewrite C. cbn. now rewrite app_nil_r.
    + split; [reflexivity | intros rq []].
Qed.

End Run.

(** ** Outcomes *)

Section Outcomes.

Variable rt : runtime.

(** *** Whitespace around a name *)

Lemma lstrip_with_app_all (p : N -> bool) (pre s : str) :
  forallb p pre = true -> lstrip_with p (pre ++ s) = lstrip_with p s.
Proof.
  induction pre as [|c pre IH]; [reflexivity|]. cbn [forallb app lstrip_with].
  intro H. apply andb_true_iff in H as [Hc Hp]. rewrite Hc. exact (IH Hp).
Qed.

Lemma rstrip_with_app_all (p : N -> bool) (s suf : str) :
  forallb p suf = true -> rstrip_with p (s ++ suf) = rstrip_with p s.
Proof.
  intro H. unfold rstrip_with. rewrite rev_app_distr, lstrip_with_app_all;
    [reflexivity|].
  rewrite forallb_forall in *. intros x Hx. apply H. now apply in_rev.
Qed.

Lemma lstrip_with_app_keep (p : N -> bool) (s suf : str) :
  lstrip_with p s <> [] -> lstrip_with p (s ++ suf) = lstrip_with p s ++ suf.
Proof.
  induction s as [|c s IH]; [cbn; congruence|]. cbn [app lstrip_with].
  destruct (p c); [exact IH | reflexivity].
Qed.

Lemma lstrip_with_nil (p : N -> bool) (s : str) :
  lstrip_with p s = [] -> forallb p s = true.
Proof.
  induction s as [|c s IH]; [reflexivity|]. cbn [lstrip_with forallb].
  destruct (p c); [exact IH | discriminate].
Qed.

Lemma strip_with_pad (p : N -> bool) (pre s suf : str) :
  forallb p pre = true -> forallb p suf = true ->
  strip_with p (pre ++ s ++ suf) = strip_with p s.
Proof.
  intros Hp Hs. unfold strip_with. rewrite (lstrip_with_app_all p pre _ Hp).
  destruct (lstrip_with p s) as [|c r] eqn:L.
  - rewrite lstrip_with_all; [reflexivity|].
    rewrite forallb_app, (lstrip_with_nil p s L). exact Hs.
  - rewrite lstrip_with_app_keep by congruence. rewrite L.
    exact (rstrip_with_app_all p (c :: r) suf Hs).
Qed.

(** X3. Whitespace around a name does not change its brand. *)
Theorem brand_ignores_outer_whitespace (pre name suf : str) :
  forallb is_space pre = true -> forallb is_space suf = true ->
  extract_brand_from_name rt (pre ++ name ++ suf)
  = extract_brand_from_name rt name.
Proof.
  intros Hp Hs. unfold extract_brand_from_name, py_strip.
  now rewrite (strip_with_pad is_space pre name suf Hp Hs).
Qed.

(** *** The table of cities *)

Lemma cities_get_In (table : list (str * str)) (key v : str) :
  cities_get table key = Some v -> In v (map snd table).
Proof.
  induction table as [|[k x] table IH]; [discriminate|]. cbn [cities_get map snd].
  destruct (str_eqb k key); [intro H; inversion H; now left | right; auto].
Qed.

Lemma cities_scan_In (table : list (str * str)) (key v : str) :
  cities_scan table key = Some v -> In v (map snd table).
Proof.
  induction table as [|[k x] table IH]; [discriminate|]. cbn [cities_scan map snd].
  destruct (contains k key); [intro H; inversion H; now left | right; auto].
Qed.

(** X11. Without an explicit geo-identifier the policy yields one of the two
    identifiers of the city table, or nothing. *)
Theorem city_lookup_yields_known_fias (city fias_id : option str) (v : str) :
  not_given fias_id ->
  resolve_city_fias rt city fias_id = Some v ->
  v = FIAS_MOSCOW \/ v = FIAS_SPB.
Proof.
  intros Hf H.
  assert (K : In v (map snd KNOWN_CITIES)).
  { unfold resolve_city_fias in H.
    destruct Hf as [-> | ->]; destruct city as [[|c r]|]; try discriminate;
      (destruct (cities_get KNOWN_CITIES (py_lower rt (py_strip (c :: r)))) eqn:G;
       [inversion H; subst; exact (cities_get_In _ _ _ G)
       | exact (cities_scan_In _ _ _ H)]). }
  unfold KNOWN_CITIES in K. cbn [map snd] in K.
  destruct K as [K|[K|[K|K]]]; [left; now symmetry ..|].
  right. repeat (destruct K as [K|K]; [now symmetry|]). destruct K.
Qed.

(** *** What an exit status says *)

Lemma write_rows_ok (rows : list ProductRow) :
  forall written content,
    write_rows rows written = (Ok tt, content) ->
    forallb encodable rows = true.
Proof.
  induction rows as [|r rows IH]; intros written content H; [reflexivity|].
  cbn [write_rows] in H. cbn [forallb].
  destruct (encodable r) eqn:E.
  - destruct (Utf8.encode (csv_record (row_fields r))); [|discriminate].
    exact (IH _ _ H).
  - rewrite (row_line_not_encodable r E) in H. discriminate.
Qed.

Lemma write_csv_ok (rows : list ProductRow) (out_path : str) (w w' : world) :
  write_csv rows out_path w = (Ok tt, w') ->
  forallb encodable rows = true
  /\ w' = add_file out_path (Utf8.BOM ++ utf8_bytes (file_text rows)) w.
Proof.
  intro H.
  assert (E : forallb encodable rows = true).
  { unfold write_csv in H.
    destruct (Utf8.encode (csv_record header)) as [bytes|]; [|discriminate].
    destruct (write_rows rows (Utf8.BOM ++ bytes)) as [[[]|e] content] eqn:W;
      [|discriminate].
    exact (write_rows_ok rows _ _ W). }
  split; [exact E|]. rewrite (write_csv_encodable rows out_path w E) in H.
  now inversion H.
Qed.

(** X19. [main] returns 2, when a credential is missing and the message is
    all it printed, or 0, after one file was written from rows that can be
    encoded and one summary line was printed; it returns nothing else. *)
Theorem main_exit_status (a : args) (w w' : world) (z : Z) :
  main rt a w = (Ok z, w') ->
  (z = 2 /\ has_credentials a = false /\ w' = add_stderr credentials_message w)
  \/ (z = 0 /\ has_credentials a = true
      /\ exists rows city_name city_id fias,
           forallb encodable rows = true
           /\ files w'
              = (arg_out a, Utf8.BOM ++ utf8_bytes (file_text rows)) :: files w
           /\ stdout w'
              = stdout w
                ++ [summary city_name city_id fias (length rows) (arg_out a)]
           /\ stderr w' = stderr w).
Proof.
  destruct (has_credentials a) eqn:C.
  - rewrite (main_run rt a w C). intro H. right.
    pose proof (M_only_requests_resolve_city rt (session_of a) (arg_city a)
                  (arg_fias_id a) w) as K1.
    destruct (resolve_city rt (session_of a) (arg_city a) (arg_fias_id a) w)
      as [[[[city_id city_name] fias]|e] w1]; [|discriminate].
    cbn [snd] in K1.
    pose proof (M_only_requests_get_coffee_category_id rt (session_of a) w1) as K2.
    destruct (get_coffee_category_id rt (session_of a) w1)
      as [[category_id|e] w2]; [|discriminate].
    cbn [snd] in K2.
    pose proof (collect_only_requests rt (session_of a) w2 city_name _
                  (gen_only_requests_iter_loop rt (session_of a) category_id city_id
                     (arg_limit a) DEFAULT_SLEEP w2 (S (length (net w2)))
                     0 (VStr []) w2 (only_requests_refl _ _)) []) as K3.
    fold (iter_coffee_products_in_stock rt (session_of a) category_id city_id
            (arg_limit a) DEFAULT_SLEEP w2) in K3.
    destruct (collect rt
                (iter_coffee_products_in_stock rt (session_of a) category_id
                   city_id (arg_limit a) DEFAULT_SLEEP w2) city_name [])
      as [[rows|e] w3]; [|discriminate].
    cbn [snd] in K3.
    destruct (write_csv rows (arg_out a) w3) as [[[]|e] w4] eqn:R4; [|discriminate].
    inversion H; subst z w'. clear H.
    destruct (write_csv_ok rows (arg_out a) w3 w4 R4) as [E W]. subst w4.
    destruct (only_requests_trans _ _ _ _ (only_requests_trans _ _ _ _ K1 K2) K3)
      as [_ [F [O R]]].
    split; [reflexivity|]. split; [reflexivity|].
    exists rows, city_name, city_id, fias. split; [exact E|].
    cbn [files stdout stderr add_stdout add_file].
    rewrite F, O, R. repeat split.
  - unfold has_credentials in C. apply negb_false_iff in C.
    unfold main. rewrite C. cbn. intro H. inversion H. left. repeat split.
Qed.

End Outcomes.

(** ** Brand extraction and its specification *)

Section BrandSpec.

Variable rt : runtime.

Lemma find_ext_in {A} (f g : A -> bool) (l : list A) :
  (forall x, In x l -> f x = g x) -> find f l = find g l.
Proof.
  induction l as [|a l IH]; [reflexivity|]. intro H. cbn [find].
  rewrite (H a (or_introl eq_refl)).
  destruct (g a); [reflexivity|]. apply IH. intros x Hx. apply H. now right.
Qed.

Lemma star_dollar_forallb (cls : N -> bool) (s : str) :
  (forall c, In c s -> c <> LF) -> star_dollar cls s = forallb cls s.
Proof.
  induction s as [|c r IH]; intro H; [reflexivity|].
  cbn [star_dollar forallb].
  assert (A : at_dollar (c :: r) = false).
  { destruct r; [|reflexivity]. cbn. apply N.eqb_neq. apply H. now left. }
  rewrite A. cbn [orb]. rewrite IH; [reflexivity|].
  intros x Hx. apply H. now right.
Qed.

Lemma is_cyr_word_eq (c : N) : is_cyr_word c = cyrillic_word_char c.
Proof.
  unfold is_cyr_word, cyrillic_word_char, cyrillic_capital, cyrillic_small,
    decimal_digit, hyphen, is_digit, is_dash, in_range.
  destruct ((1040 <=? c)%N && (c <=? 1071)%N),
           ((1072 <=? c)%N && (c <=? 1103)%N),
           (c =? 1025)%N, (c =? 1105)%N,
           ((48 <=? c)%N && (c <=? 57)%N), (c =? 45)%N; reflexivity.
Qed.

Lemma forallb_ext_all {A} (f g : A -> bool) (l : list A) :
  (forall x, f x = g x) -> forallb f l = forallb g l.
Proof. intro H. induction l as [|a l IH]; cbn; [reflexivity | now rewrite H, IH]. Qed.

Lemma brand_like_token_eq (tk : str) :
  (forall c, In c tk -> c <> LF) -> brand_like tk = brand_like_token tk.
Proof.
  intro H. unfold brand_like, brand_like_token.
  destruct tk as [|c1 [|c2 r]].
  - reflexivity.
  - cbn. now rewrite !andb_false_r.
  - assert (Hr : forall c, In c r -> c <> LF).
    { intros c Hc. apply H. right. now right. }
    unfold re_latin_word, re_cyrillic_word, re_upper_token.
    rewrite !(star_dollar_forallb _ r Hr).
    unfold capitalised_latin, capitalised_cyrillic, all_capitals.
    cbn [is_empty negb length forallb Nat.leb].
    rewrite !andb_true_r, !andb_assoc. cbn [andb].
    rewrite (is_cyr_word_eq c2), (forallb_ext_all is_cyr_word cyrillic_word_char r
                                    is_cyr_word_eq).
    reflexivity.
Qed.

Lemma candidates_no_line_feed (name tk : str) (c : N) :
  In tk (candidates rt name) -> In c tk -> c <> LF.
Proof.
  intros K H. unfold candidates in K. apply filter_In in K as [K _].
  apply in_map_iff in K as [t [E K]]. rewrite <- E in H.
  apply clean_token_In in H as [H _].
  pose proof (split_seps_no_sep (sub_coffee_prefix rt (py_strip name)) false []
                eq_refl) as S.
  rewrite Forall_forall in S. specialize (S t K).
  rewrite forallb_forall in S. specialize (S c H).
  intros ->. discriminate S.
Qed.

Lemma extract_brand_from_name_brand_spec (name : str) :
  extract_brand_from_name rt name = brand_spec rt name.
Proof.
  unfold extract_brand_from_name, brand_spec.
  change (kept_tokens rt name) with (candidates rt name).
  rewrite <- (find_ext_in brand_like brand_like_token (candidates rt name)).
  2:{ intros tk Htk. apply brand_like_token_eq.
      intros c Hc. exact (candidates_no_line_feed name tk c Htk Hc). }
  unfold candidates.
  set (tokens := re_split_seps (sub_coffee_prefix rt (py_strip name))).
  rewrite first_brand_like_find, <- first_kept_hd.
  destruct tokens as [|t rest]; [reflexivity|].
  cbn [is_empty]. reflexivity.
Qed.

(** **** Tokens *)

Lemma split_seps_word (t : str) :
  forall (in_sep : bool) (cur rest : str),
    forallb (fun c => negb (is_sep c)) t = true ->
    t <> [] ->
    split_seps in_sep cur (t ++ rest) = split_seps false (rev t ++ cur) rest.
Proof.
  induction t as [|c t IH]; intros in_sep cur rest H N; [congruence|].
  cbn [forallb] in H. apply andb_true_iff in H as [Hc Ht].
  apply negb_true_iff in Hc. cbn [app split_seps]. rewrite Hc.
  destruct t as [|c' t'].
  - reflexivity.
  - rewrite (IH false (c :: cur) rest Ht ltac:(discriminate)).
    cbn [rev]. now rewrite <- !app_assoc.
Qed.

Lemma split_seps_skip (seps : str) :
  forall (rest : str),
    forallb is_sep seps = true ->
    split_seps true [] (seps ++ rest) = split_seps true [] rest.
Proof.
  induction seps as [|c seps IH]; intros rest H; [reflexivity|].
  cbn [forallb] in H. apply andb_true_iff in H as [Hc Hs].
  cbn [app split_seps]. rewrite Hc. exact (IH rest Hs).
Qed.

Lemma split_seps_restart (rest : str) :
  (forall c r, rest = c :: r -> is_sep c = false) ->
  split_seps true [] rest = split_seps false [] rest.
Proof.
  destruct rest as [|c r]; [reflexivity|]. intro H.
  cbn [split_seps]. now rewrite (H c r eq_refl).
Qed.

(** A text without separators is one token. *)
Lemma re_split_seps_word (t : str) :
  forallb (fun c => negb (is_sep c)) t = true -> re_split_seps t = [t].
Proof.
  intro H. unfold re_split_seps. destruct t as [|c t']; [reflexivity|].
  pose proof (split_seps_word (c :: t') false [] [] H ltac:(discriminate)) as E.
  rewrite !app_nil_r in E. rewrite E.
  cbn [split_seps]. now rewrite rev_involutive.
Qed.

(** A token, a run of separators, and the rest: the token, then the tokens
    of the rest. *)
Lemma re_split_seps_step (t seps rest : str) :
  forallb (fun c => negb (is_sep c)) t = true ->
  seps <> [] -> forallb is_sep seps = true ->
  (forall c r, rest = c :: r -> is_sep c = false) ->
  re_split_seps (t ++ seps ++ rest) = t :: re_split_seps rest.
Proof.
  intros Ht Ns Hs Hr. unfold re_split_seps.
  assert (E : split_seps false [] (t ++ seps ++ rest)
              = split_seps false (rev t) (seps ++ rest)).
  { destruct t as [|c t']; [reflexivity|].
    rewrite (split_seps_word (c :: t') false [] _ Ht ltac:(discriminate)).
    now rewrite app_nil_r. }
  rewrite E. destruct seps as [|c seps']; [congruence|].
  cbn [forallb] in Hs. apply andb_true_iff in Hs as [Hc Hs'].
  cbn [app split_seps]. rewrite Hc, rev_involutive. f_equal.
  rewrite (split_seps_skip seps' rest Hs'). exact (split_seps_restart rest Hr).
Qed.

(** **** Cleaning *)

Lemma strip_with_fixed (p : N -> bool) (s : str) (d : N) :
  s <> [] -> p (hd d s) = false -> p (last s d) = false -> strip_with p s = s.
Proof.
  intros N H L. unfold strip_with, rstrip_with.
  destruct s as [|c r]; [congruence|]. cbn [hd] in H.
  cbn [lstrip_with]. rewrite H.
  destruct (exists_last (l := c :: r) ltac:(discriminate)) as [s' [x E]].
  rewrite E in *. rewrite last_last in L.
  rewrite rev_app_distr. cbn [rev app lstrip_with]. rewrite L.
  now rewrite <- (rev_involutive s') at 2.
Qed.

Lemma wrapping_not_space (c : N) : wrapping c = true -> is_space c = false.
Proof.
  unfold wrapping. cbn [existsb]. intro H.
  repeat (apply orb_true_iff in H as [H|H];
          [apply N.eqb_eq in H; subst c; reflexivity|]).
  discriminate.
Qed.

Lemma filter_guillemets (s : str) :
  remove_char 187 (remove_char 171 s) = filter (fun c => negb (guillemet c)) s.
Proof.
  unfold remove_char, guillemet. induction s as [|c s IH]; [reflexivity|].
  cbn [filter]. destruct (c =? 171)%N eqn:A; cbn [negb orb].
  - exact IH.
  - cbn [filter]. destruct (c =? 187)%N; cbn [negb]; [exact IH | now f_equal].
Qed.

(** A token in brackets, quotes or parentheses: they go, and so does every
    « and » of what is between them. *)
Lemma clean_token_wrapped (l core r : str) :
  forallb wrapping l = true ->
  forallb wrapping r = true ->
  forallb (fun c => negb (is_space c)) core = true ->
  wrapping (hd 0%N core) = false ->
  wrapping (last core 0%N) = false ->
  clean_token (l ++ core ++ r) = filter (fun c => negb (guillemet c)) core.
Proof.
  intros Hl Hr Hc Hh Ht. unfold clean_token.
  rewrite filter_guillemets. f_equal.
  assert (S : py_strip (l ++ core ++ r) = l ++ core ++ r).
  { apply strip_with_id. intros c Hin.
    rewrite forallb_forall in Hl, Hr, Hc.
    apply in_app_or in Hin as [Hin|Hin]; [exact (wrapping_not_space c (Hl c Hin))|].
    apply in_app_or in Hin as [Hin|Hin]; [|exact (wrapping_not_space c (Hr c Hin))].
    now apply negb_true_iff, Hc. }
  rewrite S.
  change (strip_chars (u "()[]{}" ++ [QUOTE; 39%N])) with (strip_with wrapping).
  rewrite (strip_with_pad wrapping l core r Hl Hr).
  destruct core as [|c core']; [reflexivity|].
  exact (strip_with_fixed wrapping (c :: core') 0%N ltac:(discriminate) Hh Ht).
Qed.

(** **** The prefix *)

(** A literal of the pattern matches the text that lowers to it. *)
Lemma lit_ci_written (w : str) :
  forall (k : str -> option str) (s : str),
    forallb cased_range w = true ->
    lit_ci rt (map lower_cp w) k (w ++ s) = k s.
Proof.
  induction w as [|c w IH]; intros k s H; [reflexivity|].
  cbn [forallb] in H. apply andb_true_iff in H as [Hc Hw].
  cbn [map app lit_ci]. unfold ci_char. rewrite Hc, N.eqb_refl.
  exact (IH k s Hw).
Qed.

(** A literal does not match a text of its length that lowers to another. *)
Lemma lit_ci_mismatch (w : str) :
  forall (lit : str) (k : str -> option str) (s : str),
    forallb cased_range w = true ->
    length w = length lit ->
    map lower_cp w <> lit ->
    lit_ci rt lit k (w ++ s) = None.
Proof.
  induction w as [|c w IH]; intros [|l lit] k s C L D; try discriminate L.
  - now contradiction D.
  - cbn [forallb] in C. apply andb_true_iff in C as [Cc Cw].
    cbn [app lit_ci]. unfold ci_char. rewrite Cc.
    destruct (N.eqb_spec (lower_cp c) l) as [E|E]; [|reflexivity].
    apply (IH lit k s Cw); [now inversion L|].
    intro M. apply D. cbn [map]. now rewrite E, M.
Qed.

Lemma after_spaces_run (ws rest : str) :
  ws <> [] -> forallb is_space ws = true ->
  (forall c r, rest = c :: r -> is_space c = false) ->
  exists l, after_spaces (ws ++ rest) = l ++ [rest].
Proof.
  intros N H R. induction ws as [|c ws IH]; [congruence|].
  cbn [forallb] in H. apply andb_true_iff in H as [Hc Hw].
  cbn [app after_spaces]. rewrite Hc. destruct ws as [|c' ws'].
  - exists []. cbn [app]. f_equal.
    destruct rest as [|x r]; [reflexivity|].
    cbn [after_spaces]. now rewrite (R x r eq_refl).
  - destruct (IH ltac:(discriminate) Hw) as [l E].
    exists (((c' :: ws') ++ rest) :: l). rewrite E. reflexivity.
Qed.

(** A run of whitespace is taken whole when what follows it matches. *)
Lemma spaces1_run (ws rest : str) (k : str -> option str) (r : str) :
  ws <> [] -> forallb is_space ws = true ->
  (forall c r', rest = c :: r' -> is_space c = false) ->
  k rest = Some r ->
  spaces1 k (ws ++ rest) = Some r.
Proof.
  intros N H R K. unfold spaces1.
  destruct (after_spaces_run ws rest N H R) as [l E]. rewrite E.
  rewrite rev_app_distr. cbn [rev app first_success]. now rewrite K.
Qed.

Lemma spaces1_none (c : N) (s : str) (k : str -> option str) :
  is_space c = false -> spaces1 k (c :: s) = None.
Proof. intro H. unfold spaces1. cbn [after_spaces]. now rewrite H. Qed.

Lemma is_space_range (c : N) :
  is_space c = true -> (c <= 160 \/ 5760 <= c)%N.
Proof.
  unfold is_space, in_range. intro H.
  repeat (apply orb_true_iff in H as [H|H]);
    repeat (apply andb_true_iff in H as [? H]);
    repeat match goal with
           | X : (_ <=? _)%N = true |- _ => apply N.leb_le in X
           | X : (_ =? _)%N = true |- _ => apply N.eqb_eq in X
           end; lia.
Qed.

Lemma lower_cp_cyrillic (c : N) :
  (1072 <= lower_cp c <= 1103)%N -> (1040 <= c <= 1103)%N.
Proof.
  unfold lower_cp, in_range.
  repeat match goal with
         | |- context [(?a <=? ?b)%N] => destruct (N.leb_spec a b)
         | |- context [(?a =? ?b)%N] => destruct (N.eqb_spec a b)
         end; cbn [andb negb]; lia.
Qed.

(** A text that lowers to a Cyrillic word does not start with whitespace. *)
Lemma written_not_space (w s : str) (l : N) (lit : str) :
  map lower_cp w = l :: lit -> (1072 <= l <= 1103)%N ->
  forall c r, w ++ s = c :: r -> is_space c = false.
Proof.
  intros E L c r H. destruct w as [|x w']; [discriminate E|].
  cbn [map app] in E, H. inversion E as [[E1 E2]]. inversion H. subst c.
  destruct (is_space x) eqn:S; [|reflexivity].
  apply is_space_range in S. rewrite <- E1 in L.
  apply lower_cp_cyrillic in L. lia.
Qed.

(** The first alternative: the word, in any case, and whitespace. *)
Lemma sub_coffee_prefix_word (w ws rest : str) :
  forallb cased_range w = true ->
  map lower_cp w = u "кофе" ->
  ws <> [] -> forallb is_space ws = true ->
  (forall c r, rest = c :: r -> is_space c = false) ->
  sub_coffee_prefix rt (w ++ ws ++ rest) = rest.
Proof.
  intros C E N H R. unfold sub_coffee_prefix, coffee_prefix, re_seq.
  cbn [alt]. rewrite <- E at 1. rewrite (lit_ci_written w _ _ C).
  now rewrite (spaces1_run ws rest Some rest N H R eq_refl).
Qed.

(** The other two: two words, in any case, whitespace between them and
    behind them. *)
Lemma sub_coffee_prefix_words (w1 ws1 w2 ws2 rest : str) :
  forallb cased_range w1 = true -> forallb cased_range w2 = true ->
  (map lower_cp w1 = u "кофейный" /\ map lower_cp w2 = u "напиток")
  \/ (map lower_cp w1 = u "кофейные" /\ map lower_cp w2 = u "напитки") ->
  ws1 <> [] -> forallb is_space ws1 = true ->
  ws2 <> [] -> forallb is_space ws2 = true ->
  (forall c r, rest = c :: r -> is_space c = false) ->
  sub_coffee_prefix rt (w1 ++ ws1 ++ w2 ++ ws2 ++ rest) = rest.
Proof.
  intros C1 C2 E N1 H1 N2 H2 R.
  assert (L2 : exists l lit, map lower_cp w2 = l :: lit /\ (1072 <= l <= 1103)%N).
  { destruct E as [[_ E]|[_ E]]; rewrite E; eexists; eexists;
      (split; [reflexivity | cbn; lia]). }
  destruct L2 as [l2 [lit2 [E2 B2]]].
  assert (K : lit_ci rt (map lower_cp w2) (spaces1 Some) (w2 ++ ws2 ++ rest)
              = Some rest).
  { rewrite (lit_ci_written w2 _ _ C2).
    exact (spaces1_run ws2 rest Some rest N2 H2 R eq_refl). }
  assert (S : spaces1 (lit_ci rt (map lower_cp w2) (spaces1 Some))
                (ws1 ++ w2 ++ ws2 ++ rest) = Some rest).
  { apply (spaces1_run ws1 (w2 ++ ws2 ++ rest) _ rest N1 H1); [|exact K].
    exact (written_not_space w2 (ws2 ++ rest) l2 lit2 E2 B2). }
  (* the first alternative stops behind its four letters *)
  assert (F : lit_ci rt (u "кофе") (spaces1 Some) (w1 ++ ws1 ++ w2 ++ ws2 ++ rest)
              = None).
  { assert (P : exists a b, w1 = a ++ b /\ map lower_cp a = u "кофе"
                            /\ exists l lit, map lower_cp b = l :: lit
                                             /\ (1072 <= l <= 1103)%N).
    { destruct w1 as [|x1 [|x2 [|x3 [|x4 b]]]];
        try (destruct E as [[E _]|[E _]]; discriminate E).
      exists [x1; x2; x3; x4], b. split; [reflexivity|].
      destruct E as [[E _]|[E _]]; cbn [map] in E;
        inversion E as [[A1 A2 A3 A4 A5]];
        (split; [cbn [map]; rewrite A1, A2, A3, A4; reflexivity|]);
        eexists; eexists; (split; [exact A5 | lia]). }
    destruct P as [a [b [Ew [Ea [l [lit [Eb Bb]]]]]]].
    assert (Ca : forallb cased_range a = true).
    { rewrite Ew, forallb_app in C1. now apply andb_true_iff in C1 as [C1 _]. }
    rewrite Ew, <- app_assoc, <- Ea. rewrite (lit_ci_written a _ _ Ca).
    destruct b as [|y b']; [discriminate Eb|]. cbn [app].
    apply spaces1_none.
    exact (written_not_space (y :: b') [] l lit Eb Bb y (b' ++ []) eq_refl). }
  unfold sub_coffee_prefix, coffee_prefix, re_seq. cbn [alt]. rewrite F.
  destruct E as [[E1 E2']|[E1 E2']].
  - rewrite <- E1 at 1. rewrite (lit_ci_written w1 _ _ C1).
    rewrite <- E2'. now rewrite S.
  - assert (G : lit_ci rt (u "кофейный")
                  (spaces1 (lit_ci rt (u "напиток") (spaces1 Some)))
                  (w1 ++ ws1 ++ w2 ++ ws2 ++ rest) = None).
    { apply (lit_ci_mismatch w1 (u "кофейный") _ _ C1).
      - rewrite <- (length_map lower_cp w1), E1. reflexivity.
      - rewrite E1. discriminate. }
    rewrite G. rewrite <- E1 at 1. rewrite (lit_ci_written w1 _ _ C1).
    rewrite <- E2'. now rewrite S.
Qed.

(** A text that starts with another letter is left as it is. *)
Lemma sub_coffee_prefix_other (c : N) (s : str) :
  cased_range c = true -> lower_cp c <> 1082%N ->
  sub_coffee_prefix rt (c :: s) = c :: s.
Proof.
  intros C L. apply N.eqb_neq in L.
  unfold sub_coffee_prefix, coffee_prefix, re_seq. cbn [alt].
  change (u "кофе") with (1082 :: u "офе")%N.
  change (u "кофейный") with (1082 :: u "офейный")%N.
  change (u "кофейные") with (1082 :: u "офейные")%N.
  cbn [lit_ci]. unfold ci_char. rewrite C, L. reflexivity.
Qed.

(** C7. Brand extraction strips the generic coffee prefix (the word кофе,
    or the words кофейный напиток or кофейные напитки, in any case, with the
    whitespace behind them), splits the rest at whitespace and commas,
    cleans each token of the brackets and quotes around it and of every
    guillemet, drops the empty and the stoplisted tokens (whatever their
    case), and returns the first token that remains and is brand-like: an
    uppercase Latin letter followed by Latin letters, digits and hyphens,
    the same in Cyrillic, or two or more uppercase Latin letters, digits and
    hyphens.  Else it returns the first token that remains, else the empty
    string.  The name "Кофе Jardin растворимый 95г" gives "Jardin", the name
    "некофейный продукт" gives its first token, the empty name gives the
    empty brand; "Кофе растворимый жокей" gives "жокей", and
    "Кофе lavazza 3M" gives "3M". *)
Theorem extract_brand_from_name_spec :
  (forall name, extract_brand_from_name rt name = brand_spec rt name)
  /\ (forall t, forallb (fun c => negb (is_sep c)) t = true ->
        re_split_seps t = [t])
  /\ (forall t seps rest,
        forallb (fun c => negb (is_sep c)) t = true ->
        seps <> [] -> forallb is_sep seps = true ->
        (forall c r, rest = c :: r -> is_sep c = false) ->
        re_split_seps (t ++ seps ++ rest) = t :: re_split_seps rest)
  /\ (forall l core r,
        forallb wrapping l = true -> forallb wrapping r = true ->
        forallb (fun c => negb (is_space c)) core = true ->
        wrapping (hd 0%N core) = false -> wrapping (last core 0%N) = false ->
        clean_token (l ++ core ++ r)
        = filter (fun c => negb (guillemet c)) core)
  /\ (forall w ws rest,
        forallb cased_range w = true ->
        map lower_cp w = u "кофе" ->
        ws <> [] -> forallb is_space ws = true ->
        (forall c r, rest = c :: r -> is_space c = false) ->
        sub_coffee_prefix rt (w ++ ws ++ rest) = rest)
  /\ (forall w1 ws1 w2 ws2 rest,
        forallb cased_range w1 = true -> forallb cased_range w2 = true ->
        (map lower_cp w1 = u "кофейный" /\ map lower_cp w2 = u "напиток")
        \/ (map lower_cp w1 = u "кофейные" /\ map lower_cp w2 = u "напитки") ->
        ws1 <> [] -> forallb is_space ws1 = true ->
        ws2 <> [] -> forallb is_space ws2 = true ->
        (forall c r, rest = c :: r -> is_space c = false) ->
        sub_coffee_prefix rt (w1 ++ ws1 ++ w2 ++ ws2 ++ rest) = rest)
  /\ (forall c s,
        cased_range c = true -> lower_cp c <> 1082%N ->
        sub_coffee_prefix rt (c :: s) = c :: s)
  /\ extract_brand_from_name rt (u "Кофе Jardin растворимый 95г") = u "Jardin"
  /\ extract_brand_from_name rt (u "некофейный продукт") = u "некофейный"
  /\ extract_brand_from_name rt [] = []
  /\ sub_coffee_prefix rt (u "КОФЕ  Жокей") = u "Жокей"
  /\ sub_coffee_prefix rt (u "Кофейный напиток Nescafe 3в1") = u "Nescafe 3в1"
  /\ sub_coffee_prefix rt (u "кофейные напитки Jacobs") = u "Jacobs"
  /\ sub_coffee_prefix rt (u "Кофемолка") = u "Кофемолка"
  /\ extract_brand_from_name rt (u "Кофе молотый «Жокей» (классический), 250 г")
     = u "Жокей"
  /\ extract_brand_from_name rt (u "Кофе растворимый NESCAFE-GOLD 190г")
     = u "NESCAFE-GOLD"
  /\ extract_brand_from_name rt (u "Кофе растворимый жокей") = u "жокей"
  /\ extract_brand_from_name rt (u "Кофе lavazza 3M") = u "3M"
  /\ extract_brand_from_name rt (u "Кофе МОЛОТЫЙ Арабика Jardin") = u "Jardin"
  /\ extract_brand_from_name rt (u "Кофе молотый жареный") = []
  /\ extract_brand_from_name rt (u "Кофе 100г молотый") = u "100г"
  /\ extract_brand_from_name rt (u "  Jacobs,Monarch  ") = u "Jacobs"
  /\ extract_brand_from_name rt (u "Кофе в капсулах [Egoiste] 10шт") = u "Egoiste"
  /\ extract_brand_from_name rt (u "Кофе X Черная-Карта1 молотый")
     = u "Черная-Карта1"
  /\ extract_brand_from_name rt (u "Кофе g7 L-OR") = u "L-OR"
  /\ extract_brand_from_name rt (u "Кофе Жокей-классик lavazza") = u "Жокей-классик"
  /\ extract_brand_from_name rt (u "Кофе 'Tchibo' Gold") = u "Tchibo"
  /\ extract_brand_from_name rt (u "кофе") = u "кофе".
Proof.
  split; [exact extract_brand_from_name_brand_spec|].
  split; [exact re_split_seps_word|].
  split; [exact re_split_seps_step|].
  split; [exact clean_token_wrapped|].
  split; [exact sub_coffee_prefix_word|].
  split; [exact sub_coffee_prefix_words|].
  split; [exact sub_coffee_prefix_other|].
  repeat split; vm_compute; reflexivity.
Qed.

End BrandSpec.

(** ** The prices of a row *)

Section RowPrices.

Variable rt : runtime.

(** The prices of a row whose item has an int price, in figures. *)
Lemma to_row_converted (it : dict) (city_name : str) (row : ProductRow) (z : Z) :
  to_row rt it city_name = Ok row ->
  dict_get it (u "price") = VInt z ->
  Z.abs z < 10 ^ 14 ->
  exists promo,
    promotion it = VDict promo
    /\ if truthy (dict_get promo (u "isPromotion"))
       then converted z (promo_price row)
            /\ (forall o, dict_get promo (u "oldPrice") = VInt o ->
                          Z.abs o < 10 ^ 14 -> converted o (regular_price row))
            /\ (isinstance_int (dict_get promo (u "oldPrice")) = false ->
                converted z (regular_price row))
       else converted z (regular_price row) /\ promo_price row = None.
Proof.
  intros H Hz B. destruct (to_row_inv rt _ _ _ H) as [promo [Hp Hrow]].
  cbv zeta in Hrow. exists promo. split; [exact Hp|]. rewrite Hz in Hrow.
  destruct (truthy (dict_get promo (u "isPromotion"))).
  - destruct Hrow as [H1 H2]. split; [exact (money_from_int_converted z _ B H1)|].
    split.
    + intros o Ho Bo. rewrite Ho in H2. cbn [isinstance_int] in H2.
      exact (money_from_int_converted o _ Bo H2).
    + intro I. rewrite I in H2. exact (money_from_int_converted z _ B H2).
  - destruct Hrow as [H1 H2]. split; [exact (money_from_int_converted z _ B H1)|].
    exact H2.
Qed.

(** C1. For every raw item, [to_row] takes the prices as follows.  When the
    promotion sub-object has its flag set, the promo price is the [price]
    field converted from minor units, and the regular price is the
    promotion's [oldPrice] so converted when that is an integer; when the
    flag is not set, the regular price is the converted [price] and the promo
    price is absent.  To convert is to divide the number by 100 in binary64
    and to round the quotient to two decimals: to the double for n / 100,
    n the integer nearest to a hundred times the quotient.  For an integer
    of minor units below 10^14 the result is within half a hundredth of
    z / 100 in exact arithmetic, and prints as the units, a point and two
    digits.  The item with price 500 on promotion with old price 700
    gives 5.00 and 7.00; the item with price 500 off promotion gives a
    regular price of 5.00 and no promo price; 199 gives 1.99, and the
    fractional 12345.678 gives 123.46. *)
Theorem to_row_prices :
  (forall it city_name row,
     to_row rt it city_name = Ok row ->
     exists promo,
       promotion it = VDict promo
       /\ (dict_get promo (u "isPromotion") = VBool true ->
           money_from_int (dict_get it (u "price")) = Ok (promo_price row)
           /\ forall z, dict_get promo (u "oldPrice") = VInt z ->
                        money_from_int (VInt z) = Ok (regular_price row))
       /\ (truthy (dict_get promo (u "isPromotion")) = false ->
           money_from_int (dict_get it (u "price")) = Ok (regular_price row)
           /\ promo_price row = None))
  /\ (forall v x p,
        v <> VNone -> to_float v = Ok x -> money_from_int v = Ok p ->
        exists r, p = Some r /\ rounded_from (Float64.div x Float64.hundred) r)
  /\ (forall z,
        z <> 0 -> Z.abs z < 2 ^ 53 ->
        exists m e,
          to_float (VInt z) = Ok (S754_finite (z <? 0) m e)
          /\ e <= 0 /\ Zpos m = Z.abs z * 2 ^ (- e))
  /\ (forall x, to_float (VFloat x) = Ok x)
  /\ (exists m e,
        Float64.hundred = S754_finite false m e
        /\ e <= 0 /\ Zpos m = 100 * 2 ^ (- e))
  /\ (forall z,
        Z.abs z < 10 ^ 14 ->
        exists x,
          money_from_int (VInt z) = Ok (Some x)
          /\ within_half_cent z x
          /\ price_text (Some x) = cents_text z)
  /\ (forall it city_name row z,
        to_row rt it city_name = Ok row ->
        dict_get it (u "price") = VInt z ->
        Z.abs z < 10 ^ 14 ->
        exists promo,
          promotion it = VDict promo
          /\ if truthy (dict_get promo (u "isPromotion"))
             then converted z (promo_price row)
                  /\ (forall o, dict_get promo (u "oldPrice") = VInt o ->
                                Z.abs o < 10 ^ 14 ->
                                converted o (regular_price row))
                  /\ (isinstance_int (dict_get promo (u "oldPrice")) = false ->
                      converted z (regular_price row))
             else converted z (regular_price row) /\ promo_price row = None)
  /\ (forall city_name,
        exists row,
          to_row rt item_on_promotion city_name = Ok row
          /\ promo_price row = Some (Float64.of_Z 5)
          /\ regular_price row = Some (Float64.of_Z 7)
          /\ price_text (promo_price row) = u "5.00"
          /\ price_text (regular_price row) = u "7.00")
  /\ (forall city_name,
        exists row,
          to_row rt item_off_promotion city_name = Ok row
          /\ regular_price row = Some (Float64.of_Z 5)
          /\ price_text (regular_price row) = u "5.00"
          /\ promo_price row = None)
  /\ (forall city_name,
        exists row,
          to_row rt (item_priced (VInt 199)) city_name = Ok row
          /\ regular_price row = Some (Float64.of_hundredths false 199)
          /\ price_text (regular_price row) = u "1.99"
          /\ promo_price row = None)
  /\ (forall city_name,
        exists row,
          to_row rt (item_priced (VFloat fractional_price)) city_name = Ok row
          /\ regular_price row = Some (Float64.of_hundredths false 12346)
          /\ price_text (regular_price row) = u "123.46")
  /\ cents_text 12345 = u "123.45"
  /\ cents_text 5 = u "0.05"
  /\ cents_text (-250) = u "-2.50".
Proof.
  split.
  { intros it city_name row H.
    destruct (to_row_inv rt _ _ _ H) as [promo [Hp Hrow]]. cbv zeta in Hrow.
    exists promo. split; [exact Hp|]. split.
    + intro F. rewrite F in Hrow. simpl in Hrow. destruct Hrow as [H1 H2].
      split; [exact H1|]. intros z Hz. rewrite Hz in H2. exact H2.
    + intro F. rewrite F in Hrow. exact Hrow. }
  split; [exact money_from_int_rounds|].
  split.
  { intros z N B. destruct (of_Z_exact z N B) as [m [e [F [E [V _]]]]].
    exists m, e. unfold to_float. rewrite F. repeat split; assumption. }
  split; [reflexivity|].
  split; [exists 7036874417766400%positive, (-46); repeat split; lia|].
  split.
  { intros z B. destruct (money_from_int_cents z B) as [x [M [_ [_ [W T]]]]].
    exists x. repeat split; assumption. }
  split; [exact to_row_converted|].
  split.
  { intro city_name. eexists. split; [vm_compute; reflexivity|].
    repeat split; vm_compute; reflexivity. }
  split.
  { intro city_name. eexists. split; [vm_compute; reflexivity|].
    repeat split; vm_compute; reflexivity. }
  split.
  { intro city_name. eexists. split; [vm_compute; reflexivity|].
    repeat split; vm_compute; reflexivity. }
  split.
  { intro city_name. eexists. split; [vm_compute; reflexivity|].
    repeat split; vm_compute; reflexivity. }
  repeat split; vm_compute; reflexivity.
Qed.

End RowPrices.

(** ** The category walk *)

Section CategoryWalk.

Variable rt : runtime.





End CategoryWalk.

(** ** Failures of the run *)

Section RunFailures.

Variable rt : runtime.

(** When the generator raises, the loop of [main] raises: the exception of
    the generator, unless [to_row] raised before on an item it yielded. *)
Lemma collect_raises (city_name : str) (g : gen) :
  forall (rows : list ProductRow) (e : exn) (w' : world),
    ending g = (Raise e, w') ->
    (exists e' w'', collect rt g city_name rows = (Raise e', w''))
    /\ (forallb (returns_row rt city_name) (yielded g) = true ->
        collect rt g city_name rows = (Raise e, w')).
Proof.
  induction g as [it w rest IH|w|e0 w]; intros rows e w' He.
  - cbn [ending] in He. cbn [collect yielded forallb]. unfold returns_row at 1.
    destruct (to_row rt it city_name) as [r|e1].
    + destruct (IH (rows ++ [r]) e w' He) as [A B]. split; [exact A|].
      intro H. exact (B H).
    + split; [now exists e1, w | discriminate].
  - cbn in He. discriminate.
  - cbn in He. inversion He. subst. cbn [collect].
    split; [now exists e, w' | reflexivity].
Qed.

(** C9. Without both credentials nothing is requested or written.
    Otherwise the run resolves the city, finds the category, collects the
    rows of every page, and only then calls the CSV writer, once: when the
    city resolution, the category lookup or the pagination raises, that
    exception ends the run and the files are as they were.  A reply that is
    no good (no reply at all, an error status, a body that is no JSON
    object) to the city request, to the category request or to the request
    for any page, after however many pages of items, makes the function that
    asked raise, the generator and the loop of [main] with it, and [main]
    ends with that exception and has written no file.  Whatever exception
    [goods_search_page] raises ends the generator, and a generator that ends
    with an exception makes the loop of [main] raise. *)
Theorem main_writes_after_collecting (a : args) (w : world) :
  (has_credentials a = false ->
   main rt a w = (Ok 2, add_stderr credentials_message w))
  /\ (has_credentials a = true ->
      let s := session_of a in
      match resolve_city rt s (arg_city a) (arg_fias_id a) w with
      | (Raise e, w1) => main rt a w = (Raise e, w1) /\ files w1 = files w
      | (Ok (city_id, city_name, fias), w1) =>
          match get_coffee_category_id rt s w1 with
          | (Raise e, w2) => main rt a w = (Raise e, w2) /\ files w2 = files w
          | (Ok category_id, w2) =>
              match
                collect rt
                  (iter_coffee_products_in_stock rt s category_id city_id
                     (arg_limit a) DEFAULT_SLEEP w2) city_name []
              with
              | (Raise e, w3) =>
                  main rt a w = (Raise e, w3) /\ files w3 = files w
              | (Ok rows, w3) =>
                  files w3 = files w
                  /\ exists content,
                       write_csv rows (arg_out a) w3
                       = (fst (write_csv rows (arg_out a) w3),
                          add_file (arg_out a) content w3)
                       /\ files (snd (main rt a w))
                          = (arg_out a, content) :: files w
              end
          end
      end)
  /\ (has_credentials a = true ->
      let s := session_of a in
      (forall c f r rest e,
         resolve_city_fias rt (arg_city a) (arg_fias_id a) = Some (c :: f) ->
         net w = r :: rest ->
         bad_reply r = Some e ->
         main rt a w
         = (Raise e, set_net rest (add_sent (city_request s (c :: f)) w)))
      /\ (forall city_id city_name fias w1,
            resolve_city rt s (arg_city a) (arg_fias_id a) w
            = (Ok (city_id, city_name, fias), w1) ->
            (forall r rest e,
               net w1 = r :: rest ->
               bad_reply r = Some e ->
               main rt a w
               = (Raise e, set_net rest (add_sent (category_request s) w1))
               /\ files w1 = files w)
            /\ (forall category_id w2 pages r rest e,
                  get_coffee_category_id rt s w1 = (Ok category_id, w2) ->
                  sleep_succeeds rt DEFAULT_SLEEP ->
                  forallb full_page pages = true ->
                  net w2 = map reply_of pages ++ r :: rest ->
                  bad_reply r = Some e ->
                  let g := iter_coffee_products_in_stock rt s category_id
                             city_id (arg_limit a) DEFAULT_SLEEP w2 in
                  exists w' w3,
                    net w' = r :: rest
                    /\ goods_search_page s category_id city_id
                         (Z.of_nat (length pages) * arg_limit a) (arg_limit a)
                         (last (map (fun p => token_of (snd p)) pages) (VStr []))
                         w'
                       = (Raise e, w3)
                    /\ yielded g = in_stock_items pages
                    /\ ending g = (Raise e, w3)
                    /\ net w3 = rest
                    /\ files w3 = files w
                    /\ (exists e' w'',
                          main rt a w = (Raise e', w'') /\ files w'' = files w)
                    /\ (forallb (returns_row rt city_name) (in_stock_items pages)
                        = true ->
                        main rt a w = (Raise e, w3)))))
  /\ (forall fuel s category_id city_id limit sleep_sec offset tok w0 e w1,
        goods_search_page s category_id city_id offset limit tok w0
        = (Raise e, w1) ->
        iter_loop rt (S fuel) s category_id city_id limit sleep_sec offset tok w0
        = Raised e w1)
  /\ (forall g city_name rows e w',
        ending g = (Raise e, w') ->
        exists e' w'', collect rt g city_name rows = (Raise e', w'')).
Proof.
  split; [|split; [|split; [|split]]];
    [| | |intros fuel s category_id city_id limit sleep_sec offset tok w0 e w1 G;
          cbn [iter_loop]; now rewrite G
         |intros g city_name rows e w' He;
          exact (proj1 (collect_raises city_name g rows e w' He))].
  - unfold has_credentials, main. intro H. apply negb_false_iff in H.
    rewrite H. reflexivity.
  - intro H. cbv zeta. rewrite (main_run rt a w H).
    pose proof (keeps_files_resolve_city rt (session_of a) (arg_city a)
                  (arg_fias_id a) w) as K1.
    destruct (resolve_city rt (session_of a) (arg_city a) (arg_fias_id a) w)
      as [[[[city_id city_name] fias]|e] w1]; simpl in K1;
      [|split; [reflexivity | exact K1]].
    pose proof (keeps_files_get_coffee_category_id rt (session_of a) w1) as K2.
    destruct (get_coffee_category_id rt (session_of a) w1)
      as [[category_id|e] w2]; simpl in K2;
      [|split; [reflexivity | now rewrite K2]].
    pose proof (collect_files rt (files w2) city_name _
                  (gen_files_iter_loop rt (session_of a) category_id city_id
                     (arg_limit a) DEFAULT_SLEEP (S (length (net w2)))
                     0 (VStr []) w2) []) as K3.
    fold (iter_coffee_products_in_stock rt (session_of a) category_id city_id
            (arg_limit a) DEFAULT_SLEEP w2) in K3.
    destruct (collect rt
                (iter_coffee_products_in_stock rt (session_of a) category_id
                   city_id (arg_limit a) DEFAULT_SLEEP w2) city_name [])
      as [[rows|e] w3]; simpl in K3;
      [|split; [reflexivity | now rewrite K3, K2]].
    assert (F3 : files w3 = files w) by now rewrite K3, K2.
    split; [exact F3|].
    unfold write_csv.
    destruct (Utf8.encode (csv_record header)) as [bytes|].
    + destruct (write_rows rows (Utf8.BOM ++ bytes)) as [[[]|e] content];
        exists content; (split; [reflexivity|]); cbn; now rewrite F3.
    + exists []. split; [reflexivity|]. cbn. now rewrite F3.
  - intro H. cbv zeta. split.
    + intros c f r rest e Hf Hnet Hbad. rewrite (main_run rt a w H).
      now rewrite (resolve_city_bad_reply rt (session_of a) (arg_city a)
                     (arg_fias_id a) w c f r rest e Hf Hnet Hbad).
    + intros city_id city_name fias w1 R.
      pose proof (keeps_files_resolve_city rt (session_of a) (arg_city a)
                    (arg_fias_id a) w) as K1.
      rewrite R in K1. cbn [snd] in K1. split.
      * intros r rest e Hnet Hbad. split; [|exact K1].
        rewrite (main_run rt a w H), R.
        now rewrite (get_coffee_category_id_bad_reply rt (session_of a) w1 r
                       rest e Hnet Hbad).
      * intros category_id w2 pages r rest e C Hsleep Hfull Hnet Hbad.
        pose proof (keeps_files_get_coffee_category_id rt (session_of a) w1) as K2.
        rewrite C in K2. cbn [snd] in K2.
        unfold iter_coffee_products_in_stock.
        rewrite (iter_fuel_split pages _ w2 Hnet).
        destruct (iter_loop_prefix rt (session_of a) category_id city_id
                    (arg_limit a) DEFAULT_SLEEP Hsleep pages
                    (S (length (r :: rest))) 0 (VStr []) w2 _ Hfull Hnet)
          as [w' [rqs [Hy [He [Hn [_ [_ [_ [_ [Hfl _]]]]]]]]]].
        cbv zeta in Hy, He. rewrite Z.add_0_l in Hy, He.
        pose proof (goods_search_page_bad_reply (session_of a) category_id
                      city_id (Z.of_nat (length pages) * arg_limit a)
                      (arg_limit a)
                      (last (map (fun p => token_of (snd p)) pages) (VStr []))
                      w' r rest e Hn Hbad) as G.
        cbn [iter_loop] in Hy, He. rewrite G in Hy, He.
        cbn [yielded ending] in Hy, He. rewrite app_nil_r in Hy.
        set (w3 := set_net rest _) in *.
        assert (F3 : files w3 = files w).
        { subst w3. cbn [files set_net add_sent]. now rewrite Hfl, K2. }
        set (g := iter_loop rt _ (session_of a) category_id city_id
                    (arg_limit a) DEFAULT_SLEEP 0 (VStr []) w2) in *.
        assert (M : forall e' w'',
                  collect rt g city_name [] = (Raise e', w'') ->
                  main rt a w = (Raise e', w'')).
        { intros e' w'' E. rewrite (main_run rt a w H), R, C.
          unfold iter_coffee_products_in_stock.
          rewrite (iter_fuel_split pages _ w2 Hnet). fold g. now rewrite E. }
        destruct (collect_raises city_name g [] e w3 He) as [[e' [w'' A]] B].
        exists w', w3.
        split; [exact Hn|]. split; [exact G|]. split; [exact Hy|].
        split; [exact He|]. split; [reflexivity|]. split; [exact F3|]. split.
        -- exists e', w''. split; [exact (M e' w'' A)|].
           pose proof (collect_files rt (files w2) city_name g
                         (gen_files_iter_loop rt (session_of a) category_id
                            city_id (arg_limit a) DEFAULT_SLEEP _ 0 (VStr []) w2)
                         []) as K3.
           rewrite A in K3. cbn [snd] in K3. now rewrite K3, K2.
        -- intro Hr. apply M, B. now rewrite Hy.
Qed.

End RunFailures.

(** * Instances *)

(** C1 at the item on promotion of the specification. *)
Lemma to_row_prices_witness :
  exists row,
    to_row sample_runtime item_on_promotion (u "Москва") = Ok row
    /\ money_from_int (VInt 500) = Ok (promo_price row)
    /\ money_from_int (VInt 700) = Ok (regular_price row).
Proof.
  destruct (to_row sample_runtime item_on_promotion (u "Москва")) as [row|e] eqn:E;
    [|vm_compute in E; discriminate E].
  exists row. split; [reflexivity|].
  destruct (proj1 (to_row_prices sample_runtime) item_on_promotion (u "Москва")
              row E) as [promo [Hp [Hset _]]].
  vm_compute in Hp. inversion Hp; subst promo.
  assert (P : dict_get item_on_promotion (u "price") = VInt 500)
    by (vm_compute; reflexivity).
  destruct (Hset ltac:(vm_compute; reflexivity)) as [H1 H2]. rewrite P in H1.
  split; [exact H1 | exact (H2 700 ltac:(vm_compute; reflexivity))].
Defined.

(** C2 at a page of two items, one of them out of stock. *)
Lemma in_stock_filter_witness :
  let p := page [product 1 3; product 2 0] "t1" in
  let w := idle [reply_of p] in
  net w = [reply_of p]
  /\ full_page p = true
  /\ exists w1 next,
       iter_coffee_products_in_stock sample_runtime [] 42 (u "1") 20
         DEFAULT_SLEEP w
       = emit (filter in_stock (page_dicts (snd p))) w1 next.
Proof.
  intros p w.
  assert (Hnet : net w = reply_of p :: []) by reflexivity.
  assert (Hfull : full_page p = true) by (vm_compute; reflexivity).
  split; [exact Hnet|]. split; [exact Hfull|].
  destruct (proj2 (proj2 (proj2 (proj2 (proj2 (in_stock_filter sample_runtime)))))
              [] 42 (u "1") 20 DEFAULT_SLEEP w p [] Hnet Hfull) as [next H].
  eexists. exists next. exact H.
Defined.

(** C3 over two pages of two items and an empty page: the in-stock items of
    the first two pages are yielded, the page after the empty one is left
    unread, and the offsets asked for are 0, 2 and 4. *)
Lemma pagination_witness :
  let w := idle (map reply_of three_pages ++ reply_of (page [] "t3") :: [later_page]) in
  let g := iter_coffee_products_in_stock sample_runtime [] 42 (u "1") 2
             DEFAULT_SLEEP w in
  yielded g = [product 1 3; product 3 1; product 4 2]
  /\ exists w' rqs,
       ending g = (Ok tt, w')
       /\ net w' = [later_page]
       /\ sent w' = rqs
       /\ map rq_offset rqs = [Some (VInt 0); Some (VInt 2); Some (VInt 4)].
Proof.
  intros w g.
  assert (Hsleep : sleep_succeeds sample_runtime DEFAULT_SLEEP)
    by (intros _; reflexivity).
  assert (Hfull : forallb full_page three_pages = true)
    by (vm_compute; reflexivity).
  assert (Hlast : empty_page (page [] "t3") = true) by (vm_compute; reflexivity).
  assert (Hnet : net w = map reply_of three_pages
                         ++ reply_of (page [] "t3") :: [later_page])
    by reflexivity.
  destruct (pagination_stops_at_first_empty_page sample_runtime [] 42 (u "1") 2
              DEFAULT_SLEEP three_pages (page [] "t3") [later_page] w
              Hsleep Hfull Hlast Hnet)
    as [Hy [w' [rqs [He [Hn [_ [Hs [Ho _]]]]]]]].
  fold g in Hy, He. split.
  - rewrite Hy. vm_compute. reflexivity.
  - exists w', rqs. split; [exact He|]. split; [exact Hn|].
    split; [exact Hs|]. rewrite Ho. reflexivity.
Defined.

(** C4 at a known key in capitals and at an identifier with a space on
    either side. *)
Lemma resolve_city_policy_witness :
  resolve_city_fias sample_runtime (Some (u "MOSCOW")) None = Some FIAS_MOSCOW
  /\ resolve_city_fias sample_runtime (Some (u "Казань"))
       (Some (32%N :: u "0c5b2444-70a0-4932-980c-b4dc0d3f02b5 "))
     = Some (py_strip (32%N :: u "0c5b2444-70a0-4932-980c-b4dc0d3f02b5 ")).
Proof.
  split.
  - apply (proj1 (proj2 (proj2 (resolve_city_policy sample_runtime)))
             (u "MOSCOW") None (u "moscow") FIAS_MOSCOW).
    + left. reflexivity.
    + vm_compute. discriminate.
    + vm_compute. right. left. reflexivity.
    + vm_compute. reflexivity.
  - exact (proj1 (resolve_city_policy sample_runtime) (Some (u "Казань")) 32%N
             (u "0c5b2444-70a0-4932-980c-b4dc0d3f02b5 ")).
Defined.

(** C6 at the item on promotion: both prices are populated. *)
Lemma to_row_price_invariant_witness :
  exists row x,
    to_row sample_runtime item_on_promotion (u "Москва") = Ok row
    /\ money_from_int (VInt 500) = Ok (Some x)
    /\ Float64.is_finite x = true
    /\ (promo_price row <> None \/ regular_price row <> None).
Proof.
  destruct (to_row sample_runtime item_on_promotion (u "Москва")) as [row|e] eqn:E;
    [|vm_compute in E; discriminate E].
  destruct (to_row_price_invariant sample_runtime item_on_promotion (u "Москва")
              row E) as [_ [_ H]].
  destruct (H 500 ltac:(vm_compute; reflexivity))
    as [x [promo [H1 [F [_ [_ H2]]]]]].
  exists row, x. split; [reflexivity|]. repeat split; assumption.
Defined.

(** C8 at one row: two lines, the second with a quoted name. *)
Lemma write_csv_file_witness :
  forallb encodable [plain_row] = true
  /\ fst (write_csv [plain_row] (u "coffee.csv") (idle [])) = Ok tt
  /\ line_count (file_text [plain_row])
     = (length [plain_row] + 1 + embedded_line_feeds [plain_row])%nat.
Proof.
  assert (E : forallb encodable [plain_row] = true) by (vm_compute; reflexivity).
  destruct (write_csv_file [plain_row] (u "coffee.csv") (idle []))
    as [H1 [_ [H2 _]]].
  split; [exact E|]. split; [|exact H2].
  rewrite (proj1 (H1 E)). reflexivity.
Defined.

(** C10 at an item whose quantity is the boolean true. *)
Lemma in_stock_bool_witness :
  dict_find unit_sold_by_flag (u "quantity") = Some (VBool true)
  /\ in_stock unit_sold_by_flag = true.
Proof.
  assert (Q : dict_find unit_sold_by_flag (u "quantity") = Some (VBool true))
    by (vm_compute; reflexivity).
  split; [exact Q|].
  exact (proj1 (proj2 (proj2 (proj1 in_stock_bool
                                unit_sold_by_flag Q)))).
Defined.


(** C9 at a run whose second page is answered by 503, and at a run that
    loses the connection there: no file, and the exception of the page. *)
Lemma main_witness :
  has_credentials sample_args = true
  /\ files (snd (main sample_runtime sample_args (idle failing_script))) = []
  /\ fst (main sample_runtime sample_args (idle failing_script))
     = Raise (HTTPError 503)
  /\ main sample_runtime sample_args (idle dropping_script)
     = (Raise ConnectionError,
        snd (main sample_runtime sample_args (idle dropping_script)))
  /\ files (snd (main sample_runtime sample_args (idle dropping_script))) = []
  /\ length (net (snd (main sample_runtime sample_args (idle dropping_script))))
     = 1%nat.
Proof.
  assert (C : has_credentials sample_args = true) by (vm_compute; reflexivity).
  split; [exact C|].
  pose proof (proj1 (proj2 (main_writes_after_collecting sample_runtime
                              sample_args (idle failing_script))) C) as H.
  vm_compute in H. destruct H as [H1 H2].
  split; [vm_compute; reflexivity|]. split; [vm_compute; reflexivity|].
  split; [vm_compute; reflexivity|]. split; vm_compute; reflexivity.
Defined.

(** X2 at a name of blanks and commas. *)
Lemma blank_name_has_no_brand_witness :
  extract_brand_from_name sample_runtime (u " , ,  ") = [].
Proof.
  apply (blank_name_has_no_brand sample_runtime (u " , ,  ")).
  vm_compute. reflexivity.
Defined.

(** X3 at a name between a tab and two blanks. *)
Lemma brand_ignores_outer_whitespace_witness :
  extract_brand_from_name sample_runtime
    ([9%N] ++ u "Кофе Jardin 95г" ++ u "  ")
  = extract_brand_from_name sample_runtime (u "Кофе Jardin 95г").
Proof.
  apply (brand_ignores_outer_whitespace sample_runtime [9%N]
           (u "Кофе Jardin 95г") (u "  ")); vm_compute; reflexivity.
Defined.

(** X5 at an item with an identifier, a name and a price of 199. *)
Lemma to_row_plain_item_witness :
  exists row,
    to_row sample_runtime (item_priced (VInt 199)) (u "Москва") = Ok row
    /\ price_text (regular_price row) = u "1.99".
Proof.
  assert (P : plain_item (item_priced (VInt 199)) = true)
    by (vm_compute; reflexivity).
  destruct (to_row_plain_item sample_runtime (item_priced (VInt 199))
              (u "Москва") P) as [row [promo [R [Hp [_ [_ T]]]]]].
  exists row. split; [exact R|]. rewrite T.
  assert (E : promo = []) by (vm_compute in Hp; now inversion Hp).
  subst promo. vm_compute. reflexivity.
Defined.

(** X6 at the same item. *)
Lemma to_row_text_columns_witness :
  exists row,
    to_row sample_runtime (item_priced (VInt 199)) (u "Москва") = Ok row
    /\ city row = u "Москва"
    /\ brand row = extract_brand_from_name sample_runtime (name row)
    /\ trimmed (name row) = true.
Proof.
  destruct (to_row sample_runtime (item_priced (VInt 199)) (u "Москва"))
    as [row|e] eqn:R; [|vm_compute in R; discriminate R].
  destruct (to_row_text_columns sample_runtime (item_priced (VInt 199))
              (u "Москва") row R) as [C [B [T _]]].
  exists row. repeat split; assumption.
Defined.

(** X8 at the city Москва and a reply that names it. *)
Lemma resolve_city_returns_witness :
  exists city_id city_name fias w',
    resolve_city sample_runtime (session_of sample_args) (Some (u "Москва")) None
      (idle [page_reply 200 city_body])
    = (Ok (city_id, city_name, fias), w')
    /\ city_id <> [] /\ trimmed city_id = true
    /\ files w' = [].
Proof.
  destruct (resolve_city sample_runtime (session_of sample_args)
              (Some (u "Москва")) None (idle [page_reply 200 city_body]))
    as [[[[city_id city_name] fias]|e] w'] eqn:R;
    [|vm_compute in R; discriminate R].
  destruct (resolve_city_returns sample_runtime (session_of sample_args)
              (Some (u "Москва")) None (idle [page_reply 200 city_body]) w'
              city_id city_name fias R)
    as [_ [_ [N [T [_ [_ [F _]]]]]]].
  exists city_id, city_name, fias, w'. repeat split; assumption.
Defined.

(** X9 at a reply whose [cityId] is the number 1. *)
Lemma resolve_city_edge_replies_witness :
  fst (resolve_city sample_runtime (session_of sample_args) (Some (u "Москва"))
         None (idle [page_reply 200 city_body]))
  = Ok (dec_of_Z 1, city_name_of sample_runtime city_body (Some (u "Москва")),
        48%N :: fias_moscow_tail).
Proof.
  assert (F : resolve_city_fias sample_runtime (Some (u "Москва")) None
              = Some (48%N :: fias_moscow_tail)) by (vm_compute; reflexivity).
  assert (I : dict_find city_body (u "cityId") = Some (VInt 1))
    by (vm_compute; reflexivity).
  exact (proj1 (proj2 (proj2
           (resolve_city_edge_replies sample_runtime (session_of sample_args)
              (Some (u "Москва")) None (idle [page_reply 200 city_body])
              48%N fias_moscow_tail 200 city_body [] F eq_refl eq_refl))) 1 I).
Defined.

(** X10 at a geo-identifier of two blanks. *)
Lemma resolve_city_blank_fias_id_witness :
  resolve_city sample_runtime (session_of sample_args) (Some (u "Москва"))
    (Some (u "  ")) (idle [])
  = (Raise (RuntimeError no_fias_message), idle []).
Proof.
  apply (resolve_city_blank_fias_id sample_runtime (session_of sample_args)
           (Some (u "Москва")) 32%N [32%N] (idle [])).
  vm_compute. reflexivity.
Defined.

(** X11 at a city that holds a known name. *)
Lemma city_lookup_yields_known_fias_witness :
  resolve_city_fias sample_runtime (Some (u "Moscow, Russia")) None
  = Some FIAS_MOSCOW
  /\ (FIAS_MOSCOW = FIAS_MOSCOW \/ FIAS_MOSCOW = FIAS_SPB).
Proof.
  assert (F : resolve_city_fias sample_runtime (Some (u "Moscow, Russia")) None
              = Some FIAS_MOSCOW) by (vm_compute; reflexivity).
  split; [exact F|].
  exact (city_lookup_yields_known_fias sample_runtime (Some (u "Moscow, Russia"))
           None FIAS_MOSCOW (or_introl eq_refl) F).
Defined.

(** X12 at a reply with status 503. *)
Lemma bad_reply_raises_witness :
  get_coffee_category_id sample_runtime (session_of sample_args)
    (idle [Reply 503 None; later_page])
  = (Raise (HTTPError 503),
     set_net [later_page]
       (add_sent (category_request (session_of sample_args))
          (idle [Reply 503 None; later_page]))).
Proof.
  exact (proj1 (proj2
           (bad_reply_raises sample_runtime (session_of sample_args)
              (idle [Reply 503 None; later_page]) (Reply 503 None) [later_page]
              (HTTPError 503) eq_refl eq_refl))).
Defined.

(** X13 at two pages of items and an empty page. *)
Lemma pauses_once_per_page_witness :
  exists w',
    ending (iter_coffee_products_in_stock sample_runtime [] 42 (u "1") 2
              DEFAULT_SLEEP
              (idle (map reply_of three_pages ++ [reply_of (page [] "t3")])))
    = (Ok tt, w')
    /\ slept w' = [DEFAULT_SLEEP; DEFAULT_SLEEP].
Proof.
  assert (Hsleep : sleep_succeeds sample_runtime DEFAULT_SLEEP)
    by (intros _; reflexivity).
  assert (Hfull : forallb full_page three_pages = true)
    by (vm_compute; reflexivity).
  assert (Hlast : empty_page (page [] "t3") = true) by (vm_compute; reflexivity).
  destruct (pauses_once_per_page sample_runtime [] 42 (u "1") 2 DEFAULT_SLEEP
              three_pages (page [] "t3") []
              (idle (map reply_of three_pages ++ [reply_of (page [] "t3")]))
              Hsleep Hfull Hlast eq_refl) as [w' [E [S _]]].
  exists w'. split; [exact E|]. rewrite S. reflexivity.
Defined.

(** X14 at a page whose second item is a number. *)
Lemma malformed_item_stops_page_witness :
  scan_page (map VDict [product 1 3] ++ VInt 7 :: [VDict (product 2 1)])
    (idle []) (Return (idle []))
  = emit (filter in_stock [product 1 3]) (idle [])
      (Raised AttributeError (idle [])).
Proof.
  apply (malformed_item_stops_page [product 1 3] (VInt 7) [VDict (product 2 1)]
           (idle []) (Return (idle []))).
  reflexivity.
Defined.

(** X16 at a plain row followed by a row with a lone surrogate. *)
Lemma write_csv_stops_at_unencodable_row_witness :
  write_csv ([plain_row] ++ row_with_surrogate :: [row_with_line_feed])
    (u "coffee.csv") (idle [])
  = (Raise UnicodeEncodeError,
     add_file (u "coffee.csv") (Utf8.BOM ++ utf8_bytes (file_text [plain_row]))
       (idle [])).
Proof.
  apply (write_csv_stops_at_unencodable_row [plain_row] row_with_surrogate
           [row_with_line_feed] (u "coffee.csv") (idle []));
    vm_compute; reflexivity.
Defined.


(** X19 at a run without a token. *)
Lemma main_exit_status_witness :
  main sample_runtime sample_args_without_token (idle [])
  = (Ok 2, add_stderr credentials_message (idle []))
  /\ has_credentials sample_args_without_token = false.
Proof.
  assert (M : main sample_runtime sample_args_without_token (idle [])
              = (Ok 2, add_stderr credentials_message (idle [])))
    by (vm_compute; reflexivity).
  split; [exact M|].
  destruct (main_exit_status sample_runtime sample_args_without_token (idle [])
              _ 2 M) as [[_ [H _]]|[Z _]]; [exact H | discriminate Z].
Defined.

(** * Where the specification and the code part *)

(** C4: an identifier given with whitespace around it is not used as it
    stands. *)
Lemma resolve_city_verbatim_counterexample :
  ~ (forall (rt : runtime) (city : option str) (f : str),
       f <> [] -> resolve_city_fias rt city (Some f) = Some f).
Proof.
  intro H.
  specialize (H sample_runtime None (u " 0c5b2444-70a0-4932-980c-b4dc0d3f02b5 ")).
  vm_compute in H. assert (E : Some 48%N = Some 32%N).
  { assert (X := H ltac:(discriminate)). inversion X. }
  discriminate E.
Qed.

(** C6: an item without a price gives a row with both prices absent, and
    an item whose price is an infinity gives a regular price that is no
    decimal at all. *)
Lemma to_row_price_counterexample :
  ~ (forall (rt : runtime) (it : dict) (city_name : str) (row : ProductRow),
       to_row rt it city_name = Ok row ->
       regular_price row <> None \/ promo_price row <> None)
  /\ ~ (forall (rt : runtime) (it : dict) (city_name : str) (row : ProductRow)
               (x : spec_float),
          to_row rt it city_name = Ok row ->
          regular_price row = Some x ->
          Float64.is_finite x = true).
Proof.
  split; intro H.
  - destruct (H sample_runtime item_without_price (u "Москва") _ eq_refl) as [N|N];
      apply N; reflexivity.
  - specialize (H sample_runtime item_with_infinite_price (u "Москва") _
                  (S754_infinity false) eq_refl eq_refl).
    discriminate H.
Qed.

(** C8: a line feed inside a name adds a line to the file; an infinite price
    has no fractional digits; a lone surrogate stops the writer after the
    header. *)
Lemma write_csv_counterexample :
  ~ (forall rows : list ProductRow,
       line_count (file_text rows) = (length rows + 1)%nat)
  /\ ~ (forall x : spec_float, two_fraction_digits (price_text (Some x)))
  /\ ~ (forall (rows : list ProductRow) (out_path : str) (w : world),
          fst (write_csv rows out_path w) = Ok tt).
Proof.
  split; [|split].
  - intro H. specialize (H [row_with_line_feed]). vm_compute in H. discriminate.
  - intro H. destruct (H (S754_infinity false)) as [sg [whole [d1 [d2 [E _]]]]].
    assert (I : In 46%N (price_text (Some (S754_infinity false)))).
    { rewrite E. apply in_or_app. right. apply in_or_app. right. now left. }
    vm_compute in I. repeat (destruct I as [I|I]; [discriminate|]). exact I.
  - intro H. specialize (H [row_with_surrogate] (u "coffee.csv") (idle [])).
    vm_compute in H. discriminate.
Qed.

